(** * Card-Scraper: the offer discovery and matching engine

    A shallow embedding of the Go sources of the scraper: [app.go],
    [helpers.go], and the later revision of [app.go] that adds the browser
    configurations ("secure", "permissive", "minimal") and the Windows
    retry ladder. Embedded are the price normaliser [extractNumericPrice],
    the criteria matcher [findTheCard] / [findBestOffer], the row
    extractors [getInfos] and [getInfosPatient], the acquisition ladders
    ([scrapeCardInfo] of [app.go]; [scrapeCardInfo],
    [scrapeWithStandardMode], [scrapeWithRetries], [attemptScrapeWithMode]
    and [scrapeWithMultipleModes] of the later revision), the enrichment
    step [extractCardDetails] and the store operation [AddCard].
    Further on come [parseSetAndRarity], the node-based extractors
    ([extractOffers] and [waitForCloudflare] of [helpers.go]; the
    progressive [extractAllOffers] with its three steps and
    [findBestOfferWithFallback]), the other store operations
    ([DeleteCard], [MoveCard], [GetCards], [GetStats], [RescrapAllCards],
    [UpdateCardPriceFixed]) and the WebView revision
    ([scrapeWithWailsWebView], [findBestOfferWebView],
    [extractOffersFromWebView] and the keyword readers).

    Conventions.
    - A Go [string] is a byte sequence: Rocq's [string] (a list of [ascii]).
      Non-ASCII text such as the euro sign is its UTF-8 bytes.
    - A [float64] price is represented by the exact decimal value that
      [strconv.ParseFloat] is handed (a reduced rational); the Go value is
      the [float64] nearest to it.
    - The browser is the environment: what a [chromedp.Run] call yields is
      data of the page and session models, read by the embedded functions.
    - A pointer to a struct is the content of the cell it points to,
      threaded through the function that writes it.
    - Logging is left out. *)

From Stdlib Require Import Ascii String DecimalString QArith Qreduction.
From stdpp Require Import base option list strings gmap.

Local Open Scope string_scope.

(** ** Go's [strings] package, on bytes *)

Module GoStrings.

Definition byte_eqb (a b : ascii) : bool := Ascii.eqb a b.

(** [strings.Contains(s, string(c))] for a one-byte needle. *)
Fixpoint Contains (s : string) (c : ascii) : bool :=
  match s with
  | EmptyString => false
  | String x s' => byte_eqb x c || Contains s' c
  end.

(** [strings.Count(s, string(c))] for a one-byte needle. *)
Fixpoint Count (s : string) (c : ascii) : nat :=
  match s with
  | EmptyString => 0
  | String x s' => (if byte_eqb x c then 1 else 0) + Count s' c
  end.

(** [strings.ReplaceAll(s, string(c), "")]. *)
Fixpoint RemoveAll (s : string) (c : ascii) : string :=
  match s with
  | EmptyString => EmptyString
  | String x s' => if byte_eqb x c then RemoveAll s' c
                   else String x (RemoveAll s' c)
  end.

(** [strings.Replace(s, string(c), string(d), 1)]: the first occurrence
    only. *)
Fixpoint ReplaceFirst (s : string) (c d : ascii) : string :=
  match s with
  | EmptyString => EmptyString
  | String x s' => if byte_eqb x c then String d s'
                   else String x (ReplaceFirst s' c d)
  end.

(** [strings.Split(s, string(c))]: always at least one part. *)
Fixpoint Split (s : string) (c : ascii) : list string :=
  match s with
  | EmptyString => [EmptyString]
  | String x s' =>
      if byte_eqb x c then EmptyString :: Split s' c
      else match Split s' c with
           | p :: ps => String x p :: ps
           | [] => [String x EmptyString]
           end
  end.

(** [strings.Contains(s, sub)] for an arbitrary needle. *)
Fixpoint ContainsStr (s sub : string) : bool :=
  String.prefix sub s ||
  match s with
  | EmptyString => false
  | String _ s' => ContainsStr s' sub
  end.

(** *** [strings.TrimSpace]

    White space is Unicode's: the six ASCII white-space bytes, U+0085 and
    U+00A0, and U+1680, U+2000..U+200A, U+2028, U+2029, U+202F, U+205F,
    U+3000, recognised by their UTF-8 encodings. *)

Definition is_ascii_space (x : N) : bool :=
  ((9 <=? x) && (x <=? 13) || (x =? 32))%N.

Definition space_rune (bs : list N) : bool :=
  match bs with
  | [x] => is_ascii_space x
  | [x; y] => ((x =? 194) && ((y =? 133) || (y =? 160)))%N
  | [x; y; z] =>
      ((x =? 225) && (y =? 154) && (z =? 128)
       || (x =? 226) && (y =? 128)
          && ((128 <=? z) && (z <=? 138)
              || (z =? 168) || (z =? 169) || (z =? 175))
       || (x =? 226) && (y =? 129) && (z =? 159)
       || (x =? 227) && (y =? 128) && (z =? 128))%N
  | _ => false
  end.

Definition codes (l : list ascii) : list N := map N_of_ascii l.

(** Width in bytes of the white-space rune [l] starts with, 0 for none. *)
Definition lead_space (l : list ascii) : nat :=
  if space_rune (codes (take 1 l)) then 1
  else if space_rune (codes (take 2 l)) then 2
  else if space_rune (codes (take 3 l)) then 3
  else 0.

Definition last_bytes (n : nat) (l : list ascii) : list ascii :=
  drop (length l - n) l.

(** Width in bytes of the white-space rune [l] ends with, 0 for none. *)
Definition trail_space (l : list ascii) : nat :=
  if space_rune (codes (last_bytes 1 l)) then 1
  else if space_rune (codes (last_bytes 2 l)) then 2
  else if space_rune (codes (last_bytes 3 l)) then 3
  else 0.

Fixpoint trim_left (fuel : nat) (l : list ascii) : list ascii :=
  match fuel with
  | O => l
  | S fuel' =>
      match lead_space l with
      | O => l
      | w => trim_left fuel' (drop w l)
      end
  end.

Fixpoint trim_right (fuel : nat) (l : list ascii) : list ascii :=
  match fuel with
  | O => l
  | S fuel' =>
      match trail_space l with
      | O => l
      | w => trim_right fuel' (take (length l - w) l)
      end
  end.

Definition TrimSpace (s : string) : string :=
  let l := list_ascii_of_string s in
  let l1 := trim_left (length l) l in
  string_of_list_ascii (trim_right (length l1) l1).

End GoStrings.

(** ** Go's [regexp], as far as the price pattern needs it

    Leftmost-first matching: the match starts at the leftmost position
    where one exists and is the one a backtracking matcher finds first,
    every repetition being greedy. *)

Module Regexp.

Inductive re : Type :=
| Class (p : ascii -> bool)     (* one byte of a class: [\d], [[.,]] *)
| Cat (a b : re)                (* [ab] *)
| Opt (a : re)                  (* [a?], greedy *)
| Star (a : re).                (* [a*], greedy *)

(** The greedy loop of [a*], [m] matching one [a]: another iteration is
    preferred to stopping, and an iteration has to consume input. [fuel]
    bounds the iterations; the length of the input is enough. *)
Fixpoint star_loop (m : string -> (string -> option string) -> option string)
  (k : string -> option string) (fuel : nat) (s : string) : option string :=
  match fuel with
  | O => k s
  | S fuel' =>
      match m s (fun s1 =>
               if (String.length s1 <? String.length s)%nat
               then star_loop m k fuel' s1 else None) with
      | Some rest => Some rest
      | None => k s
      end
  end.

(** [run r s k]: match [r] at the start of [s], hand the rest of the
    input to the continuation [k]; the alternatives are tried in the order
    of preference. *)
Fixpoint run (r : re) (s : string) (k : string -> option string)
  {struct r} : option string :=
  match r with
  | Class p =>
      match s with
      | String c s' => if p c then k s' else None
      | EmptyString => None
      end
  | Cat a b => run a s (fun s1 => run b s1 k)
  | Opt a =>
      match run a s k with
      | Some rest => Some rest
      | None => k s
      end
  | Star a => star_loop (run a) k (String.length s) s
  end.

(** The first [n] bytes of [s]. *)
Fixpoint take_bytes (n : nat) (s : string) : string :=
  match n, s with
  | S n', String c s' => String c (take_bytes n' s')
  | _, _ => EmptyString
  end.

(** The match of [r] anchored at the start of [s]. *)
Definition match_here (r : re) (s : string) : option string :=
  match run r s Some with
  | Some rest => Some (take_bytes (String.length s - String.length rest) s)
  | None => None
  end.

(** The leftmost match of [r] in [s]. *)
Fixpoint find (r : re) (s : string) : option string :=
  match match_here r s with
  | Some m => Some m
  | None =>
      match s with
      | EmptyString => None
      | String _ s' => find r s'
      end
  end.

(** [x{1,3}] is [x(x(x)?)?]. *)
Definition Rep1to3 (x : re) : re := Cat x (Opt (Cat x (Opt x))).
Definition Rep1to2 (x : re) : re := Cat x (Opt x).
Definition Rep3 (x : re) : re := Cat x (Cat x x).

End Regexp.

(** ** Go's [strconv.ParseFloat], on the strings the normaliser hands it *)

Module Strconv.

Definition is_digit (c : ascii) : bool :=
  ((48 <=? N_of_ascii c) && (N_of_ascii c <=? 57))%N.

Definition digit_val (c : ascii) : Z := Z.of_N (N_of_ascii c) - 48.

Fixpoint all_digits (s : string) : bool :=
  match s with
  | EmptyString => true
  | String c s' => is_digit c && all_digits s'
  end.

(** The number a run of decimal digits denotes, most significant first. *)
Fixpoint digits_from (acc : Z) (s : string) : Z :=
  match s with
  | EmptyString => acc
  | String c s' => digits_from (10 * acc + digit_val c) s'
  end.

Definition digits (s : string) : Z := digits_from 0 s.

(** The value of the decimal numeral [ip.fp]. *)
Definition decimal_value (ip fp : string) : Q :=
  Qred (digits (ip +:+ fp) # Z.to_pos (10 ^ Z.of_nat (String.length fp))).

(** Rounding to nearest overflows [float64] from [2^1024 - 2^970] on;
    [ParseFloat] then reports a range error. *)
Definition float64_overflow : Q := (2 ^ 1024 - 2 ^ 970) # 1.

Definition in_float64_range (v : Q) : bool :=
  negb (Qle_bool float64_overflow v).

Definition to_float64 (v : Q) : option Q :=
  if in_float64_range v then Some v else None.

(** [ParseFloat(s, 64)], [None] for an error. The strings it is given
    here consist of digits, '.' and ',' only; on these the Go function
    accepts exactly the numerals with at most one '.' and at least one
    digit, and fails on a value out of range. *)
Definition ParseFloat (s : string) : option Q :=
  match GoStrings.Split s "." with
  | [ip] =>
      if all_digits ip && negb (String.eqb ip "")
      then to_float64 (decimal_value ip "") else None
  | [ip; fp] =>
      if all_digits ip && all_digits fp && negb (String.eqb (ip +:+ fp) "")
      then to_float64 (decimal_value ip fp) else None
  | _ => None
  end.

End Strconv.

(** ** The price normaliser (app.go, [extractNumericPrice]) *)

Module Price.
Import GoStrings Regexp Strconv.

Definition is_sep (c : ascii) : bool :=
  byte_eqb c "." || byte_eqb c ",".

Definition d : re := Class is_digit.
Definition sep : re := Class is_sep.

(** [(\d{1,3}(?:[.,]\d{3})*(?:[.,]\d{1,2})?)] *)
Definition price_re : re :=
  Cat (Rep1to3 d)
      (Cat (Star (Cat sep (Rep3 d)))
           (Opt (Cat sep (Rep1to2 d)))).

(** [re.FindStringSubmatch]: the whole match and the one capture group,
    which spans the whole pattern; no element when nothing matches. *)
Definition FindStringSubmatch (s : string) : list string :=
  match find price_re s with
  | Some m => [m; m]
  | None => []
  end.

(** The string handed to [ParseFloat] for the matched text [priceStr]. *)
Definition normalizeSeparators (priceText priceStr : string) : string :=
  if Contains priceStr "." && Contains priceStr "," then
    ReplaceFirst (RemoveAll priceStr ".") "," "."
  else if (Count priceStr "." =? 1)%nat then
    let parts := Split priceStr "." in
    if (length parts =? 2)%nat
       && match parts !! 1%nat with
          | Some p => (String.length p =? 3)%nat
          | None => false
          end
       && negb (Contains priceText ",")
    then RemoveAll priceStr "."
    else priceStr
  else if Contains priceStr "," then
    ReplaceFirst priceStr "," "."
  else priceStr.

Definition extractNumericPrice (priceText : string) : Q :=
  match FindStringSubmatch priceText with
  | _ :: m1 :: _ =>
      match ParseFloat (normalizeSeparators priceText m1) with
      | Some price => price
      | None => 0
      end
  | _ => 0
  end.

End Price.

(** ** Data model (app.go) *)

Record CardOffer : Type := mkCardOffer {
  Mint : string;
  Language : string;
  Edition : bool;
  Price : string;
  PriceNum : Q;
  Rarity : string;
  SetName : string
}.

Record ScrapedCardInfo : Type := mkScrapedCardInfo {
  info_Name : string;
  info_Set : string;
  info_Rarity : string;
  info_Price : string;
  info_PriceNum : Q;
  info_ImageURL : string;
  info_Offers : list CardOffer
}.

Record AddCardRequest : Type := mkAddCardRequest {
  req_URL : string;
  req_Type : string;
  req_Quality : string;
  req_Language : string;
  req_Edition : bool
}.

(** A Go call that returns [(value, error)]: [Err msg] stands for a non-nil
    error whose [Error()] text is [msg]. *)
Inductive outcome (A : Type) : Type :=
| Ok (a : A)
| Err (msg : string).
Arguments Ok {A} a.
Arguments Err {A} msg.

(** A value decoded from JSON into Go's [interface{}]. *)
Inductive Any : Type :=
| AString (s : string)
| ABool (b : bool)
| ANumber (q : Q)
| ANull
| AOther.

Definition as_string (v : option Any) : option string :=
  match v with
  | Some (AString s) => Some s
  | _ => None
  end.

Definition as_bool (v : option Any) : option bool :=
  match v with
  | Some (ABool b) => Some b
  | _ => None
  end.

(** ** The criteria matcher (app.go [findTheCard], helpers.go
    [findBestOffer]) *)

Module Matcher.

Definition matches (row : CardOffer) (quality langue : string)
  (edition : bool) : bool :=
  String.eqb (Mint row) quality
  && String.eqb (Language row) langue
  && Bool.eqb (Edition row) edition.

(** The Go function returns [&row], the address of the loop variable,
    which holds a copy of the element: the result is a cell of its own,
    [None] stands for [nil]. *)
Fixpoint findTheCard (données : list CardOffer) (quality langue : string)
  (edition : bool) : option CardOffer :=
  match données with
  | [] => None
  | row :: rest =>
      if matches row quality langue edition then Some row
      else findTheCard rest quality langue edition
  end.

Fixpoint findBestOffer (offers : list CardOffer) (quality language : string)
  (edition : bool) : option CardOffer :=
  match offers with
  | [] => None
  | offer :: rest =>
      if String.eqb (Mint offer) quality
         && String.eqb (Language offer) language
         && Bool.eqb (Edition offer) edition
      then Some offer
      else findBestOffer rest quality language edition
  end.

End Matcher.

(** ** The page, as the extractor sees it *)

(** What evaluating the per-row script yields in [cardData]. *)
Inductive RowEval : Type :=
| EvalError (msg : string)            (* [chromedp.Run] failed *)
| EvalNull                            (* the script returned [null] *)
| EvalObject (m : gmap string Any).   (* the decoded object *)

Record Page : Type := mkPage {
  (** [WaitVisible("body")] and the sleep, under the time-out: the error. *)
  waitBody : option string;
  (** [document.getElementsByClassName('article-row').length]. *)
  articleRowCount : outcome nat;
  (** The per-row script at index [i]. *)
  articleRow : nat -> RowEval;
  (** Text of the rows of plain tables that show a price; no code of
      [getInfos] reads them. *)
  plainTableRows : list string
}.

Module Extractor.
Import GoStrings Price.

Definition trimmed (v : option Any) : string :=
  match as_string v with
  | Some s => TrimSpace s
  | None => ""
  end.

(** One turn of the row loop of [getInfos]: [None] is [continue]. *)
Definition rowOffer (r : RowEval) : option CardOffer :=
  match r with
  | EvalError _ => None
  | EvalNull => None
  | EvalObject cardData =>
      match as_bool (cardData !! "success") with
      | Some true =>
          let mint := trimmed (cardData !! "mint") in
          let langue := trimmed (cardData !! "langue") in
          let price := trimmed (cardData !! "price") in
          let rarity := trimmed (cardData !! "rarity") in
          let setName := trimmed (cardData !! "set_name") in
          let edition :=
            match as_bool (cardData !! "edition") with
            | Some v => v
            | None => false
            end in
          Some {| Mint := mint; Language := langue; Edition := edition;
                  Price := price; PriceNum := extractNumericPrice price;
                  Rarity := rarity; SetName := setName |}
      | _ => None
      end
  end.

Definition getInfos (p : Page) : outcome (list CardOffer) :=
  match waitBody p with
  | Some e => Err ("erreur lors de l'attente de la page: " +:+ e)
  | None =>
      match articleRowCount p with
      | Err e => Err ("erreur lors du comptage des lignes: " +:+ e)
      | Ok rowsCount =>
          if (rowsCount =? 0)%nat then
            (* the alternative selectors are counted for the log only *)
            Ok []
          else
            Ok (omap (fun i => rowOffer (articleRow p i)) (seq 0 rowsCount))
      end
  end.

(** One turn of the row loop of [getInfosPatient]: rarity and set are
    not read. *)
Definition rowOfferPatient (r : RowEval) : option CardOffer :=
  match r with
  | EvalError _ => None
  | EvalNull => None
  | EvalObject cardData =>
      match as_bool (cardData !! "success") with
      | Some true =>
          let mint := default "" (as_string (cardData !! "mint")) in
          let langue := default "" (as_string (cardData !! "langue")) in
          let price := default "" (as_string (cardData !! "price")) in
          let edition := default false (as_bool (cardData !! "edition")) in
          Some {| Mint := TrimSpace mint; Language := TrimSpace langue;
                  Edition := edition; Price := TrimSpace price;
                  PriceNum := extractNumericPrice (TrimSpace price);
                  Rarity := ""; SetName := "" |}
      | _ => None
      end
  end.

Definition getInfosPatient (p : Page) : outcome (list CardOffer) :=
  match waitBody p with
  | Some e => Err ("erreur attente page (mode patient): " +:+ e)
  | None =>
      match articleRowCount p with
      | Err e => Err ("erreur comptage patient: " +:+ e)
      | Ok rowsCount =>
          if (rowsCount =? 0)%nat then Ok []
          else
            Ok (omap (fun i => rowOfferPatient (articleRow p i))
                     (seq 0 rowsCount))
      end
  end.

End Extractor.

(** ** The browser, as the acquisition ladder sees it *)

(** One [getPage] call: the error of the initial navigation, if any, and
    the page the session is on afterwards. The later steps of [getPage]
    (Cloudflare wait, cookie banner, "load more") never fail the call. *)
Record Visit : Type := mkVisit {
  navigation : option string;
  reached : Page
}.

(** One browser context. [visits n load] is the [n]-th [getPage] call made
    on it ([n] counts from 0), with its [moreLoad] flag. *)
Record Session : Type := mkSession {
  visits : nat -> bool -> Visit;
  (** [chromedp.Text("h1", &name)]. *)
  heading : outcome string;
  (** The first evaluation of the info-list script, into a throw-away map
      (app.go only): its error. *)
  pageInfoProbe : option string;
  (** The evaluation of the info-list script into [pageInfo]; [Ok None] is
      a nil map. *)
  pageInfo : outcome (option (gmap string Any))
}.

Inductive Mode : Type := secure | permissive | minimal.

Definition mode_name (m : Mode) : string :=
  match m with
  | secure => "secure"
  | permissive => "permissive"
  | minimal => "minimal"
  end.

Record Browser : Type := mkBrowser {
  (** [runtime.GOOS == "windows"]. *)
  windows : bool;
  (** The connectivity test ([about:blank]) of a context created with the
      options of a mode: its error. *)
  connection : Mode -> option string;
  (** The context created with the options of a mode. *)
  session : Mode -> Session
}.

(** One [launchLoop] / [launchLoopPatient] call, as recorded for the
    ordering properties. *)
Record Attempt : Type := mkAttempt {
  att_mode : Mode;
  att_index : nat;
  att_load : bool;
  att_hit : bool
}.

Definition fmt_bool (b : bool) : string := if b then "true" else "false".

Module Engine.
Import GoStrings Matcher Extractor.

Definition launchLoop (s : Session) (n : nat) (quality langue : string)
  (edition load : bool) : option CardOffer :=
  let v := visits s n load in
  match navigation v with
  | Some _ => None
  | None =>
      match getInfos (reached v) with
      | Err _ => None
      | Ok res => findTheCard res quality langue edition
      end
  end.

Definition launchLoopPatient (s : Session) (n : nat)
  (quality langue : string) (edition load : bool) : option CardOffer :=
  let v := visits s n load in
  match navigation v with
  | Some _ => None
  | None =>
      match getInfosPatient (reached v) with
      | Err _ => None
      | Ok res => findTheCard res quality langue edition
      end
  end.

Definition emptyInfo : ScrapedCardInfo :=
  {| info_Name := ""; info_Set := ""; info_Rarity := ""; info_Price := "";
     info_PriceNum := 0; info_ImageURL := ""; info_Offers := [] |}.

Definition is_empty (s : string) : bool := String.eqb s "".

Definition set_SetName (o : CardOffer) (v : string) : CardOffer :=
  {| Mint := Mint o; Language := Language o; Edition := Edition o;
     Price := Price o; PriceNum := PriceNum o; Rarity := Rarity o;
     SetName := v |}.

Definition set_Rarity (o : CardOffer) (v : string) : CardOffer :=
  {| Mint := Mint o; Language := Language o; Edition := Edition o;
     Price := Price o; PriceNum := PriceNum o; Rarity := v;
     SetName := SetName o |}.

(** The display name: the first heading, or the sentinel. *)
Definition cardName (s : Session) : string :=
  let name :=
    match heading s with
    | Err _ => "Carte inconnue"
    | Ok name => if is_empty name then "Carte inconnue" else name
    end in
  TrimSpace name.

(** [(rarityFromPage, setFromPage)] out of the decoded [pageInfo]. *)
Definition fromPage (pi : outcome (option (gmap string Any)))
  : string * string :=
  match pi with
  | Ok (Some m) =>
      (match as_string (m !! "rarity") with
       | Some rarity => TrimSpace rarity
       | None => ""
       end,
       match as_string (m !! "set_name") with
       | Some setName => TrimSpace setName
       | None => ""
       end)
  | _ => ("", "")
  end.

(** The two [if / else if / else] ladders on set and rarity. They write
    [info.Set], [info.Rarity] and, through the pointer, the selected
    offer's [SetName] and [Rarity]: the offer is threaded as [result]. *)
Definition fillSetAndRarity (rarityFromPage setFromPage : string)
  (result : CardOffer) (info : ScrapedCardInfo)
  : ScrapedCardInfo * CardOffer :=
  let '(set, result) :=
    if negb (is_empty setFromPage) then
      (setFromPage, set_SetName result setFromPage)
    else if negb (is_empty (SetName result)) then (SetName result, result)
    else ("Set inconnu", result) in
  let '(rarity, result) :=
    if negb (is_empty rarityFromPage) then
      (rarityFromPage, set_Rarity result rarityFromPage)
    else if negb (is_empty (Rarity result)) then (Rarity result, result)
    else ("Rareté inconnue", result) in
  ({| info_Name := info_Name info; info_Set := set; info_Rarity := rarity;
      info_Price := info_Price info; info_PriceNum := info_PriceNum info;
      info_ImageURL := info_ImageURL info;
      info_Offers := info_Offers info |}, result).

Definition withName (info : ScrapedCardInfo) (name : string)
  : ScrapedCardInfo :=
  {| info_Name := name; info_Set := info_Set info;
     info_Rarity := info_Rarity info; info_Price := info_Price info;
     info_PriceNum := info_PriceNum info;
     info_ImageURL := info_ImageURL info;
     info_Offers := info_Offers info |}.

(** [info.Offers = []CardOffer{*result}; info.Price = result.Price;
    info.PriceNum = result.PriceNum]: the offer is copied by value. *)
Definition promote (info : ScrapedCardInfo) (result : CardOffer)
  : ScrapedCardInfo :=
  {| info_Name := info_Name info; info_Set := info_Set info;
     info_Rarity := info_Rarity info; info_Price := Price result;
     info_PriceNum := PriceNum result;
     info_ImageURL := info_ImageURL info;
     info_Offers := [result] |}.

(** The later revision's [extractCardDetails]: the result, and the final
    content of the cell [result] points to. *)
Definition extractCardDetails (s : Session) (result : CardOffer)
  (info : ScrapedCardInfo) : outcome ScrapedCardInfo * CardOffer :=
  let info := promote info result in
  let info := withName info (cardName s) in
  let '(rarityFromPage, setFromPage) := fromPage (pageInfo s) in
  let '(info, result) :=
    fillSetAndRarity rarityFromPage setFromPage result info in
  (Ok info, result).

(** *** One configuration, two load depths *)

Definition no_match_error (req : AddCardRequest) : string :=
  "aucune carte correspondant aux critères qualité=" +:+ req_Quality req
  +:+ ", langue=" +:+ req_Language req
  +:+ ", édition=" +:+ fmt_bool (req_Edition req).

(** The two [launchLoop] calls that open app.go's [scrapeCardInfo] and the
    later [scrapeWithStandardMode], with the attempts made. *)
Definition twoDepths (m : Mode) (s : Session) (req : AddCardRequest)
  : option CardOffer * list Attempt :=
  let result :=
    launchLoop s 0 (req_Quality req) (req_Language req)
               (req_Edition req) false in
  match result with
  | Some r => (Some r, [mkAttempt m 0 false true])
  | None =>
      let result :=
        launchLoop s 1 (req_Quality req) (req_Language req)
                   (req_Edition req) true in
      (result, [mkAttempt m 0 false false;
                mkAttempt m 1 true (bool_decide (is_Some result))])
  end.

(** *** The later revision: the Windows ladder and the standard mode *)

(** [{delay, loadMore, name}], in the order of the source. *)
Definition attempts : list (nat * bool * string) :=
  [ (2, false, "Tentative rapide");
    (5, false, "Tentative standard");
    (8, true, "Tentative avec chargement supplémentaire");
    (12, true, "Tentative finale (mode patient)") ]%nat.

Fixpoint retryLoop (m : Mode) (s : Session) (req : AddCardRequest)
  (i : nat) (todo : list (nat * bool * string))
  : option CardOffer * list Attempt :=
  match todo with
  | [] => (None, [])
  | (_, loadMore, _) :: rest =>
      match launchLoopPatient s i (req_Quality req) (req_Language req)
              (req_Edition req) loadMore with
      | Some result => (Some result, [mkAttempt m i loadMore true])
      | None =>
          let '(r, trace) := retryLoop m s req (S i) rest in
          (r, mkAttempt m i loadMore false :: trace)
      end
  end.

Definition scrapeWithRetries (m : Mode) (s : Session)
  (req : AddCardRequest) : option CardOffer * list Attempt :=
  retryLoop m s req 0 attempts.

Definition testBrowserConnectionForMode (b : Browser) (m : Mode)
  : option string :=
  match connection b m with
  | Some e =>
      Some ((match m with
             | secure => "test sécurisé échoué: "
             | _ => "test rapide échoué: "
             end) +:+ e)
  | None => None
  end.

Definition attemptScrapeWithMode (b : Browser) (req : AddCardRequest)
  (m : Mode) : outcome ScrapedCardInfo * list Attempt :=
  match testBrowserConnectionForMode b m with
  | Some e =>
      (Err ("connexion navigateur impossible en mode " +:+ mode_name m
            +:+ ": " +:+ e), [])
  | None =>
      let info := emptyInfo in
      let '(result, trace) := scrapeWithRetries m (session b m) req in
      match result with
      | None =>
          (Err ("aucune carte trouvée avec le mode " +:+ mode_name m),
           trace)
      | Some result =>
          (fst (extractCardDetails (session b m) result info), trace)
      end
  end.

Definition modes : list Mode := [secure; permissive; minimal].

Definition all_modes_failed : string :=
  "impossible de se connecter au navigateur après tous les modes testés. Vérifiez que Chrome ou Edge est installé et accessible".

Fixpoint modeLoop (b : Browser) (req : AddCardRequest) (todo : list Mode)
  : outcome ScrapedCardInfo * list Attempt :=
  match todo with
  | [] => (Err all_modes_failed, [])
  | m :: rest =>
      match attemptScrapeWithMode b req m with
      | (Ok result, trace) => (Ok result, trace)
      | (Err _, trace) =>
          let '(r, trace') := modeLoop b req rest in
          (r, (trace ++ trace')%list)
      end
  end.

Definition scrapeWithMultipleModes (b : Browser) (req : AddCardRequest)
  : outcome ScrapedCardInfo * list Attempt :=
  modeLoop b req modes.

Definition testBrowserConnection (b : Browser) : option string :=
  match connection b secure with
  | Some e => Some ("échec connexion navigateur: " +:+ e)
  | None => None
  end.

Definition windows_hint (e : string) : string :=
  "connexion navigateur impossible: " +:+ e +:+
  ". Solutions: 1) Redémarrez l'app en tant qu'administrateur, 2) Ajoutez l'app aux exclusions antivirus, 3) Vérifiez qu'Edge/Chrome est installé".

Definition testBrowserConnectionPatient (b : Browser) : option string :=
  if windows b then
    match connection b secure with
    | Some e => Some (windows_hint e)
    | None => None
    end
  else testBrowserConnection b.

Definition scrapeWithStandardMode (b : Browser) (req : AddCardRequest)
  : outcome ScrapedCardInfo * list Attempt :=
  match testBrowserConnectionPatient b with
  | Some e => (Err ("impossible de se connecter au navigateur: " +:+ e), [])
  | None =>
      let info := emptyInfo in
      let '(result, trace) := twoDepths secure (session b secure) req in
      match result with
      | None => (Err (no_match_error req), trace)
      | Some result =>
          (fst (extractCardDetails (session b secure) result info), trace)
      end
  end.

Definition scrapeCardInfo (b : Browser) (req : AddCardRequest)
  : outcome ScrapedCardInfo * list Attempt :=
  if windows b then scrapeWithMultipleModes b req
  else scrapeWithStandardMode b req.

End Engine.

(** ** app.go's [scrapeCardInfo]: one configuration, two load depths *)

Module AppGo.
Import GoStrings Matcher Extractor Engine.

(** app.go's [scrapeCardInfo], on the one context it creates: the result,
    the final content of the selected offer's cell, the attempts. *)
Definition scrapeCardInfo (s : Session) (req : AddCardRequest)
  : outcome ScrapedCardInfo * option CardOffer * list Attempt :=
  let info := emptyInfo in
  let '(result, trace) := twoDepths secure s req in
  match result with
  | None => (Err (no_match_error req), None, trace)
  | Some result =>
      let info := withName info (cardName s) in
      let '(rarityFromPage, setFromPage) :=
        match pageInfoProbe s with
        | None => fromPage (pageInfo s)
        | Some _ => ("", "")
        end in
      let '(info, result) :=
        fillSetAndRarity rarityFromPage setFromPage result info in
      let info := promote info result in
      (Ok info, Some result, trace)
  end.

End AppGo.

(** ** The card store and [AddCard] (app.go)

    The SQLite table [cards]: [id INTEGER PRIMARY KEY AUTOINCREMENT],
    [card_url TEXT UNIQUE]. A statement is modelled by what SQL says it does
    to the table. *)

Record Card : Type := mkCard {
  card_ID : nat;
  card_Name : string;
  card_Set : string;
  card_Rarity : string;
  card_Price : string;
  card_PriceNum : Q;
  card_ImageURL : string;
  card_CardURL : string;
  card_Type : string;
  card_AddedAt : string;
  card_LastUpdated : string;
  card_Quality : string;
  card_Language : string;
  card_Edition : bool;
  card_TotalOffers : nat
}.

Record DB : Type := mkDB {
  (** The rows, in insertion order. *)
  rows : list Card;
  (** The largest id handed out so far. *)
  last_id : nat
}.

Module Store.
Import GoStrings.

Definition with_Type (c : Card) (t : string) : Card :=
  {| card_ID := card_ID c; card_Name := card_Name c;
     card_Set := card_Set c; card_Rarity := card_Rarity c;
     card_Price := card_Price c; card_PriceNum := card_PriceNum c;
     card_ImageURL := card_ImageURL c; card_CardURL := card_CardURL c;
     card_Type := t; card_AddedAt := card_AddedAt c;
     card_LastUpdated := card_LastUpdated c;
     card_Quality := card_Quality c; card_Language := card_Language c;
     card_Edition := card_Edition c;
     card_TotalOffers := card_TotalOffers c |}.

Definition with_LastUpdated (c : Card) (t : string) : Card :=
  {| card_ID := card_ID c; card_Name := card_Name c;
     card_Set := card_Set c; card_Rarity := card_Rarity c;
     card_Price := card_Price c; card_PriceNum := card_PriceNum c;
     card_ImageURL := card_ImageURL c; card_CardURL := card_CardURL c;
     card_Type := card_Type c; card_AddedAt := card_AddedAt c;
     card_LastUpdated := t;
     card_Quality := card_Quality c; card_Language := card_Language c;
     card_Edition := card_Edition c;
     card_TotalOffers := card_TotalOffers c |}.

Definition with_ID (c : Card) (id : nat) : Card :=
  {| card_ID := id; card_Name := card_Name c;
     card_Set := card_Set c; card_Rarity := card_Rarity c;
     card_Price := card_Price c; card_PriceNum := card_PriceNum c;
     card_ImageURL := card_ImageURL c; card_CardURL := card_CardURL c;
     card_Type := card_Type c; card_AddedAt := card_AddedAt c;
     card_LastUpdated := card_LastUpdated c;
     card_Quality := card_Quality c; card_Language := card_Language c;
     card_Edition := card_Edition c;
     card_TotalOffers := card_TotalOffers c |}.

(** [SELECT ... FROM cards WHERE card_url = ?], scanned into a [Card]:
    the first row, or [sql.ErrNoRows]. *)
Definition getCardByURL (db : DB) (url : string) : outcome Card :=
  match List.find (fun c => String.eqb (card_CardURL c) url) (rows db) with
  | Some card => Ok card
  | None => Err "sql: no rows in result set"
  end.

(** [UPDATE cards SET type = ?, last_updated = CURRENT_TIMESTAMP
    WHERE id = ?], carried out: within [AddCard] the statement is taken to
    succeed. *)
Definition moveCard (timestamp : string) (db : DB) (cardID : nat)
  (newType : string) : option string * DB :=
  (None,
   {| rows := map (fun c => if (card_ID c =? cardID)%nat
                            then with_LastUpdated (with_Type c newType)
                                                  timestamp
                            else c) (rows db);
      last_id := last_id db |}).

(** [INSERT INTO cards (...) VALUES (...)]: refused when the URL is
    taken; the new row's id otherwise. *)
Definition insertCard (db : DB) (card : Card) : outcome nat * DB :=
  if existsb (fun c => String.eqb (card_CardURL c) (card_CardURL card))
             (rows db)
  then (Err "UNIQUE constraint failed: cards.card_url", db)
  else
    let id := S (last_id db) in
    (Ok id, {| rows := (rows db ++ [with_ID card id])%list;
               last_id := id |}).

(** app.go: the text of the error [AddCard] returns when scraping failed
    with [err]. *)
Definition scrapeFailure_app (req : AddCardRequest) (err : string) : string :=
  if ContainsStr err "aucune carte correspondant aux critères"
     || ContainsStr err "impossible d'extraire les offres"
  then "carte non trouvée avec les critères spécifiés (qualité: "
       +:+ req_Quality req +:+ ", langue: " +:+ req_Language req
       +:+ ", édition: " +:+ fmt_bool (req_Edition req)
       +:+ "). Aucune carte similaire disponible"
  else "erreur lors du scraping: " +:+ err.

Definition browser_unreachable_windows : string :=
  "impossible d'accéder au navigateur. Sur Windows: 1) Vérifiez que Chrome/Edge est installé, 2) Ajoutez l'application aux exclusions antivirus, 3) Désactivez temporairement Windows Defender si nécessaire".

(** The later revision: the same, with the browser and time-out cases. *)
Definition scrapeFailure (on_windows : bool) (req : AddCardRequest)
  (err : string) : string :=
  if ContainsStr err "impossible de se connecter au navigateur" then
    if on_windows then browser_unreachable_windows
    else "impossible d'accéder au navigateur: " +:+ err
  else if ContainsStr err "aucune carte correspondant aux critères"
          || ContainsStr err "impossible d'extraire les offres"
  then "carte non trouvée avec les critères spécifiés (qualité: "
       +:+ req_Quality req +:+ ", langue: " +:+ req_Language req
       +:+ ", édition: " +:+ fmt_bool (req_Edition req)
       +:+ "). Aucune carte similaire disponible"
  else if ContainsStr err "context deadline exceeded" then
    "timeout lors de l'accès à CardMarket. Vérifiez votre connexion internet et réessayez"
  else "erreur lors du scraping: " +:+ err.

Section AddCard.
(** [a.scrapeCardInfo(req.URL, req)] and the error text for its
    failure; [time.Now()] formatted, and SQL's [CURRENT_TIMESTAMP]. *)
Variable scrapeCardInfo : AddCardRequest -> outcome ScrapedCardInfo.
Variable scrapeFailureText : AddCardRequest -> string -> string.
Variable now : string.
Variable timestamp : string.

(** The result, the store afterwards, and the URLs scraped. *)
Definition AddCard (db : DB) (req : AddCardRequest)
  : outcome Card * DB * list string :=
  match getCardByURL db (req_URL req) with
  | Ok existingCard =>
      if String.eqb (card_Type existingCard) (req_Type req) then
        (Err ("cette carte est déjà dans votre " +:+ req_Type req),
         db, [])
      else
        match moveCard timestamp db (card_ID existingCard)
                (req_Type req) with
        | (Some err, db') => (Err err, db', [])
        | (None, db') =>
            (Ok (with_Type existingCard (req_Type req)), db', [])
        end
  | Err _ =>
      match scrapeCardInfo req with
      | Err err =>
          (Err (scrapeFailureText req err), db, [req_URL req])
      | Ok cardInfo =>
          let card :=
            {| card_ID := 0;
               card_Name := info_Name cardInfo;
               card_Set := info_Set cardInfo;
               card_Rarity := info_Rarity cardInfo;
               card_Price := info_Price cardInfo;
               card_PriceNum := info_PriceNum cardInfo;
               card_ImageURL := info_ImageURL cardInfo;
               card_CardURL := req_URL req;
               card_Type := req_Type req;
               card_AddedAt := now;
               card_LastUpdated := now;
               card_Quality := req_Quality req;
               card_Language := req_Language req;
               card_Edition := req_Edition req;
               card_TotalOffers := length (info_Offers cardInfo) |} in
          match insertCard db card with
          | (Err err, db') =>
              (Err ("erreur sauvegarde: " +:+ err), db', [req_URL req])
          | (Ok id, db') => (Ok (with_ID card id), db', [req_URL req])
          end
      end
  end.
End AddCard.

End Store.

(** ** Vocabulary of the properties *)

Module Props.
Import GoStrings Regexp Strconv Price Matcher Extractor Engine Store.

(** The text holds a decimal digit. *)
Fixpoint has_digit (s : string) : bool :=
  match s with
  | EmptyString => false
  | String c s' => is_digit c || has_digit s'
  end.

(** An offer carries exactly the requested triple. *)
Definition triple_eq (o : CardOffer) (quality langue : string)
  (edition : bool) : Prop :=
  Mint o = quality ∧ Language o = langue ∧ Edition o = edition.

Definition offer (mint language : string) (edition : bool)
  (price : string) : CardOffer :=
  {| Mint := mint; Language := language; Edition := edition;
     Price := price; PriceNum := extractNumericPrice price;
     Rarity := ""; SetName := "" |}.

(** A page without any [article-row] element and with one plain table
    row that shows a price. *)
Definition table_only_page : Page :=
  {| waitBody := None;
     articleRowCount := Ok 0;
     articleRow := λ _, EvalNull;
     plainTableRows := ["Near Mint English 2,00 €"] |}.

Definition with_tables (p : Page) (tables : list string) : Page :=
  {| waitBody := waitBody p; articleRowCount := articleRowCount p;
     articleRow := articleRow p; plainTableRows := tables |}.

(** A page with one article row: an NM English offer whose price
    container reads "N/A". *)
Definition unpriced_row : gmap string Any :=
  {[ "success" := ABool true; "mint" := AString "NM";
     "langue" := AString "English"; "edition" := ABool false;
     "price" := AString " N/A " ]}.

Definition unpriced_page : Page :=
  {| waitBody := None;
     articleRowCount := Ok 1;
     articleRow := λ _, EvalObject unpriced_row;
     plainTableRows := [] |}.

(** How a label of the result is chosen: the page's value, else the one
    the selected offer carried, else the sentinel. *)
Definition label_rule (fromPage carried sentinel chosen : string) : Prop :=
  (fromPage ≠ "" → chosen = fromPage)
  ∧ (fromPage = "" → carried ≠ "" → chosen = carried)
  ∧ (fromPage = "" → carried = "" → chosen = sentinel).

(** The selected offer after enrichment: only [SetName] and [Rarity] may
    have been overwritten, each by a non-empty value read from the page. *)
Definition overwritten (rarityFromPage setFromPage : string)
  (before after : CardOffer) : Prop :=
  Mint after = Mint before
  ∧ Language after = Language before
  ∧ Edition after = Edition before
  ∧ Price after = Price before
  ∧ PriceNum after = PriceNum before
  ∧ SetName after = (if is_empty setFromPage then SetName before
                     else setFromPage)
  ∧ Rarity after = (if is_empty rarityFromPage then Rarity before
                    else rarityFromPage).

(** [(rarityFromPage, setFromPage)] as app.go reads them: the second
    evaluation is made only when the first one succeeded. *)
Definition fromPage_app (s : Session) : string * string :=
  match pageInfoProbe s with
  | None => fromPage (pageInfo s)
  | Some _ => ("", "")
  end.

(** The decoded object of an [article-row] with the given badge, language
    title, special icon and price text. *)
Definition row (mint lang : string) (edition : bool) (price : string)
  : gmap string Any :=
  {[ "success" := ABool true; "mint" := AString mint;
     "langue" := AString lang; "edition" := ABool edition;
     "price" := AString price; "rarity" := AString "";
     "set_name" := AString "" ]}.

Definition offers_page (rs : list (gmap string Any)) : Page :=
  {| waitBody := None;
     articleRowCount := Ok (length rs);
     articleRow := λ i, match rs !! i with
                        | Some m => EvalObject m
                        | None => EvalNull
                        end;
     plainTableRows := [] |}.

(** A context on which every navigation succeeds and shows [p]. *)
Definition steady_session (p : Page) (h : outcome string)
  (pi : outcome (option (gmap string Any))) : Session :=
  {| visits := λ _ _, {| navigation := None; reached := p |};
     heading := h; pageInfoProbe := None; pageInfo := pi |}.

Definition base_set_info : gmap string Any :=
  {[ "rarity" := AString "Rare"; "set_name" := AString " Base Set " ]}.

(** One NM English offer at 2.00€; heading and info list present. *)
Definition labelled_session : Session :=
  steady_session (offers_page [row "NM" "English" false "2.00€"])
                 (Ok "Pikachu") (Ok (Some base_set_info)).

(** The same offers, no heading and no info list. *)
Definition bare_session : Session :=
  steady_session (offers_page [row "NM" "English" false "2.00€"])
                 (Err "could not find node") (Ok None).

Definition nm_english : AddCardRequest :=
  {| req_URL := "https://www.cardmarket.com/en/Pokemon/Products/Singles/Base-Set/Pikachu";
     req_Type := "collection"; req_Quality := "NM";
     req_Language := "English"; req_Edition := false |}.

(** *** The acquisition ladder *)

(** A (configuration, attempt number, load depth) pair. *)
Definition key (a : Attempt) : Mode * nat * bool :=
  (att_mode a, att_index a, att_load a).

(** The pairs of one configuration, in the configured order. *)
Fixpoint ladder_from (m : Mode) (i : nat) (todo : list (nat * bool * string))
  : list (Mode * nat * bool) :=
  match todo with
  | [] => []
  | (_, loadMore, _) :: rest => (m, i, loadMore) :: ladder_from m (S i) rest
  end.

Definition ladder (m : Mode) : list (Mode * nat * bool) :=
  ladder_from m 0 attempts.

Definition two_depths (m : Mode) : list (Mode * nat * bool) :=
  [(m, 0, false); (m, 1, true)].

(** The configured order: configurations outer, load depths inner. *)
Definition schedule (b : Browser) : list (Mode * nat * bool) :=
  if windows b then concat (map ladder modes) else two_depths secure.

(** An attempt that hits is the last one made. *)
Definition hit_is_last (trace : list Attempt) : Prop :=
  ∀ i a, trace !! i = Some a → att_hit a = true → S i = length trace.

(** An expanded attempt comes after a shallow attempt of the same
    configuration that found no matching offer. *)
Definition expanded_after_shallow_miss (trace : list Attempt) : Prop :=
  ∀ i a, trace !! i = Some a → att_load a = true →
    ∃ j a', j < i ∧ trace !! j = Some a'
            ∧ att_mode a' = att_mode a
            ∧ att_load a' = false ∧ att_hit a' = false.

(** The call an attempt of the later revision stands for. *)
Definition launch (b : Browser) (req : AddCardRequest) (a : Attempt)
  : option CardOffer :=
  (if windows b then launchLoopPatient else launchLoop)
    (session b (att_mode a)) (att_index a)
    (req_Quality req) (req_Language req) (req_Edition req) (att_load a).

(** The call an attempt of app.go stands for. *)
Definition launch_app (s : Session) (req : AddCardRequest) (a : Attempt)
  : option CardOffer :=
  launchLoop s (att_index a)
    (req_Quality req) (req_Language req) (req_Edition req) (att_load a).

Definition hits_recorded (run : Attempt → option CardOffer)
  (trace : list Attempt) : Prop :=
  ∀ a, a ∈ trace → att_hit a = bool_decide (is_Some (run a)).

(** A Windows host on which every configuration connects and every visit
    shows one LP English offer. *)
Definition lp_only_windows : Browser :=
  {| windows := true;
     connection := λ _, None;
     session := λ _, steady_session
                       (offers_page [row "LP" "English" false "1.50€"])
                       (Ok "Pikachu") (Ok (Some base_set_info)) |}.

(** The same browser on another host. *)
Definition lp_only_unix : Browser :=
  {| windows := false;
     connection := connection lp_only_windows;
     session := session lp_only_windows |}.

Definition miss (m : Mode) (i : nat) (load : bool) : Attempt :=
  mkAttempt m i load false.

Definition all_missed : list Attempt :=
  [ miss secure 0 false; miss secure 1 false;
    miss secure 2 true; miss secure 3 true;
    miss permissive 0 false; miss permissive 1 false;
    miss permissive 2 true; miss permissive 3 true;
    miss minimal 0 false; miss minimal 1 false;
    miss minimal 2 true; miss minimal 3 true ].

Definition empty_store : DB := {| rows := []; last_id := 0 |}.

(** *** The store *)

(** [card_url] is UNIQUE and [id] is the primary key. *)
Definition unique_urls (db : DB) : Prop :=
  NoDup (map card_CardURL (rows db)).

Definition unique_ids (db : DB) : Prop :=
  NoDup (map card_ID (rows db)).

(** The row of [c] after [moveCard] to the partition [t]. *)
Definition moved (c : Card) (t timestamp : string) : Card :=
  with_LastUpdated (with_Type c t) timestamp.

Definition pikachu_url : string :=
  "https://www.cardmarket.com/en/Pokemon/Products/Singles/Base-Set/Pikachu".

Definition stored_pikachu : Card :=
  {| card_ID := 1; card_Name := "Pikachu"; card_Set := "Base Set";
     card_Rarity := "Common"; card_Price := "2,00 €";
     card_PriceNum := extractNumericPrice "2,00 €";
     card_ImageURL := ""; card_CardURL := pikachu_url;
     card_Type := "wishlist";
     card_AddedAt := "2024-01-01 10:00:00";
     card_LastUpdated := "2024-01-01 10:00:00";
     card_Quality := "NM"; card_Language := "English";
     card_Edition := false; card_TotalOffers := 1 |}.

Definition one_card_store : DB :=
  {| rows := [stored_pikachu]; last_id := 1 |}.

(** A scraper that always finds something: it must not be called. *)
Definition any_scrape (req : AddCardRequest) : outcome ScrapedCardInfo :=
  Ok emptyInfo.

(** *** Prices *)

(** Every byte of the text satisfies [p]. *)
Fixpoint all_chars (p : ascii → bool) (s : string) : bool :=
match s with
| EmptyString => true
| String c s' => p c && all_chars p s'
end.

(** A byte the price pattern can consume. *)
Definition numeric_char (c : ascii) : bool := is_digit c || is_sep c.

(** Every class of the pattern lies within [p]. *)
Fixpoint classes_within (p : ascii → bool) (r : re) : Prop :=
match r with
| Class q => ∀ c, q c = true → p c = true
| Cat a b => classes_within p a ∧ classes_within p b
| Opt a => classes_within p a
| Star a => classes_within p a
end.

(** The text the normaliser works on: the leftmost match of the pattern. *)
Definition token (priceText : string) : option string :=
find price_re priceText.

(** The price for a decimal value: the value itself within the range of
[float64], 0.0 beyond it (the conversion error). *)
Definition price_of (v : Q) : Q := default 0%Q (to_float64 v).

(** *** The price pattern, read as a scanner *)

(** Up to [n] leading digits, and the rest. *)
Fixpoint take_digits (n : nat) (s : string) : string * string :=
match n, s with
| S n', String c s' =>
    if is_digit c then
      let '(ds, rest) := take_digits n' s' in (String c ds, rest)
    else ("", s)
| _, _ => ("", s)
end.

(** Every leading group of a separator and three digits, and the rest. *)
Fixpoint groups (s : string) : string * string :=
match s with
| String c (String d1 (String d2 (String d3 r))) =>
    if is_sep c && is_digit d1 && is_digit d2 && is_digit d3 then
      let '(g, rest) := groups r in
      (String c (String d1 (String d2 (String d3 g))), rest)
    else ("", s)
| _ => ("", s)
end.

(** A leading separator with one or two digits, and the rest. *)
Definition decimals (s : string) : string * string :=
match s with
| String c (String d1 r) =>
    if is_sep c && is_digit d1 then
      match r with
      | String d2 r' =>
          if is_digit d2 then (String c (String d1 (String d2 "")), r')
          else (String c (String d1 ""), r)
      | EmptyString => (String c (String d1 ""), r)
      end
    else ("", s)
| _ => ("", s)
end.

(** The number that starts at the head of [s], which is a digit. *)
Definition number_at (s : string) : string :=
let '(ds, r) := take_digits 3 s in
let '(g, r1) := groups r in
let '(t, _) := decimals r1 in
ds +:+ g +:+ t.

(** The number that starts at the first digit of the text. *)
Fixpoint first_number (s : string) : option string :=
match s with
| EmptyString => None
| String c s' => if is_digit c then Some (number_at s) else first_number s'
end.

(** A continuation that cannot fail. *)
Definition total (k : string → option string) : Prop := ∀ s, is_Some (k s).

End Props.


(** * The rest of the scraper *)

(** ** app.go, [parseSetAndRarity] *)

Module Labels.
Import GoStrings.

(** "Set Name - Rarity": the first two of the parts between hyphens,
    trimmed; the sentinels when there is no hyphen. *)
Definition parseSetAndRarity (description : string) : string * string :=
  match Split description "-" with
  | set :: rarity :: _ => (TrimSpace set, TrimSpace rarity)
  | _ => ("Set inconnu", "Rareté inconnue")
  end.

End Labels.

(** ** An [article-row] node, as the node-based extractors read it *)

Record ArticleNode : Type := mkArticleNode {
  (** [TextContent(".product-attributes .badge")] from the node. *)
  badge : outcome string;
  (** [AttributeValue(".product-attributes .icon", "data-original-title")]. *)
  langTitle : outcome string;
  (** [Nodes(".product-attributes .st_SpecialIcon")]: how many. *)
  specialIcons : outcome nat;
  (** [TextContent(".price-container")]. *)
  priceContainer : outcome string
}.

(** ** helpers.go *)

Module Helpers.
Import GoStrings Price.

(** [waitForCloudflare]: [titles i] is the page title at the [i]-th poll.
    The error returned, and the number of polls made. *)
Fixpoint waitLoop (titles : nat -> outcome string) (i remaining : nat)
  : option string * nat :=
  match remaining with
  | O => (None, i)
  | S remaining' =>
      match titles i with
      | Err err => (Some err, S i)
      | Ok title =>
          if negb (ContainsStr title "Just a moment") then (None, S i)
          else waitLoop titles (S i) remaining'
      end
  end.

Definition waitForCloudflare (titles : nat -> outcome string)
  : option string * nat :=
  waitLoop titles 0 20.

(** The polling loop of [extractOffers]: [polls attempt] is what
    [chromedp.Nodes(".article-row")] yields at that attempt; a failed call
    leaves [articleNodes] as it was. *)
Fixpoint pollArticles (polls : nat -> outcome (list ArticleNode))
  (attempt remaining : nat) (articleNodes : list ArticleNode)
  : list ArticleNode :=
  match remaining with
  | O => articleNodes
  | S remaining' =>
      match polls attempt with
      | Ok nodes =>
          if (0 <? length nodes)%nat then nodes
          else pollArticles polls (S attempt) remaining' nodes
      | Err _ => pollArticles polls (S attempt) remaining' articleNodes
      end
  end.

(** The offer built for one node: a field that cannot be read keeps its
    zero value. *)
Definition nodeOffer (node : ArticleNode) : CardOffer :=
  {| Mint := match badge node with
             | Ok mint => TrimSpace mint
             | Err _ => ""
             end;
     Language := match langTitle node with
                 | Ok langTitle => TrimSpace langTitle
                 | Err _ => ""
                 end;
     Edition := match specialIcons node with
                | Ok n => (0 <? n)%nat
                | Err _ => false
                end;
     Price := match priceContainer node with
              | Ok priceText => TrimSpace priceText
              | Err _ => ""
              end;
     PriceNum := match priceContainer node with
                 | Ok priceText => extractNumericPrice (TrimSpace priceText)
                 | Err _ => 0
                 end;
     Rarity := ""; SetName := "" |}.

Definition extractOffers (polls : nat -> outcome (list ArticleNode))
  : outcome (list CardOffer) :=
  let articleNodes := pollArticles polls 0 3 [] in
  if (length articleNodes =? 0)%nat then
    Err "aucun article trouvé après 3 tentatives"
  else Ok (map nodeOffer articleNodes).

End Helpers.

(** ** The progressive extractor (the later helpers file) *)

(** What the page shows at each step of [extractAllOffers]. *)
Record ProgressivePage : Type := mkProgressivePage {
  (** [Nodes(".article-row")] on the current page. *)
  firstNodes : outcome (list ArticleNode);
  (** [Nodes(selector)] for a "load more" selector: how many. *)
  buttonNodes : string -> outcome nat;
  (** [Click(selector)]: its error. *)
  buttonClick : string -> option string;
  (** [Nodes(".article-row")] after the click. *)
  nodesAfterClick : outcome (list ArticleNode);
  (** The new session: the error of the navigation and of the first
      evaluation, and [Nodes(".article-row")] at its end. *)
  newSessionStart : option string;
  newSessionNodes : outcome (list ArticleNode)
}.

Module Progressive.
Import GoStrings Price Matcher.

Definition extractOfferFromNode (node : ArticleNode) : outcome CardOffer :=
  match badge node with
  | Err err => Err ("mint non trouvé: " +:+ err)
  | Ok mint =>
      match langTitle node with
      | Err err => Err ("langue non trouvée: " +:+ err)
      | Ok langue =>
          let edition :=
            match specialIcons node with
            | Ok n => (0 <? n)%nat
            | Err _ => false
            end in
          match priceContainer node with
          | Err err => Err ("prix non trouvé: " +:+ err)
          | Ok price =>
              Ok {| Mint := TrimSpace mint; Language := TrimSpace langue;
                    Edition := edition; Price := TrimSpace price;
                    PriceNum := extractNumericPrice (TrimSpace price);
                    Rarity := ""; SetName := "" |}
          end
      end
  end.

(** The extraction loop over the first [maxArticles] nodes: a node that
    fails is skipped. *)
Definition extractFirst (maxArticles : nat) (articleNodes : list ArticleNode)
  : list CardOffer :=
  omap (fun node => match extractOfferFromNode node with
                    | Ok offer => Some offer
                    | Err _ => None
                    end)
       (take maxArticles articleNodes).

Definition extractOffersFromCurrentPage (p : ProgressivePage)
  : outcome (list CardOffer) :=
  match firstNodes p with
  | Err err => Err ("erreur recherche articles: " +:+ err)
  | Ok articleNodes =>
      if (length articleNodes =? 0)%nat then
        Err "aucun article trouvé sur la page actuelle"
      else Ok (extractFirst 5 articleNodes)
  end.

Definition loadMoreSelectors : list string :=
  [ "#loadMoreButton";
    "//button[contains(text(), 'Montrer plus de résultats')]";
    "//button[contains(@class, 'btn-primary') and contains(text(), 'Montrer plus')]";
    ".btn.btn-primary.btn-sm";
    "//button[contains(text(), 'Afficher plus')]";
    "//button[contains(text(), 'Charger plus')]" ].

(** The selector loop: the first selector whose nodes are found and whose
    click succeeds ends it. *)
Fixpoint clickLoadMore (p : ProgressivePage) (selectors : list string)
  : bool :=
  match selectors with
  | [] => false
  | selector :: rest =>
      match buttonNodes p selector with
      | Ok n =>
          if (0 <? n)%nat then
            match buttonClick p selector with
            | None => true
            | Some _ => clickLoadMore p rest
            end
          else clickLoadMore p rest
      | Err _ => clickLoadMore p rest
      end
  end.

Definition scrollAndLoadMore (p : ProgressivePage)
  : outcome (list CardOffer) :=
  if negb (clickLoadMore p loadMoreSelectors) then
    Err "impossible de trouver ou cliquer sur le bouton 'Montrer plus'"
  else
    match nodesAfterClick p with
    | Err err => Err ("erreur recherche articles après clic: " +:+ err)
    | Ok articleNodes =>
        if (length articleNodes =? 0)%nat then
          Err "aucun article trouvé après le clic"
        else Ok (extractFirst 20 articleNodes)
    end.

Definition extractOffersWithNewSession (p : ProgressivePage)
  : outcome (list CardOffer) :=
  match newSessionStart p with
  | Some err => Err ("erreur nouvelle session: " +:+ err)
  | None =>
      match newSessionNodes p with
      | Err err =>
          Err ("erreur nouvelle session: erreur recherche articles finaux: "
               +:+ err)
      | Ok articleNodes => Ok (extractFirst 15 articleNodes)
      end
  end.

(** The result, and how many of the three steps were run. *)
Definition extractAllOffers (p : ProgressivePage)
  : outcome (list CardOffer) * nat :=
  match extractOffersFromCurrentPage p with
  | Ok (o :: offers) => (Ok (o :: offers), 1)
  | _ =>
      match scrollAndLoadMore p with
      | Ok (o :: moreOffers) => (Ok (o :: moreOffers), 2)
      | _ => (extractOffersWithNewSession p, 3)
      end
  end.

(** [findBestOfferWithFallback]: NM French standard, then NM French
    special edition, then any NM offer, then the first offer. *)
Fixpoint firstNM (offers : list CardOffer) : option CardOffer :=
  match offers with
  | [] => None
  | offer :: rest =>
      if String.eqb (Mint offer) "NM" then Some offer else firstNM rest
  end.

Definition findBestOfferWithFallback (offers : list CardOffer)
  : option CardOffer :=
  match findBestOffer offers "NM" "Français" false with
  | Some best => Some best
  | None =>
      match findBestOffer offers "NM" "Français" true with
      | Some best => Some best
      | None =>
          match firstNM offers with
          | Some offer => Some offer
          | None =>
              match offers with
              | first :: _ => Some first
              | [] => None
              end
          end
      end
  end.

End Progressive.

(** ** app.go and helpers.go: the other operations on the store *)

(** The JSON object [RescrapAllCards] answers, by its four keys. *)
Record RescrapStats : Type := mkRescrapStats {
  stat_total_cards : nat;
  stat_updated : nat;
  stat_errors : nat;
  stat_error_details : list string
}.

(** The JSON object [GetStats] answers, by its six keys. *)
Record Stats : Type := mkStats {
  collection_count : nat;
  wishlist_count : nat;
  collection_value : Q;
  wishlist_value : Q;
  total_cards : nat;
  total_value : Q
}.

Module Catalogue.
Import GoStrings Store.

(** [%d] of a non-negative [int]. *)
Definition fmt_int (n : nat) : string :=
  NilZero.string_of_uint (Nat.to_uint n).

(** [SELECT ... FROM cards WHERE id = ?]: the row, or [sql.ErrNoRows]. *)
Definition getCardByID (db : DB) (id : nat) : outcome Card :=
  match List.find (fun c => (card_ID c =? id)%nat) (rows db) with
  | Some card => Ok card
  | None => Err "sql: no rows in result set"
  end.

(** [DeleteCard]: [exec] is the error [db.Exec] reports for the
    statement [DELETE FROM cards WHERE id = ?], if any; a statement that
    fails changes nothing. The table is AUTOINCREMENT: the largest id
    handed out is kept. *)
Definition DeleteCard (exec : option string) (db : DB) (cardID : nat)
  : option string * DB :=
  match exec with
  | Some err => (Some err, db)
  | None =>
      (None,
       {| rows := List.filter (fun c => negb (card_ID c =? cardID)%nat)
                              (rows db);
          last_id := last_id db |})
  end.

(** [MoveCard] hands over to [moveCard]: [exec] is the error [db.Exec]
    reports for the statement [UPDATE cards SET type = ?, last_updated =
    CURRENT_TIMESTAMP WHERE id = ?], if any; a statement that fails
    changes nothing. *)
Definition MoveCard (exec : option string) (timestamp : string) (db : DB)
  (cardID : nat) (newType : string) : option string * DB :=
  match exec with
  | Some err => (Some err, db)
  | None =>
      (None,
       {| rows := map (fun c => if (card_ID c =? cardID)%nat
                                then with_LastUpdated (with_Type c newType)
                                                      timestamp
                                else c) (rows db);
          last_id := last_id db |})
  end.

(** [ORDER BY]: [c] is put in front of the first row that need not come
    before it. *)
Fixpoint insert_row (before : Card -> Card -> bool) (c : Card)
  (sorted : list Card) : list Card :=
  match sorted with
  | [] => [c]
  | x :: rest =>
      if before x c then x :: insert_row before c rest
      else c :: x :: rest
  end.

Fixpoint order_by (before : Card -> Card -> bool) (l : list Card)
  : list Card :=
  match l with
  | [] => []
  | c :: rest => insert_row before c (order_by before rest)
  end.

(** [WHERE type = ?]. *)
Definition of_type (db : DB) (cardType : string) : list Card :=
  List.filter (fun c => String.eqb (card_Type c) cardType) (rows db).

(** [x] was added later than [c]: the dates [AddCard] writes
    ([2006-01-02 15:04:05]) are stored and compared as texts. *)
Definition added_later (x c : Card) : bool :=
  negb (String.leb (card_AddedAt x) (card_AddedAt c)).

Section Reading.
(** What [rows.Scan] puts into a [string] for a DATETIME column holding
    the given text: the driver's rendering of the date. *)
Variable scanDate : string -> string.

(** The card [rows.Scan] fills from a row. *)
Definition scanned (c : Card) : Card :=
  {| card_ID := card_ID c; card_Name := card_Name c;
     card_Set := card_Set c; card_Rarity := card_Rarity c;
     card_Price := card_Price c; card_PriceNum := card_PriceNum c;
     card_ImageURL := card_ImageURL c; card_CardURL := card_CardURL c;
     card_Type := card_Type c;
     card_AddedAt := scanDate (card_AddedAt c);
     card_LastUpdated := scanDate (card_LastUpdated c);
     card_Quality := card_Quality c; card_Language := card_Language c;
     card_Edition := card_Edition c;
     card_TotalOffers := card_TotalOffers c |}.

(** [SELECT ... WHERE type = ? ORDER BY added_at DESC], each row scanned
    into a card; [query] is the error [db.Query] reports, if any. *)
Definition GetCards (query : option string) (db : DB) (cardType : string)
  : outcome (list Card) :=
  match query with
  | Some err => Err err
  | None => Ok (map scanned (order_by added_later (of_type db cardType)))
  end.
End Reading.

Section Statistics.
(** SQLite's [SUM] over a REAL column, and the float64 addition. *)
Variable sum_real : list Q -> Q.
Variable float_add : Q -> Q -> Q.

(** [SELECT COUNT( * ), COALESCE(SUM(price_num), 0) FROM cards
    WHERE type = ?]. *)
Definition count_and_value (db : DB) (cardType : string) : nat * Q :=
  let cards := of_type db cardType in
  (length cards,
   match cards with
   | [] => 0%Q
   | _ => sum_real (map card_PriceNum cards)
   end).

Definition GetStats (db : DB) : outcome Stats :=
  let '(collectionCount, collectionValue) :=
    count_and_value db "collection" in
  let '(wishlistCount, wishlistValue) := count_and_value db "wishlist" in
  Ok {| collection_count := collectionCount;
        wishlist_count := wishlistCount;
        collection_value := collectionValue;
        wishlist_value := wishlistValue;
        total_cards := collectionCount + wishlistCount;
        total_value := float_add collectionValue wishlistValue |}.
End Statistics.

(** The row [c] with the scraped columns and the update time set. *)
Definition with_Scraped (c : Card) (cardInfo : ScrapedCardInfo)
  (lastUpdated : string) : Card :=
  {| card_ID := card_ID c;
     card_Name := info_Name cardInfo;
     card_Set := info_Set cardInfo;
     card_Rarity := info_Rarity cardInfo;
     card_Price := info_Price cardInfo;
     card_PriceNum := info_PriceNum cardInfo;
     card_ImageURL := info_ImageURL cardInfo;
     card_CardURL := card_CardURL c;
     card_Type := card_Type c;
     card_AddedAt := card_AddedAt c;
     card_LastUpdated := lastUpdated;
     card_Quality := card_Quality c;
     card_Language := card_Language c;
     card_Edition := card_Edition c;
     card_TotalOffers := card_TotalOffers c |}.

Section Refresh.
(** [a.scrapeCardInfo(url, req)]; [time.Now()] formatted; SQL's
    [CURRENT_TIMESTAMP] when the row of an id is updated. *)
Variable scrapeCardInfo : string -> AddCardRequest -> outcome ScrapedCardInfo.
Variable now : string.
Variable timestamp : nat -> string.

(** [UPDATE cards SET name = ?, set_name = ?, rarity = ?, price = ?,
    price_num = ?, image_url = ?, last_updated = CURRENT_TIMESTAMP
    WHERE id = ?]. *)
Definition updateScraped (db : DB) (id : nat) (cardInfo : ScrapedCardInfo)
  : DB :=
  {| rows := map (fun c => if (card_ID c =? id)%nat
                           then with_Scraped c cardInfo (timestamp id)
                           else c) (rows db);
     last_id := last_id db |}.

(** The request [RescrapAllCards] builds for a row. *)
Definition rescrapRequest (c : Card) : AddCardRequest :=
  {| req_URL := card_CardURL c; req_Type := card_Type c;
     req_Quality := card_Quality c; req_Language := card_Language c;
     req_Edition := card_Edition c |}.

(** [SELECT id, card_url, type, quality, language, edition FROM cards
    ORDER BY id], collected before the first update. *)
Definition collectCards (db : DB) : list (nat * AddCardRequest) :=
  map (fun c => (card_ID c, rescrapRequest c))
      (order_by (fun x c => (card_ID x <? card_ID c)%nat) (rows db)).

Fixpoint rescrapLoop (cards : list (nat * AddCardRequest)) (db : DB)
  (stats : RescrapStats) : RescrapStats * DB :=
  match cards with
  | [] => (stats, db)
  | (id, req) :: rest =>
      match scrapeCardInfo (req_URL req) req with
      | Err err =>
          let errorMsg := "Carte ID " +:+ fmt_int id +:+ ": " +:+ err in
          rescrapLoop rest db
            {| stat_total_cards := stat_total_cards stats;
               stat_updated := stat_updated stats;
               stat_errors := stat_errors stats + 1;
               stat_error_details :=
                 (stat_error_details stats ++ [errorMsg])%list |}
      | Ok cardInfo =>
          rescrapLoop rest (updateScraped db id cardInfo)
            {| stat_total_cards := stat_total_cards stats;
               stat_updated := stat_updated stats + 1;
               stat_errors := stat_errors stats;
               stat_error_details := stat_error_details stats |}
      end
  end.

Definition RescrapAllCards (db : DB) : outcome RescrapStats * DB :=
  let cards := collectCards db in
  let '(stats, db') :=
    rescrapLoop cards db
      {| stat_total_cards := length cards; stat_updated := 0;
         stat_errors := 0; stat_error_details := [] |} in
  (Ok stats, db').

(** helpers.go: the criteria [UpdateCardPriceFixed] scrapes with. *)
Definition defaultReq : AddCardRequest :=
  {| req_URL := ""; req_Type := ""; req_Quality := "NM";
     req_Language := "Français"; req_Edition := false |}.

Definition with_Price (c : Card) (price : string) (priceNum : Q)
  (lastUpdated : string) : Card :=
  {| card_ID := card_ID c; card_Name := card_Name c;
     card_Set := card_Set c; card_Rarity := card_Rarity c;
     card_Price := price; card_PriceNum := priceNum;
     card_ImageURL := card_ImageURL c; card_CardURL := card_CardURL c;
     card_Type := card_Type c; card_AddedAt := card_AddedAt c;
     card_LastUpdated := lastUpdated;
     card_Quality := card_Quality c; card_Language := card_Language c;
     card_Edition := card_Edition c;
     card_TotalOffers := card_TotalOffers c |}.

(** The result, the store afterwards, and the scrapes made. *)
Definition UpdateCardPriceFixed (db : DB) (cardID : nat)
  : outcome Card * DB * list (string * AddCardRequest) :=
  match getCardByID db cardID with
  | Err err => (Err err, db, [])
  | Ok card =>
      match scrapeCardInfo (card_CardURL card) defaultReq with
      | Err err => (Err err, db, [(card_CardURL card, defaultReq)])
      | Ok cardInfo =>
          (Ok (with_Price card (info_Price cardInfo)
                 (info_PriceNum cardInfo) now),
           {| rows :=
                map (fun c =>
                       if (card_ID c =? cardID)%nat then
                         with_Price c (info_Price cardInfo)
                           (info_PriceNum cardInfo) (timestamp cardID)
                       else c) (rows db);
              last_id := last_id db |},
           [(card_CardURL card, defaultReq)])
      end
  end.
End Refresh.

End Catalogue.

(** ** The WebView revision: offers inferred from visible prices *)

(** What the WebView shows: the navigation's error, the page title, the
    [src] of the card image, whether a table selector finds an element,
    and what [parseTableRows], [extractPricesDirectly] and
    [extractAllVisiblePrices] make of the page for the criteria they are
    handed. The numeric price of such an offer is the [float64] itself. *)
Record WebView : Type := mkWebView {
  wv_navigation : option string;
  wv_title : outcome string;
  wv_image : outcome string;
  wv_tableExists : string -> outcome bool;
  wv_parseTableRows : string -> string -> string -> bool -> list CardOffer;
  wv_extractPricesDirectly : string -> string -> bool -> list CardOffer;
  wv_extractAllVisiblePrices : string -> string -> bool -> list CardOffer
}.

Module WebViewScraper.
Import GoStrings Engine.

(** The keywords, as the map literals list them. Go ranges over a map in
    an order of its own choosing: the functions below take that order. *)
Definition qualityMap : list (string * string) :=
  [ ("near mint", "NM"); ("nm", "NM");
    ("lightly played", "LP"); ("lp", "LP");
    ("moderately played", "MP"); ("mp", "MP");
    ("heavily played", "HP"); ("hp", "HP");
    ("poor", "PO"); ("po", "PO"); ("damaged", "PO") ].

Definition languageMap : list (string * string) :=
  [ ("français", "Français"); ("french", "Français");
    ("english", "English"); ("anglais", "English");
    ("german", "Deutsch"); ("allemand", "Deutsch"); ("deutsch", "Deutsch");
    ("italian", "Italiano"); ("italien", "Italiano");
    ("italiano", "Italiano");
    ("spanish", "Español"); ("espagnol", "Español");
    ("español", "Español");
    ("japanese", "Japanese"); ("japonais", "Japanese") ].

Definition firstEditionKeywords : list string :=
  [ "1st edition"; "first edition"; "première édition"; "1ere edition";
    "1ère édition"; "1st ed"; "first ed" ].

(** [for keyword, value := range m { if strings.Contains(context, keyword)
    { return value } }; return ""], the map ranged over in [order]. *)
Fixpoint firstKeyword (order : list (string * string)) (context : string)
  : string :=
  match order with
  | [] => ""
  | (keyword, value) :: rest =>
      if ContainsStr context keyword then value
      else firstKeyword rest context
  end.

Section Keywords.
(** [strings.ToLower]. *)
Variable ToLower : string -> string.

Definition extractQualityFromContext (order : list (string * string))
  (context : string) : string :=
  firstKeyword order (ToLower context).

Definition extractLanguageFromContext (order : list (string * string))
  (context : string) : string :=
  firstKeyword order (ToLower context).

Definition extractEditionFromContext (context : string) : bool :=
  existsb (fun keyword => ContainsStr (ToLower context) keyword)
          firstEditionKeywords.
End Keywords.

Definition tableSelectors : list string :=
  [ "table.table"; ".sellOffersTable"; "table[class*='offers']";
    "table[class*='sell']"; "table[class*='table']"; ".table-striped";
    ".table-hover"; "tbody"; "table"; ".offers-table"; "#offers-table";
    ".table.table-striped"; ".table.table-hover"; "#sellerOffersTable";
    ".offers-container table"; "[data-table='offers']" ].

(** The loop over the table selectors: it ends as soon as [offers] is
    not empty. *)
Fixpoint tableLoop (w : WebView) (quality language : string)
  (edition : bool) (selectors : list string) (offers : list CardOffer)
  : list CardOffer :=
  match selectors with
  | [] => offers
  | tableSelector :: rest =>
      match wv_tableExists w tableSelector with
      | Ok true =>
          let offers :=
            (offers ++ wv_parseTableRows w tableSelector quality language
                         edition)%list in
          if (0 <? length offers)%nat then offers
          else tableLoop w quality language edition rest offers
      | _ => tableLoop w quality language edition rest offers
      end
  end.

Definition extractOffersFromWebView (w : WebView) (quality language : string)
  (edition : bool) : list CardOffer :=
  let offers := tableLoop w quality language edition tableSelectors [] in
  let offers :=
    if (length offers =? 0)%nat then
      wv_extractPricesDirectly w quality language edition
    else offers in
  let offers :=
    if (length offers =? 0)%nat then
      wv_extractAllVisiblePrices w quality language edition
    else offers in
  offers.

(** [pageTitle[:strings.Index(pageTitle, sep)]], [None] for index -1. *)
Fixpoint beforeFirst (sep s : string) : option string :=
  if String.prefix sep s then Some ""
  else match s with
       | EmptyString => None
       | String c s' => option_map (String c) (beforeFirst sep s')
       end.

(** The loop [if bestOffer == nil || offer.PriceNum < bestOffer.PriceNum]. *)
Fixpoint cheapest (bestOffer : option CardOffer) (offers : list CardOffer)
  : option CardOffer :=
  match offers with
  | [] => bestOffer
  | offer :: rest =>
      cheapest
        (match bestOffer with
         | None => Some offer
         | Some best =>
             if negb (Qle_bool (PriceNum best) (PriceNum offer))
             then Some offer else Some best
         end) rest
  end.

Definition findBestOfferWebView (w : WebView) (quality language : string)
  (edition : bool) : option ScrapedCardInfo :=
  let name :=
    match wv_title w with
    | Ok pageTitle =>
        if negb (String.eqb pageTitle "") then
          match beforeFirst " - " pageTitle with
          | Some front => TrimSpace front
          | None => TrimSpace pageTitle
          end
        else ""
    | Err _ => ""
    end in
  let imageURL :=
    match wv_image w with
    | Ok cardImageURL =>
        if negb (String.eqb cardImageURL "") then
          if negb (String.prefix "http" cardImageURL)
          then "https://www.cardmarket.com" +:+ cardImageURL
          else cardImageURL
        else ""
    | Err _ => ""
    end in
  let offers := extractOffersFromWebView w quality language edition in
  if (length offers =? 0)%nat then None
  else
    match cheapest None offers with
    | Some bestOffer =>
        Some {| info_Name := name; info_Set := "Extension CardMarket";
                info_Rarity := "Rareté CardMarket";
                info_Price := Price bestOffer;
                info_PriceNum := PriceNum bestOffer;
                info_ImageURL := imageURL; info_Offers := offers |}
    | None => None
    end.

Definition scrapeWithWailsWebView (w : WebView) (req : AddCardRequest)
  : outcome ScrapedCardInfo :=
  match wv_navigation w with
  | Some err => Err ("erreur navigation WebView: " +:+ err)
  | None =>
      match findBestOfferWebView w (req_Quality req) (req_Language req)
              (req_Edition req) with
      | Some result => Ok result
      | None => Err (no_match_error req)
      end
  end.

End WebViewScraper.

(** ** Vocabulary of the further properties *)

Module MoreProps.
Import GoStrings Price Matcher Extractor Engine Store Catalogue Props.

(** *** The acquisition ladder *)

(** The connection test of a configuration passes. *)
Definition connects (b : Browser) (m : Mode) : bool :=
  match connection b m with
  | None => true
  | Some _ => false
  end.

(** The pairs a request goes through, in order, as long as no attempt
    hits: the pairs of every configuration whose connection test passes. *)
Definition planned (b : Browser) : list (Mode * nat * bool) :=
  if windows b then
    concat (map (λ m, if connects b m then ladder m else []) modes)
  else if connects b secure then two_depths secure else [].

(** No attempt of the trace hit. *)
Definition all_miss (trace : list Attempt) : Prop :=
  Forall (λ a, att_hit a = false) trace.

(** *** Enrichment *)

(** A no-break space, U+00A0, in UTF-8. *)
Definition nbsp : string :=
  String (ascii_of_nat 194) (String (ascii_of_nat 160) EmptyString).

(** The session of [labelled_session] with another first heading. *)
Definition headed_session (h1 : outcome string) : Session :=
  steady_session (offers_page [row "NM" "English" false "2.00€"])
                 h1 (Ok (Some base_set_info)).

(** *** Extraction *)

(** An offer without its rarity and set labels. *)
Definition unlabelled (o : CardOffer) : CardOffer :=
  {| Mint := Mint o; Language := Language o; Edition := Edition o;
     Price := Price o; PriceNum := PriceNum o; Rarity := ""; SetName := "" |}.

(** The offer [o] was read from an [article-row] of the page, with the
    rows' extractor [extract]. *)
Definition on_page (extract : Page → outcome (list CardOffer)) (p : Page)
  (o : CardOffer) : Prop :=
  ∃ offers, extract p = Ok offers ∧ o ∈ offers.

(** The text [AddCard] answers when no offer has the wanted criteria. *)
Definition not_found_text (req : AddCardRequest) : string :=
  "carte non trouvée avec les critères spécifiés (qualité: "
  +:+ req_Quality req +:+ ", langue: " +:+ req_Language req
  +:+ ", édition: " +:+ fmt_bool (req_Edition req)
  +:+ "). Aucune carte similaire disponible".

(** A title read that shows the Cloudflare interstitial. *)
Definition challenge (r : outcome string) : Prop :=
  ∃ title, r = Ok title ∧ ContainsStr title "Just a moment" = true.

(** A search for article rows that failed or found none. *)
Definition nothing_found (r : outcome (list ArticleNode)) : Prop :=
  r = Ok [] ∨ ∃ err, r = Err err.

(** The three searches of [extractOffers] when only the second one finds
    a row, whose language and price cannot be read. *)
Definition unreadable_row : ArticleNode :=
  mkArticleNode (Ok " NM ") (Err "no icon") (Ok 0%nat) (Err "no price").

Definition second_search_only (attempt : nat)
  : outcome (list ArticleNode) :=
  match attempt with
  | 1%nat => Ok [unreadable_row]
  | _ => Err "timeout"
  end.

(** A row of which the badge, the language and the price can be read. *)
Definition readable (node : ArticleNode) : Prop :=
  ∃ mint langue price,
    badge node = Ok mint ∧ langTitle node = Ok langue
    ∧ priceContainer node = Ok price.

Definition article (mint langue : string) (icons : nat) (price : string)
  : ArticleNode :=
  mkArticleNode (Ok mint) (Ok langue) (Ok icons) (Ok price).

(** A page that shows the given rows at once; its "load more" button
    cannot be found and a new session shows [later]. *)
Definition listing (now later : list ArticleNode) : ProgressivePage :=
  {| firstNodes := Ok now;
     buttonNodes := fun _ => Ok 0%nat;
     buttonClick := fun _ => None;
     nodesAfterClick := Ok later;
     newSessionStart := None;
     newSessionNodes := Ok later |}.

Definition five_rows : list ArticleNode :=
  [ unreadable_row; article "NM" "Anglais" 0 "3,50 €"; unreadable_row;
    unreadable_row; unreadable_row ].

Definition sixth_row : ArticleNode := article "NM" "Français" 0 "1,00 €".

Definition lp_english : AddCardRequest :=
  {| req_URL := pikachu_url; req_Type := "collection"; req_Quality := "LP";
     req_Language := "English"; req_Edition := false |}.

(** *** The store *)

(** The store as SQLite keeps it: [id] is the primary key, [card_url] is
    UNIQUE, and no id exceeds the largest one handed out. *)
Definition store_ok (db : DB) : Prop :=
  unique_ids db ∧ unique_urls db
  ∧ ∀ c, c ∈ rows db → (card_ID c ≤ last_id db)%nat.

(** One of the two lists the application shows. *)
Definition listed (c : Card) : bool :=
  String.eqb (card_Type c) "collection"
  || String.eqb (card_Type c) "wishlist".

(** Every row is followed by a row that [R] relates it to. *)
Fixpoint chain (R : Card → Card → Prop) (l : list Card) : Prop :=
  match l with
  | a :: rest =>
      match rest with
      | b :: _ => R a b ∧ chain R rest
      | [] => True
      end
  | [] => True
  end.

(** A date as [AddCard] writes it: [2006-01-02 15:04:05]. *)
Definition timestamp_text (s : string) : bool :=
  match list_ascii_of_string s with
  | [y1; y2; y3; y4; h1; m1; m2; h2; d1; d2; sp; hh1; hh2; c1; mi1; mi2;
     c2; s1; s2] =>
      forallb Strconv.is_digit
        [y1; y2; y3; y4; m1; m2; d1; d2; hh1; hh2; mi1; mi2; s1; s2]
      && Ascii.eqb h1 "-" && Ascii.eqb h2 "-" && Ascii.eqb sp " "
      && Ascii.eqb c1 ":" && Ascii.eqb c2 ":"
  | _ => false
  end.

(** [b] was not added after [a]. *)
Definition not_after (a b : Card) : Prop :=
  String.leb (card_AddedAt b) (card_AddedAt a) = true.

(** What [RescrapAllCards] and [UpdateCardPriceFixed] never touch. *)
Definition same_identity (c c' : Card) : Prop :=
  card_ID c' = card_ID c ∧ card_CardURL c' = card_CardURL c
  ∧ card_Type c' = card_Type c ∧ card_AddedAt c' = card_AddedAt c
  ∧ card_Quality c' = card_Quality c ∧ card_Language c' = card_Language c
  ∧ card_Edition c' = card_Edition c
  ∧ card_TotalOffers c' = card_TotalOffers c.

(** What one entry of the list [RescrapAllCards] collected does to the
    row [c]. *)
Definition refresh_row
  (scrape : string → AddCardRequest → outcome ScrapedCardInfo)
  (timestamp : nat → string) (c : Card) (entry : nat * AddCardRequest)
  : Card :=
  if (card_ID c =? entry.1)%nat then
    match scrape (req_URL entry.2) entry.2 with
    | Ok cardInfo => with_Scraped c cardInfo (timestamp entry.1)
    | Err _ => c
    end
  else c.


(** A second stored card, in the collection, asked for in German. *)
Definition stored_glurak : Card :=
  {| card_ID := 2; card_Name := "Glurak"; card_Set := "Base Set";
     card_Rarity := "Holo Rare"; card_Price := "250,00 €";
     card_PriceNum := extractNumericPrice "250,00 €";
     card_ImageURL := "";
     card_CardURL :=
       "https://www.cardmarket.com/de/Pokemon/Products/Singles/Base-Set/Glurak";
     card_Type := "collection";
     card_AddedAt := "2024-02-01 10:00:00";
     card_LastUpdated := "2024-02-01 10:00:00";
     card_Quality := "LP"; card_Language := "Deutsch";
     card_Edition := true; card_TotalOffers := 1 |}.

Definition two_card_store : DB :=
  {| rows := [stored_pikachu; stored_glurak]; last_id := 2 |}.

(** A scraper that finds the Pikachu page only. *)
Definition pikachu_only (url : string) (req : AddCardRequest)
  : outcome ScrapedCardInfo :=
  if String.eqb url pikachu_url then
    Ok {| info_Name := "Pikachu"; info_Set := "Base Set";
          info_Rarity := "Common"; info_Price := "3,00 €";
          info_PriceNum := extractNumericPrice "3,00 €";
          info_ImageURL := ""; info_Offers := [] |}
  else Err "aucune carte correspondant aux critères".

End MoreProps.
(** * Properties *)

Local Open Scope list_scope.

(** ** The criteria matcher *)

Section MatcherFacts.
Import Matcher Props.

Lemma matches_spec row quality langue edition :
  matches row quality langue edition = true ↔
  triple_eq row quality langue edition.
Proof.
  unfold matches, triple_eq.
  rewrite !andb_true_iff, !String.eqb_eq, Bool.eqb_true_iff. tauto.
Qed.

Lemma matches_false row quality langue edition :
  matches row quality langue edition = false ↔
  ¬ triple_eq row quality langue edition.
Proof.
  rewrite <- matches_spec. destruct (matches _ _ _ _); split; congruence.
Qed.

Lemma findBestOffer_findTheCard offers quality language edition :
  findBestOffer offers quality language edition =
  findTheCard offers quality language edition.
Proof. induction offers as [|o l IH]; simpl; [done|]. by rewrite IH. Qed.

(** The loop returns the head of the matching offers. *)
Lemma findTheCard_filter données quality langue edition :
  findTheCard données quality langue edition =
  head (filter (λ o, matches o quality langue edition = true) données).
Proof.
  induction données as [|row rest IH]; simpl; [done|].
  rewrite filter_cons. destruct (matches row _ _ _) eqn:E.
  - by rewrite decide_True.
  - by rewrite decide_False.
Qed.

Lemma findTheCard_Some données quality langue edition o :
  findTheCard données quality langue edition = Some o →
  o ∈ données ∧ triple_eq o quality langue edition.
Proof.
  induction données as [|row rest IH]; simpl; [done|].
  destruct (matches row _ _ _) eqn:E.
  - intros [= <-]. split; [left|]. by apply matches_spec.
  - intros H. destruct (IH H). split; [by right|done].
Qed.

Lemma findTheCard_None données quality langue edition :
  findTheCard données quality langue edition = None ↔
  ∀ o, o ∈ données → ¬ triple_eq o quality langue edition.
Proof.
  induction données as [|row rest IH]; simpl.
  - split; [|done]. intros _ o H. by apply elem_of_nil in H.
  - destruct (matches row _ _ _) eqn:E.
    + split; [done|]. intros H. exfalso.
      apply (H row); [left|]. by apply matches_spec.
    + rewrite IH. split.
      * intros H o [->|Ho]%elem_of_cons; [by apply matches_false|auto].
      * intros H o Ho. apply H. by right.
Qed.

Lemma findTheCard_first pre o post quality langue edition :
  Forall (λ o', matches o' quality langue edition = false) pre →
  matches o quality langue edition = true →
  findTheCard (pre ++ o :: post) quality langue edition = Some o.
Proof.
  induction 1 as [|x pre Hx _ IH]; simpl; intros Ho.
  - by rewrite Ho.
  - rewrite Hx. auto.
Qed.

End MatcherFacts.

(** C2. [findTheCard] (and [findBestOffer], the same loop) returns an offer
    only if the offer is in the list and its (quality, language, edition)
    triple equals the criteria; it returns nil exactly when no offer of the
    list has an equal triple; the result is a function of the list and the
    criteria; and for the criteria NM, English, not first edition against
    the offers [NM English 2.00€] and [NM English first-edition 5.00€] it
    returns the 2.00€ offer. *)
Theorem findTheCard_exact_triple :
  ∀ (données : list CardOffer) (quality langue : string) (edition : bool),
    (∀ o, Matcher.findTheCard données quality langue edition = Some o →
          o ∈ données ∧ Props.triple_eq o quality langue edition)
    ∧ (Matcher.findTheCard données quality langue edition = None ↔
       ∀ o, o ∈ données → ¬ Props.triple_eq o quality langue edition)
    ∧ Matcher.findBestOffer données quality langue edition =
      Matcher.findTheCard données quality langue edition
    ∧ (∀ données' quality' langue' edition',
          données' = données → quality' = quality → langue' = langue →
          edition' = edition →
          Matcher.findTheCard données' quality' langue' edition' =
          Matcher.findTheCard données quality langue edition)
    ∧ Matcher.findTheCard
        [Props.offer "NM" "English" false "2.00€";
         Props.offer "NM" "English" true "5.00€"] "NM" "English" false
      = Some (Props.offer "NM" "English" false "2.00€")
    ∧ Matcher.findBestOffer
        [Props.offer "NM" "English" false "2.00€";
         Props.offer "NM" "English" true "5.00€"] "NM" "English" false
      = Some (Props.offer "NM" "English" false "2.00€").
Proof.
  intros données quality langue edition.
  split; [|split; [|split; [|split; [|split]]]].
  - intros o H. by apply findTheCard_Some.
  - apply findTheCard_None.
  - apply findBestOffer_findTheCard.
  - by intros ???? -> -> -> ->.
  - reflexivity.
  - reflexivity.
Qed.

(** C9. When several offers carry the requested triple, [findTheCard] (and
    [findBestOffer]) returns the one with the smallest index: the offer at
    index [i] is returned as soon as it matches and no offer before it
    does, whatever the prices. *)
Theorem findTheCard_smallest_index :
  ∀ (données : list CardOffer) (quality langue : string) (edition : bool)
    (i : nat) (o : CardOffer),
    données !! i = Some o →
    Props.triple_eq o quality langue edition →
    (∀ j o', j < i → données !! j = Some o' →
             ¬ Props.triple_eq o' quality langue edition) →
    Matcher.findTheCard données quality langue edition = Some o
    ∧ Matcher.findBestOffer données quality langue edition = Some o.
Proof.
  intros données quality langue edition i o Hi Ho Hbefore.
  assert (Matcher.findTheCard données quality langue edition = Some o) as H;
    [|split; [done|by rewrite <- H; apply findBestOffer_findTheCard]].
  rewrite <- (take_drop_middle _ _ _ Hi).
  apply findTheCard_first; [|by apply matches_spec].
  apply Forall_lookup. intros j o' Hj. apply matches_false.
  apply lookup_take_Some in Hj as [Hj Hlt]. eauto.
Qed.

(** The dearer of two matching offers wins when it comes first. *)
Lemma findTheCard_smallest_index_witness :
  Matcher.findTheCard
    [Props.offer "NM" "English" false "5.00€";
     Props.offer "NM" "English" false "2.00€"] "NM" "English" false
  = Some (Props.offer "NM" "English" false "5.00€")
  ∧ Matcher.findBestOffer
    [Props.offer "NM" "English" false "5.00€";
     Props.offer "NM" "English" false "2.00€"] "NM" "English" false
  = Some (Props.offer "NM" "English" false "5.00€").
Proof.
  apply (findTheCard_smallest_index _ "NM" "English" false 0).
  - reflexivity.
  - repeat split.
  - intros j o' Hj. lia.
Defined.

(** ** The price normaliser on text without a number *)

Section NoDigit.
Import GoStrings Regexp Strconv Price Props.

Lemma match_here_no_digit c s :
  is_digit c = false → match_here price_re (String c s) = None.
Proof. intros H. unfold match_here. simpl. by rewrite H. Qed.

Lemma find_no_digit s : has_digit s = false → find price_re s = None.
Proof.
  induction s as [|c s IH]; simpl has_digit; intros H.
  - reflexivity.
  - apply orb_false_iff in H as [Hc Hs].
    unfold find; fold find. rewrite (match_here_no_digit _ _ Hc). auto.
Qed.

Lemma extractNumericPrice_no_digit s :
  has_digit s = false → extractNumericPrice s = 0%Q.
Proof.
  intros H. unfold extractNumericPrice, FindStringSubmatch.
  by rewrite (find_no_digit _ H).
Qed.

Lemma has_digit_existsb s :
  has_digit s = existsb is_digit (list_ascii_of_string s).
Proof. induction s as [|c s IH]; simpl; [done|]. by rewrite IH. Qed.

Lemma no_digit_Forall s :
  has_digit s = false ↔
  Forall (λ c, is_digit c = false) (list_ascii_of_string s).
Proof.
  induction s as [|c s IH]; simpl.
  - split; [constructor|done].
  - rewrite orb_false_iff, IH, Forall_cons. tauto.
Qed.

Lemma trim_left_Forall (P : ascii → Prop) fuel l :
  Forall P l → Forall P (trim_left fuel l).
Proof.
  revert l. induction fuel as [|fuel IH]; simpl; intros l H; [done|].
  destruct (lead_space l); [done|]. by apply IH, Forall_drop.
Qed.

Lemma trim_right_Forall (P : ascii → Prop) fuel l :
  Forall P l → Forall P (trim_right fuel l).
Proof.
  revert l. induction fuel as [|fuel IH]; simpl; intros l H; [done|].
  destruct (trail_space l); [done|]. by apply IH, Forall_take.
Qed.

(** Trimming brings no digit in. *)
Lemma TrimSpace_no_digit s :
  has_digit s = false → has_digit (TrimSpace s) = false.
Proof.
  rewrite !no_digit_Forall. unfold TrimSpace. intros H.
  rewrite list_ascii_of_string_of_list_ascii.
  by apply trim_right_Forall, trim_left_Forall.
Qed.

End NoDigit.

(** ** The row extractor *)

Section ExtractorFacts.
Import GoStrings Price Matcher Extractor Props.

Lemma getInfos_rows p n :
  waitBody p = None → articleRowCount p = Ok n →
  getInfos p = Ok (omap (λ i, rowOffer (articleRow p i)) (seq 0 n)).
Proof.
  intros Hw Hn. unfold getInfos. rewrite Hw, Hn.
  destruct n; [done|]. reflexivity.
Qed.

Lemma getInfos_elem p res o :
  getInfos p = Ok res → o ∈ res →
  ∃ n i, articleRowCount p = Ok n ∧ i < n
         ∧ rowOffer (articleRow p i) = Some o.
Proof.
  unfold getInfos. destruct (waitBody p); [done|].
  destruct (articleRowCount p) as [n|]; [|done].
  destruct (n =? 0)%nat eqn:E.
  - intros [= <-] H. by apply elem_of_nil in H.
  - intros [= <-] (i & Hi & Ho)%list_elem_of_omap.
    apply elem_of_seq in Hi. exists n, i. split; [done|]. split; [lia|done].
Qed.

Lemma getInfosPatient_rows p n :
  waitBody p = None → articleRowCount p = Ok n →
  getInfosPatient p
  = Ok (omap (λ i, rowOfferPatient (articleRow p i)) (seq 0 n)).
Proof.
  intros Hw Hn. unfold getInfosPatient. rewrite Hw, Hn.
  destruct n; [done|]. reflexivity.
Qed.

End ExtractorFacts.

(** C7. A row whose price text holds no digit (so no numeric substring):
    the normaliser returns exactly 0 on the text, and [getInfos] still
    appends the row's offer, with the trimmed price text and the price 0;
    the offer list handed to the matcher contains it, so a request for its
    triple is answered from the list. [getInfosPatient] keeps the row's
    offer in the same way. *)
Theorem zero_price_offer_kept :
  ∀ (p : Page) (n i : nat) (cardData : gmap string Any) (priceText : string),
    waitBody p = None →
    articleRowCount p = Ok n →
    i < n →
    articleRow p i = EvalObject cardData →
    cardData !! "success" = Some (ABool true) →
    cardData !! "price" = Some (AString priceText) →
    Props.has_digit priceText = false →
    Price.extractNumericPrice priceText = 0%Q
    ∧ ∃ res o,
        Extractor.getInfos p = Ok res
        ∧ o ∈ res
        ∧ Extractor.rowOffer (articleRow p i) = Some o
        ∧ Price o = GoStrings.TrimSpace priceText
        ∧ PriceNum o = 0%Q
        ∧ is_Some (Matcher.findTheCard res (Mint o) (Language o) (Edition o))
        ∧ ∃ res' o',
            Extractor.getInfosPatient p = Ok res'
            ∧ o' ∈ res'
            ∧ Extractor.rowOfferPatient (articleRow p i) = Some o'
            ∧ Price o' = GoStrings.TrimSpace priceText
            ∧ PriceNum o' = 0%Q.
Proof.
  intros p n i cardData priceText Hw Hn Hi Hrow Hok Hprice Hnum.
  split; [by apply extractNumericPrice_no_digit|].
  assert (∃ res' o',
            Extractor.getInfosPatient p = Ok res'
            ∧ o' ∈ res'
            ∧ Extractor.rowOfferPatient (articleRow p i) = Some o'
            ∧ Price o' = GoStrings.TrimSpace priceText
            ∧ PriceNum o' = 0%Q) as Hpatient.
  { eexists _, _. split; [by apply getInfosPatient_rows|].
    assert (Extractor.rowOfferPatient (articleRow p i)
            = Some {| Mint := GoStrings.TrimSpace
                                (default "" (as_string (cardData !! "mint")));
                      Language := GoStrings.TrimSpace
                                (default "" (as_string (cardData !! "langue")));
                      Edition := default false
                                   (as_bool (cardData !! "edition"));
                      Price := GoStrings.TrimSpace priceText;
                      PriceNum := 0%Q; Rarity := ""; SetName := "" |}) as Ho.
    { rewrite Hrow. unfold Extractor.rowOfferPatient. rewrite Hok, Hprice.
      simpl. by rewrite extractNumericPrice_no_digit
        by by apply TrimSpace_no_digit. }
    split; [|by rewrite Ho].
    apply list_elem_of_omap. exists i. split; [|exact Ho].
    apply elem_of_seq. lia. }
  pose proof (getInfos_rows p n Hw Hn) as Hres.
  assert (∃ o, Extractor.rowOffer (articleRow p i) = Some o
               ∧ Price o = GoStrings.TrimSpace priceText ∧ PriceNum o = 0%Q)
    as (o & Ho & Hp & Hz).
  { rewrite Hrow. unfold Extractor.rowOffer. rewrite Hok. simpl.
    eexists. split; [reflexivity|]. simpl.
    unfold Extractor.trimmed. rewrite Hprice. simpl. split; [done|].
    by apply extractNumericPrice_no_digit, TrimSpace_no_digit. }
  eexists _, o. split; [exact Hres|].
  assert (o ∈ omap (λ i, Extractor.rowOffer (articleRow p i)) (seq 0 n)) as Hin.
  { apply list_elem_of_omap. exists i. split; [|done].
    apply elem_of_seq. lia. }
  split; [exact Hin|]. split; [exact Ho|]. split; [exact Hp|].
  split; [exact Hz|]. split; [|exact Hpatient].
  destruct (Matcher.findTheCard _ _ _ _) eqn:E; [by eexists|].
  exfalso. eapply findTheCard_None; [exact E|exact Hin|].
  by repeat split.
Qed.

Lemma zero_price_offer_kept_witness :
  Price.extractNumericPrice " N/A " = 0%Q
  ∧ ∃ res o,
      Extractor.getInfos Props.unpriced_page = Ok res
      ∧ o ∈ res
      ∧ Extractor.rowOffer (articleRow Props.unpriced_page 0) = Some o
      ∧ Price o = GoStrings.TrimSpace " N/A "
      ∧ PriceNum o = 0%Q
      ∧ is_Some (Matcher.findTheCard res (Mint o) (Language o) (Edition o))
      ∧ ∃ res' o',
          Extractor.getInfosPatient Props.unpriced_page = Ok res'
          ∧ o' ∈ res'
          ∧ Extractor.rowOfferPatient (articleRow Props.unpriced_page 0)
            = Some o'
          ∧ Price o' = GoStrings.TrimSpace " N/A "
          ∧ PriceNum o' = 0%Q.
Proof.
  apply (zero_price_offer_kept Props.unpriced_page 1 0 Props.unpriced_row).
  - reflexivity.
  - reflexivity.
  - lia.
  - reflexivity.
  - reflexivity.
  - reflexivity.
  - reflexivity.
Defined.

(** C3, against the claim. On a page without any [article-row] element but
    with a plain table row that shows a price, [getInfos] returns the empty
    list: no table scan takes over. *)
Lemma getInfos_table_only_page_empty :
  plainTableRows Props.table_only_page = ["Near Mint English 2,00 €"]
  ∧ articleRowCount Props.table_only_page = Ok 0
  ∧ Extractor.getInfos Props.table_only_page = Ok []
  ∧ ¬ ∃ res o, Extractor.getInfos Props.table_only_page = Ok res ∧ o ∈ res.
Proof.
  repeat split. intros (res & o & [= <-] & H). by apply elem_of_nil in H.
Qed.

(** C3, as amended. When the semantic-row strategy finds zero rows
    ([article-row] count 0), [getInfos] (and [getInfosPatient]) returns the
    empty offer list with a nil error, whatever plain tables the page
    holds: the alternative selectors are only counted for the log and no
    later strategy runs. Every offer [getInfos] returns is built from an
    [article-row] element, and its result does not depend on the plain
    tables of the page. *)
Theorem getInfos_zero_rows_empty :
  ∀ (p : Page),
    waitBody p = None →
    articleRowCount p = Ok 0 →
    Extractor.getInfos p = Ok []
    ∧ Extractor.getInfosPatient p = Ok []
    ∧ (∀ tables, Extractor.getInfos (Props.with_tables p tables) = Ok [])
    ∧ (∀ q tables res o,
          Extractor.getInfos (Props.with_tables q tables) = Ok res →
          o ∈ res →
          Extractor.getInfos q = Ok res
          ∧ ∃ n i, articleRowCount q = Ok n ∧ i < n
                   ∧ Extractor.rowOffer (articleRow q i) = Some o).
Proof.
  intros p Hw Hn. unfold Extractor.getInfos, Extractor.getInfosPatient.
  simpl. rewrite Hw, Hn. simpl. repeat split; try done.
  eapply getInfos_elem; [|done]. done.
Qed.

Lemma getInfos_zero_rows_empty_witness :
  Extractor.getInfos Props.table_only_page = Ok []
  ∧ Extractor.getInfosPatient Props.table_only_page = Ok []
  ∧ (∀ tables,
        Extractor.getInfos (Props.with_tables Props.table_only_page tables)
        = Ok [])
  ∧ (∀ q tables res o,
        Extractor.getInfos (Props.with_tables q tables) = Ok res →
        o ∈ res →
        Extractor.getInfos q = Ok res
        ∧ ∃ n i, articleRowCount q = Ok n ∧ i < n
                 ∧ Extractor.rowOffer (articleRow q i) = Some o).
Proof.
  apply (getInfos_zero_rows_empty Props.table_only_page); reflexivity.
Defined.

(** ** Enrichment *)

Section EnrichmentFacts.
Import GoStrings Engine Props.

Lemma is_empty_true s : is_empty s = true ↔ s = "".
Proof. unfold is_empty. apply String.eqb_eq. Qed.

Lemma is_empty_false s : is_empty s = false ↔ s ≠ "".
Proof. unfold is_empty. apply String.eqb_neq. Qed.

Lemma cardName_absent s :
  (heading s = Ok "" ∨ ∃ e, heading s = Err e) →
  cardName s = "Carte inconnue".
Proof. unfold cardName. by intros [->|[e ->]]. Qed.

Lemma cardName_present s name :
  heading s = Ok name → name ≠ "" → cardName s = TrimSpace name.
Proof.
  unfold cardName. intros -> H%is_empty_false. by rewrite H.
Qed.

Lemma fromPage_set pi m v :
  pi = Ok (Some m) → m !! "set_name" = Some (AString v) →
  snd (fromPage pi) = TrimSpace v.
Proof. intros -> H. simpl. by rewrite H. Qed.

Lemma fromPage_rarity pi m v :
  pi = Ok (Some m) → m !! "rarity" = Some (AString v) →
  fst (fromPage pi) = TrimSpace v.
Proof. intros -> H. simpl. by rewrite H. Qed.

Lemma fromPage_nothing pi :
  (pi = Ok None ∨ ∃ e, pi = Err e) → fromPage pi = ("", "").
Proof. by intros [->|[e ->]]. Qed.

(** What the two ladders leave in [info] and in the selected offer. *)
Lemma fillSetAndRarity_spec rarityFromPage setFromPage result info :
  ∃ info' result',
    fillSetAndRarity rarityFromPage setFromPage result info
    = (info', result')
    ∧ label_rule setFromPage (SetName result) "Set inconnu" (info_Set info')
    ∧ label_rule rarityFromPage (Rarity result) "Rareté inconnue"
                 (info_Rarity info')
    ∧ overwritten rarityFromPage setFromPage result result'
    ∧ info_Name info' = info_Name info
    ∧ info_Offers info' = info_Offers info
    ∧ info_Price info' = info_Price info
    ∧ info_PriceNum info' = info_PriceNum info.
Proof.
  unfold fillSetAndRarity, label_rule, overwritten.
  destruct (is_empty setFromPage) eqn:Es,
           (is_empty rarityFromPage) eqn:Er,
           (is_empty (SetName result)) eqn:Ec,
           (is_empty (Rarity result)) eqn:Ed; simpl;
    rewrite ?Es, ?Er, ?Ec, ?Ed; simpl;
    repeat match goal with
           | H : is_empty _ = true |- _ => apply is_empty_true in H
           | H : is_empty _ = false |- _ => apply is_empty_false in H
           end;
    eexists _, _; (split; [reflexivity|]); simpl;
    repeat split; intros; congruence.
Qed.

Lemma extractCardDetails_spec s result info :
  ∃ info' result',
    extractCardDetails s result info = (Ok info', result')
    ∧ info_Name info' = cardName s
    ∧ label_rule (snd (fromPage (pageInfo s))) (SetName result)
                 "Set inconnu" (info_Set info')
    ∧ label_rule (fst (fromPage (pageInfo s))) (Rarity result)
                 "Rareté inconnue" (info_Rarity info')
    ∧ overwritten (fst (fromPage (pageInfo s)))
                  (snd (fromPage (pageInfo s))) result result'
    ∧ info_Offers info' = [result]
    ∧ info_Price info' = Price result
    ∧ info_PriceNum info' = PriceNum result.
Proof.
  unfold extractCardDetails.
  destruct (fromPage (pageInfo s)) as [r t] eqn:E.
  destruct (fillSetAndRarity_spec r t result
              (withName (promote info result) (cardName s)))
    as (info' & result' & -> & ? & ? & ? & ? & ? & ? & ?).
  by exists info', result'.
Qed.

Lemma app_scrapeCardInfo_spec s req result trace :
  twoDepths secure s req = (Some result, trace) →
  ∃ info' result',
    AppGo.scrapeCardInfo s req = (Ok info', Some result', trace)
    ∧ info_Name info' = cardName s
    ∧ label_rule (snd (fromPage_app s)) (SetName result)
                 "Set inconnu" (info_Set info')
    ∧ label_rule (fst (fromPage_app s)) (Rarity result)
                 "Rareté inconnue" (info_Rarity info')
    ∧ overwritten (fst (fromPage_app s)) (snd (fromPage_app s))
                  result result'
    ∧ info_Offers info' = [result']
    ∧ info_Price info' = Price result
    ∧ info_PriceNum info' = PriceNum result.
Proof.
  intros H. unfold AppGo.scrapeCardInfo. rewrite H.
  fold (fromPage_app s). destruct (fromPage_app s) as [r t] eqn:E.
  destruct (fillSetAndRarity_spec r t result
              (withName emptyInfo (cardName s)))
    as (info' & result' & -> & Hs & Hr & Ho & Hn & _).
  eexists _, result'. split; [reflexivity|]. simpl.
  destruct Ho as (?&?&?&?&?&?&?).
  split; [exact Hn|]. split; [exact Hs|]. split; [exact Hr|].
  split; [by repeat split|]. by repeat split.
Qed.

End EnrichmentFacts.

(** Enrichment as the code has it, the part of C8 that holds. Once an
    offer is selected, enrichment does not fail the call:
    [extractCardDetails] always returns a result with a nil error, and so
    do app.go's [scrapeCardInfo], [scrapeWithStandardMode] and
    [attemptScrapeWithMode] after a hit. The display name is the sentinel
    "Carte inconnue" when the first heading is absent or empty (and the
    trimmed heading otherwise); the set label and the rarity are the value
    read from the page when it is not empty, else the value the selected
    offer carried when that is not empty, else the sentinels "Set inconnu"
    and "Rareté inconnue". *)
Theorem enrichment_never_fails :
  ∀ (s : Session) (result : CardOffer) (info : ScrapedCardInfo),
    (∃ info' result',
        Engine.extractCardDetails s result info = (Ok info', result')
        ∧ ((heading s = Ok "" ∨ ∃ e, heading s = Err e) →
           info_Name info' = "Carte inconnue")
        ∧ (∀ name, heading s = Ok name → name ≠ "" →
                   info_Name info' = GoStrings.TrimSpace name)
        ∧ Props.label_rule (snd (Engine.fromPage (pageInfo s)))
                           (SetName result) "Set inconnu" (info_Set info')
        ∧ Props.label_rule (fst (Engine.fromPage (pageInfo s)))
                           (Rarity result) "Rareté inconnue"
                           (info_Rarity info'))
    ∧ (∀ m v, pageInfo s = Ok (Some m) →
              m !! "set_name" = Some (AString v) →
              snd (Engine.fromPage (pageInfo s)) = GoStrings.TrimSpace v)
    ∧ (∀ m v, pageInfo s = Ok (Some m) →
              m !! "rarity" = Some (AString v) →
              fst (Engine.fromPage (pageInfo s)) = GoStrings.TrimSpace v)
    ∧ ((pageInfo s = Ok None ∨ ∃ e, pageInfo s = Err e) →
       Engine.fromPage (pageInfo s) = ("", ""))
    ∧ (∀ req trace,
          Engine.twoDepths secure s req = (Some result, trace) →
          ∃ info' result',
            AppGo.scrapeCardInfo s req = (Ok info', Some result', trace)
            ∧ ((heading s = Ok "" ∨ ∃ e, heading s = Err e) →
               info_Name info' = "Carte inconnue")
            ∧ Props.label_rule (snd (Props.fromPage_app s))
                               (SetName result) "Set inconnu"
                               (info_Set info')
            ∧ Props.label_rule (fst (Props.fromPage_app s))
                               (Rarity result) "Rareté inconnue"
                               (info_Rarity info'))
    ∧ (∀ b req trace,
          session b secure = s →
          Engine.testBrowserConnectionPatient b = None →
          Engine.twoDepths secure s req = (Some result, trace) →
          ∃ info', Engine.scrapeWithStandardMode b req = (Ok info', trace))
    ∧ (∀ b req m trace,
          session b m = s →
          Engine.testBrowserConnectionForMode b m = None →
          Engine.scrapeWithRetries m s req = (Some result, trace) →
          ∃ info', Engine.attemptScrapeWithMode b req m = (Ok info', trace)).
Proof.
  intros s result info.
  split; [|split; [|split; [|split; [|split; [|split]]]]].
  - destruct (extractCardDetails_spec s result info)
      as (info' & result' & E & Hn & Hs & Hr & _).
    exists info', result'. split; [done|]. rewrite Hn.
    split; [apply cardName_absent|]. split; [apply cardName_present|]. done.
  - intros m v. apply fromPage_set.
  - intros m v. apply fromPage_rarity.
  - apply fromPage_nothing.
  - intros req trace H.
    destruct (app_scrapeCardInfo_spec s req result trace H)
      as (info' & result' & E & Hn & Hs & Hr & _).
    exists info', result'. split; [done|]. rewrite Hn.
    split; [apply cardName_absent|]. done.
  - intros b req trace <- Hc H.
    unfold Engine.scrapeWithStandardMode. rewrite Hc, H.
    destruct (extractCardDetails_spec (session b secure) result
                Engine.emptyInfo) as (info' & result' & -> & _).
    by exists info'.
  - intros b req m trace <- Hc H.
    unfold Engine.attemptScrapeWithMode. rewrite Hc, H.
    destruct (extractCardDetails_spec (session b m) result
                Engine.emptyInfo) as (info' & result' & -> & _).
    by exists info'.
Qed.

(** C5, against the claim. The selected offer is written after its
    creation: with a set label and a rarity on the page,
    [extractCardDetails] leaves "Base Set" and "Rare" in the selected
    offer, which the extractor created with both fields empty; and app.go's
    [scrapeCardInfo] promotes the offer with these fields overwritten, not
    the offer as extracted. *)
Lemma enrichment_writes_selected_offer :
  let o := Props.offer "NM" "English" false "2.00€" in
  Engine.launchLoop Props.labelled_session 0 "NM" "English" false false
  = Some o
  ∧ SetName o = "" ∧ Rarity o = ""
  ∧ (∃ info' o',
        Engine.extractCardDetails Props.labelled_session o Engine.emptyInfo
        = (Ok info', o')
        ∧ SetName o' = "Base Set" ∧ Rarity o' = "Rare" ∧ o' ≠ o)
  ∧ (∃ info' o' trace,
        AppGo.scrapeCardInfo Props.labelled_session Props.nm_english
        = (Ok info', Some o', trace)
        ∧ info_Offers info' = [o'] ∧ SetName o' = "Base Set" ∧ o' ≠ o).
Proof.
  split; [reflexivity|]. split; [reflexivity|]. split; [reflexivity|].
  split.
  - eexists _, _. split; [reflexivity|]. repeat split. discriminate.
  - eexists _, _, _. split; [reflexivity|]. repeat split. discriminate.
Qed.

(** C5, as amended. Every successful scrape promotes exactly one offer
    into [Offers], by value. Enrichment writes into the selected offer (the
    copy [findTheCard] returned): its [SetName] and [Rarity] are overwritten
    by a non-empty set label or rarity read from the page, and its other
    fields are left as they were. In [extractCardDetails] the promoted
    copy is taken before these writes and equals the selected offer as
    extracted; in app.go's [scrapeCardInfo] it is taken after them and
    carries the overwritten fields. *)
Theorem one_offer_promoted_selected_overwritten :
  ∀ (s : Session) (result : CardOffer) (info : ScrapedCardInfo),
    (∃ info' result',
        Engine.extractCardDetails s result info = (Ok info', result')
        ∧ info_Offers info' = [result]
        ∧ length (info_Offers info') = 1
        ∧ Props.overwritten (fst (Engine.fromPage (pageInfo s)))
                            (snd (Engine.fromPage (pageInfo s)))
                            result result')
    ∧ (∀ req trace,
          Engine.twoDepths secure s req = (Some result, trace) →
          ∃ info' result',
            AppGo.scrapeCardInfo s req = (Ok info', Some result', trace)
            ∧ info_Offers info' = [result']
            ∧ length (info_Offers info') = 1
            ∧ Props.overwritten (fst (Props.fromPage_app s))
                                (snd (Props.fromPage_app s))
                                result result').
Proof.
  intros s result info. split.
  - destruct (extractCardDetails_spec s result info)
      as (info' & result' & E & _ & _ & _ & Ho & Hl & _).
    exists info', result'. rewrite Hl. done.
  - intros req trace H.
    destruct (app_scrapeCardInfo_spec s req result trace H)
      as (info' & result' & E & _ & _ & _ & Ho & Hl & _).
    exists info', result'. rewrite Hl. done.
Qed.

(** ** The acquisition ladder *)

Section LadderFacts.
Import GoStrings Matcher Extractor Engine Props.

Lemma hit_is_last_app t1 t2 :
  Forall (λ a, att_hit a = false) t1 → hit_is_last t2 →
  hit_is_last (t1 ++ t2).
Proof.
  intros H1 H2 i a Hi Hhit. rewrite length_app.
  apply lookup_app_Some in Hi as [Hi|[Hle Hi]].
  - rewrite Forall_lookup in H1. specialize (H1 _ _ Hi). congruence.
  - specialize (H2 _ _ Hi Hhit). lia.
Qed.

Lemma expanded_after_shallow_miss_app t1 t2 :
  expanded_after_shallow_miss t1 → expanded_after_shallow_miss t2 →
  expanded_after_shallow_miss (t1 ++ t2).
Proof.
  intros H1 H2 i a Hi Hl.
  apply lookup_app_Some in Hi as [Hi|[Hle Hi]].
  - destruct (H1 _ _ Hi Hl) as (j & a' & Hj & Ha' & ?).
    exists j, a'. split; [done|]. split; [|done].
    by apply lookup_app_l_Some.
  - destruct (H2 _ _ Hi Hl) as (j & a' & Hj & Ha' & ?).
    exists (length t1 + j), a'. split; [lia|]. split; [|done].
    rewrite lookup_app_r by lia.
    by replace (length t1 + j - length t1) with j by lia.
Qed.

Lemma hits_recorded_app run t1 t2 :
  hits_recorded run t1 → hits_recorded run t2 →
  hits_recorded run (t1 ++ t2).
Proof. intros H1 H2 a [?|?]%elem_of_app; auto. Qed.

Lemma hit_is_last_nil : hit_is_last [].
Proof. intros i a H. by rewrite lookup_nil in H. Qed.

Lemma expanded_after_shallow_miss_nil : expanded_after_shallow_miss [].
Proof. intros i a H. by rewrite lookup_nil in H. Qed.

Lemma hits_recorded_nil run : hits_recorded run [].
Proof. intros a H. by apply elem_of_nil in H. Qed.

(** Case analysis on an index into an explicit trace. *)
Ltac explicit_lookup :=
  repeat match goal with
         | H : (_ :: _) !! ?i = Some _ |- _ =>
             destruct i; simpl in H; [injection H as <-|]
         | H : [] !! _ = Some _ |- _ => by rewrite lookup_nil in H
         end.

Ltac hit_last :=
  let i := fresh "i" in let a := fresh "a" in
  let Hi := fresh "Hi" in let Hh := fresh "Hh" in
  intros i a Hi Hh; explicit_lookup; simpl in *;
  first [discriminate | reflexivity].

(** [at_zero]: the expanded attempts of an explicit one-configuration
    trace point back to its first attempt. *)
Ltac expanded_back :=
  let i := fresh "i" in let a := fresh "a" in
  let Hi := fresh "Hi" in let Hl := fresh "Hl" in
  intros i a Hi Hl; explicit_lookup; simpl in *;
  first [discriminate
        | eexists 0, _; split; [lia|]; split; [reflexivity|]; by repeat split].

(** What one pass over the two load depths records. *)
Lemma twoDepths_trace m s req :
  ∃ r trace,
    twoDepths m s req = (r, trace)
    ∧ map key trace `prefix_of` two_depths m
    ∧ hit_is_last trace
    ∧ expanded_after_shallow_miss trace
    ∧ Forall (λ a, att_mode a = m) trace
    ∧ hits_recorded (λ a, launchLoop s (att_index a) (req_Quality req)
                            (req_Language req) (req_Edition req)
                            (att_load a)) trace
    ∧ (r = None → Forall (λ a, att_hit a = false) trace
                  ∧ map key trace = two_depths m)
    ∧ (is_Some r → ∃ a, last trace = Some a ∧ att_hit a = true).
Proof.
  unfold twoDepths.
  destruct (launchLoop s 0 _ _ _ false) as [o|] eqn:E0;
    [|destruct (launchLoop s 1 _ _ _ true) as [o|] eqn:E1];
    (eexists _, _; split; [reflexivity|]).
  - split; [by exists [(m, 1, true)]|].
    split; [hit_last|]. split; [expanded_back|].
    split; [by repeat constructor|].
    split; [|split; [done|by eexists]].
    intros a ->%list_elem_of_singleton. simpl. by rewrite E0.
  - split; [by exists []|].
    split; [hit_last|]. split; [expanded_back|].
    split; [by repeat constructor|].
    split; [|split; [done|by eexists]].
    intros a [-> | ->%list_elem_of_singleton]%elem_of_cons; simpl;
      by rewrite ?E0, ?E1.
  - split; [by exists []|].
    split; [hit_last|]. split; [expanded_back|].
    split; [by repeat constructor|].
    split; [|split; [by repeat constructor|by intros [? ?]]].
    intros a [-> | ->%list_elem_of_singleton]%elem_of_cons; simpl;
      by rewrite ?E0, ?E1.
Qed.

(** What the four patient attempts of one configuration record. *)
Lemma scrapeWithRetries_trace m s req :
  ∃ r trace,
    scrapeWithRetries m s req = (r, trace)
    ∧ map key trace `prefix_of` ladder m
    ∧ hit_is_last trace
    ∧ expanded_after_shallow_miss trace
    ∧ Forall (λ a, att_mode a = m) trace
    ∧ hits_recorded (λ a, launchLoopPatient s (att_index a)
                            (req_Quality req) (req_Language req)
                            (req_Edition req) (att_load a)) trace
    ∧ (r = None → Forall (λ a, att_hit a = false) trace
                  ∧ map key trace = ladder m)
    ∧ (is_Some r → ∃ a, last trace = Some a ∧ att_hit a = true).
Proof.
  unfold scrapeWithRetries, attempts, retryLoop.
  destruct (launchLoopPatient s 0 _ _ _ false) as [o|] eqn:E0;
    [|destruct (launchLoopPatient s 1 _ _ _ false) as [o|] eqn:E1;
      [|destruct (launchLoopPatient s 2 _ _ _ true) as [o|] eqn:E2;
        [|destruct (launchLoopPatient s 3 _ _ _ true) as [o|] eqn:E3]]];
    (eexists _, _; split; [reflexivity|]);
    (split; [by eexists|]);
    (split; [hit_last|]); (split; [expanded_back|]);
    (split; [by repeat constructor|]);
    (split;
     [intros a Ha; repeat (apply elem_of_cons in Ha as [->|Ha]);
      [simpl; by rewrite ?E0, ?E1, ?E2, ?E3..|by apply elem_of_nil in Ha]|]).
  1-4: split; [done|by eexists].
  split; [by repeat constructor|by intros [? ?]].
Qed.

Lemma hits_recorded_session (b : Browser) m run trace :
  Forall (λ a, att_mode a = m) trace →
  hits_recorded (λ a, run (session b m) a) trace →
  hits_recorded (λ a, run (session b (att_mode a)) a) trace.
Proof.
  intros Hm H a Ha. rewrite Forall_forall in Hm.
  rewrite (Hm a) by done. by apply H.
Qed.

(** One configuration of the Windows ladder. *)
Lemma attemptScrapeWithMode_trace b req m :
  ∃ r trace,
    attemptScrapeWithMode b req m = (r, trace)
    ∧ map key trace `sublist_of` ladder m
    ∧ hit_is_last trace
    ∧ expanded_after_shallow_miss trace
    ∧ hits_recorded (λ a, launchLoopPatient (session b (att_mode a))
                            (att_index a) (req_Quality req)
                            (req_Language req) (req_Edition req)
                            (att_load a)) trace
    ∧ ((∃ e, r = Err e) → Forall (λ a, att_hit a = false) trace)
    ∧ ((∃ info, r = Ok info) →
       ∃ a, last trace = Some a ∧ att_hit a = true).
Proof.
  unfold attemptScrapeWithMode.
  destruct (testBrowserConnectionForMode b m) as [e|].
  - eexists _, _. split; [reflexivity|].
    split; [apply sublist_nil_l|].
    split; [apply hit_is_last_nil|].
    split; [apply expanded_after_shallow_miss_nil|].
    split; [apply hits_recorded_nil|].
    split; [by constructor|]. by intros [? ?].
  - destruct (scrapeWithRetries_trace m (session b m) req)
      as (r & trace & -> & Hp & Hl & He & Hm & Hr & Hnone & Hsome).
    assert (map key trace `sublist_of` ladder m) as Hs.
    { destruct Hp as [k ->]. by apply sublist_inserts_r. }
    pose proof (hits_recorded_session b m
                  (λ s a, launchLoopPatient s (att_index a)
                            (req_Quality req) (req_Language req)
                            (req_Edition req) (att_load a)) trace Hm Hr).
    destruct r as [result|].
    + destruct (extractCardDetails_spec (session b m) result emptyInfo)
        as (info' & result' & -> & _).
      eexists _, _. split; [reflexivity|]. simpl.
      repeat (split; [done|]). split; [by intros [? ?]|].
      intros _. by apply Hsome.
    + eexists _, _. split; [reflexivity|].
      repeat (split; [done|]). split; [|by intros [? ?]].
      intros _. by apply Hnone.
Qed.

(** The loop over the configurations. *)
Lemma modeLoop_trace b req todo :
  ∃ r trace,
    modeLoop b req todo = (r, trace)
    ∧ map key trace `sublist_of` concat (map ladder todo)
    ∧ hit_is_last trace
    ∧ expanded_after_shallow_miss trace
    ∧ hits_recorded (λ a, launchLoopPatient (session b (att_mode a))
                            (att_index a) (req_Quality req)
                            (req_Language req) (req_Edition req)
                            (att_load a)) trace
    ∧ ((∃ e, r = Err e) → Forall (λ a, att_hit a = false) trace)
    ∧ ((∃ info, r = Ok info) →
       ∃ a, last trace = Some a ∧ att_hit a = true).
Proof.
  induction todo as [|m rest IH];
    [|change (concat (map ladder (m :: rest)))
        with (ladder m ++ concat (map ladder rest)); cbn [modeLoop]].
  - eexists _, _. split; [reflexivity|].
    split; [constructor|].
    split; [apply hit_is_last_nil|].
    split; [apply expanded_after_shallow_miss_nil|].
    split; [apply hits_recorded_nil|].
    split; [by constructor|]. by intros [? ?].
  - destruct (attemptScrapeWithMode_trace b req m)
      as (r & trace & -> & Hs & Hl & He & Hr & Herr & Hok).
    destruct r as [info|e].
    + eexists _, _. split; [reflexivity|].
      split; [by apply sublist_inserts_r|]. by repeat (split; [done|]).
    + destruct IH as (r' & trace' & -> & Hs' & Hl' & He' & Hr' & Herr' & Hok').
      assert (Forall (λ a, att_hit a = false) trace) as Hmiss
        by (apply Herr; by eexists).
      eexists _, _. split; [reflexivity|].
      split; [rewrite map_app; by apply sublist_app|].
      split; [by apply hit_is_last_app|].
      split; [by apply expanded_after_shallow_miss_app|].
      split; [by apply hits_recorded_app|].
      split.
      * intros H. apply Forall_app. split; [done|]. by apply Herr'.
      * intros H. destruct (Hok' H) as (a & Ha & Hh). exists a.
        split; [|done]. rewrite last_app. by rewrite Ha.
Qed.

End LadderFacts.

Section EngineFacts.
Import GoStrings Matcher Extractor Engine Props.

Lemma scrapeWithStandardMode_trace b req :
  ∃ r trace,
    scrapeWithStandardMode b req = (r, trace)
    ∧ map key trace `prefix_of` two_depths secure
    ∧ hit_is_last trace
    ∧ expanded_after_shallow_miss trace
    ∧ hits_recorded (λ a, launchLoop (session b (att_mode a))
                            (att_index a) (req_Quality req)
                            (req_Language req) (req_Edition req)
                            (att_load a)) trace
    ∧ ((∃ info, r = Ok info) →
       ∃ a, last trace = Some a ∧ att_hit a = true).
Proof.
  unfold scrapeWithStandardMode.
  destruct (testBrowserConnectionPatient b) as [e|].
  - eexists _, _. split; [reflexivity|].
    split; [by eexists|].
    split; [apply hit_is_last_nil|].
    split; [apply expanded_after_shallow_miss_nil|].
    split; [apply hits_recorded_nil|]. by intros [? ?].
  - destruct (twoDepths_trace secure (session b secure) req)
      as (r & trace & -> & Hp & Hl & He & Hm & Hr & Hnone & Hsome).
    pose proof (hits_recorded_session b secure
                  (λ s a, launchLoop s (att_index a)
                            (req_Quality req) (req_Language req)
                            (req_Edition req) (att_load a)) trace Hm Hr).
    destruct r as [result|].
    + destruct (extractCardDetails_spec (session b secure) result
                  emptyInfo) as (info' & result' & -> & _).
      eexists _, _. split; [reflexivity|]. simpl.
      repeat (split; [done|]). intros _. by apply Hsome.
    + eexists _, _. split; [reflexivity|].
      repeat (split; [done|]). by intros [? ?].
Qed.

Lemma app_scrapeCardInfo_trace s req :
  ∃ r o trace,
    AppGo.scrapeCardInfo s req = (r, o, trace)
    ∧ map key trace `prefix_of` two_depths secure
    ∧ hit_is_last trace
    ∧ expanded_after_shallow_miss trace
    ∧ hits_recorded (launch_app s req) trace
    ∧ ((∃ info, r = Ok info) →
       ∃ a, last trace = Some a ∧ att_hit a = true).
Proof.
  destruct (twoDepths_trace secure s req)
    as (r & trace & E & Hp & Hl & He & Hm & Hr & Hnone & Hsome).
  destruct r as [result|].
  - destruct (app_scrapeCardInfo_spec s req result trace E)
      as (info' & result' & -> & _).
    eexists _, _, _. split; [reflexivity|].
    repeat (split; [done|]). intros _. by apply Hsome.
  - unfold AppGo.scrapeCardInfo. rewrite E.
    eexists _, _, _. split; [reflexivity|].
    repeat (split; [done|]). by intros [? ?].
Qed.

(** On Windows every failure of the ladder carries the same text. *)
Lemma modeLoop_failure_text b req todo e trace :
  modeLoop b req todo = (Err e, trace) → e = all_modes_failed.
Proof.
  revert trace. induction todo as [|m rest IH]; simpl; intros trace.
  - by intros [= <- _].
  - destruct (attemptScrapeWithMode b req m) as [[info|e'] t]; [done|].
    destruct (modeLoop b req rest) as [[info|e''] t'] eqn:E; [done|].
    intros [= <- _]. by eapply IH.
Qed.

(** The standard mode, every attempt completing without a hit: the
    error echoes the criteria. *)
Lemma scrapeWithStandardMode_exhausted b req :
  testBrowserConnectionPatient b = None →
  (∀ n load, launchLoop (session b secure) n (req_Quality req)
               (req_Language req) (req_Edition req) load = None) →
  fst (scrapeWithStandardMode b req) = Err (no_match_error req).
Proof.
  intros Hc Hmiss. unfold scrapeWithStandardMode, twoDepths.
  by rewrite Hc, !Hmiss.
Qed.

Lemma app_scrapeCardInfo_exhausted s req :
  (∀ n load, launchLoop s n (req_Quality req)
               (req_Language req) (req_Edition req) load = None) →
  fst (fst (AppGo.scrapeCardInfo s req)) = Err (no_match_error req).
Proof.
  intros Hmiss. unfold AppGo.scrapeCardInfo, twoDepths. by rewrite !Hmiss.
Qed.

(** The Windows ladder, every attempt completing without a hit: the
    error is the browser one. *)
Lemma scrapeWithMultipleModes_exhausted b req :
  (∀ m, connection b m = None) →
  (∀ m n load, launchLoopPatient (session b m) n (req_Quality req)
                 (req_Language req) (req_Edition req) load = None) →
  scrapeWithMultipleModes b req
  = (Err all_modes_failed, all_missed).
Proof.
  intros Hc Hmiss.
  unfold scrapeWithMultipleModes, modes, modeLoop, attemptScrapeWithMode,
    testBrowserConnectionForMode, scrapeWithRetries, attempts, retryLoop.
  by rewrite !Hc, !Hmiss.
Qed.

End EngineFacts.

(** C8, at the failing input. The heading is tested for emptiness before
    it is trimmed: a first heading of white space only (a space, a no-break
    space) is not empty, so the sentinel is not taken, and the display
    name is the trimmed heading, the empty text, in [extractCardDetails]
    and in app.go's [scrapeCardInfo] alike. A heading that is exactly
    empty, or absent, gives the sentinel "Carte inconnue". *)
Theorem blank_heading_gives_empty_name :
  Engine.cardName (MoreProps.headed_session (Ok " ")) = ""
  ∧ Engine.cardName (MoreProps.headed_session (Ok MoreProps.nbsp)) = ""
  ∧ Engine.cardName (MoreProps.headed_session (Ok "")) = "Carte inconnue"
  ∧ Engine.cardName (MoreProps.headed_session (Err "could not find node"))
    = "Carte inconnue"
  ∧ (∃ info' result',
       Engine.extractCardDetails (MoreProps.headed_session (Ok " "))
         (Props.offer "NM" "English" false "2.00€") Engine.emptyInfo
       = (Ok info', result')
       ∧ info_Name info' = "" ∧ info_Name info' ≠ "Carte inconnue")
  ∧ (∃ info' result' trace,
       AppGo.scrapeCardInfo (MoreProps.headed_session (Ok " "))
         Props.nm_english
       = (Ok info', result', trace)
       ∧ info_Name info' = "" ∧ info_Name info' ≠ "Carte inconnue")
  ∧ (∀ (s : Session) (name : string),
       heading s = Ok name → name ≠ "" → GoStrings.TrimSpace name = "" →
       Engine.cardName s = "").
Proof.
  split; [by vm_compute|]. split; [by vm_compute|].
  split; [by vm_compute|]. split; [by vm_compute|].
  split; [eexists _, _; split; [by vm_compute|]; by split|].
  split; [eexists _, _, _; split; [by vm_compute|]; by split|].
  intros s name Hh Hne Ht. unfold Engine.cardName. rewrite Hh.
  destruct (Engine.is_empty name) eqn:E; [|done].
  unfold Engine.is_empty in E. by apply String.eqb_eq in E.
Qed.

Section PlanFacts.
Import GoStrings Matcher Extractor Engine Props MoreProps.

Lemma attemptScrapeWithMode_plan b req m :
  ∃ r trace,
    attemptScrapeWithMode b req m = (r, trace)
    ∧ map key trace `prefix_of` (if connects b m then ladder m else [])
    ∧ ((∃ e, r = Err e) →
       map key trace = if connects b m then ladder m else []).
Proof.
  unfold attemptScrapeWithMode, testBrowserConnectionForMode, connects.
  destruct (connection b m) as [e|].
  - eexists _, _. split; [reflexivity|]. split; [done|done].
  - destruct (scrapeWithRetries_trace m (session b m) req)
      as (r & trace & -> & Hp & _ & _ & _ & _ & Hnone & _).
    destruct r as [result|].
    + destruct (extractCardDetails_spec (session b m) result emptyInfo)
        as (info' & result' & -> & _).
      eexists _, _. split; [reflexivity|]. split; [done|].
      by intros [? ?].
    + eexists _, _. split; [reflexivity|]. split; [done|].
      intros _. by apply Hnone.
Qed.

Lemma modeLoop_plan b req todo :
  ∃ r trace,
    modeLoop b req todo = (r, trace)
    ∧ map key trace
      `prefix_of` concat (map (λ m, if connects b m then ladder m else [])
                              todo)
    ∧ ((∃ e, r = Err e) →
       map key trace
       = concat (map (λ m, if connects b m then ladder m else []) todo)).
Proof.
  induction todo as [|m rest IH]; cbn [modeLoop map concat].
  - eexists _, _. split; [reflexivity|]. split; [done|done].
  - destruct (attemptScrapeWithMode_plan b req m)
      as (r & trace & -> & Hp & Herr).
    destruct r as [info|e].
    + eexists _, _. split; [reflexivity|].
      split; [by apply prefix_app_r|]. by intros [? ?].
    + destruct IH as (r' & trace' & -> & Hp' & Herr').
      assert (Hfull := Herr ltac:(by eexists)).
      eexists _, _. split; [reflexivity|]. cbn [fst snd].
      rewrite map_app, Hfull. split; [by apply prefix_app|].
      intros H. by rewrite (Herr' H).
Qed.

Lemma scrapeCardInfo_plan b req :
  let trace := snd (Engine.scrapeCardInfo b req) in
  map key trace `prefix_of` planned b
  ∧ ((∃ e, fst (Engine.scrapeCardInfo b req) = Err e) →
     all_miss trace ∧ map key trace = planned b).
Proof.
  unfold Engine.scrapeCardInfo, planned. cbn zeta.
  destruct (windows b) eqn:W.
  - unfold scrapeWithMultipleModes.
    destruct (modeLoop_trace b req modes)
      as (r0 & trace0 & E0 & _ & _ & _ & _ & Hmiss & _).
    destruct (modeLoop_plan b req modes) as (r & trace & E & Hp & Herr).
    rewrite E in E0. injection E0 as <- <-. rewrite E. cbn [fst snd].
    split; [done|]. intros H. split; [by apply Hmiss|by apply Herr].
  - unfold scrapeWithStandardMode, testBrowserConnectionPatient,
      testBrowserConnection, connects. rewrite W.
    destruct (connection b secure) as [e|].
    + cbn [fst snd map]. split; [done|]. intros _. split; [constructor|done].
    + destruct (twoDepths_trace secure (session b secure) req)
        as (r & trace & -> & Hp & _ & _ & _ & _ & Hnone & _).
      destruct r as [result|].
      * destruct (extractCardDetails_spec (session b secure) result
                    emptyInfo) as (info' & result' & -> & _).
        cbn [fst snd]. split; [done|]. by intros [? ?].
      * cbn [fst snd]. split; [done|]. intros _. by apply Hnone.
Qed.

Lemma app_scrapeCardInfo_plan s req :
  (∃ e, fst (fst (AppGo.scrapeCardInfo s req)) = Err e) →
  all_miss (snd (AppGo.scrapeCardInfo s req))
  ∧ map key (snd (AppGo.scrapeCardInfo s req)) = two_depths secure.
Proof.
  unfold AppGo.scrapeCardInfo.
  destruct (twoDepths_trace secure s req)
    as (r & trace & -> & _ & _ & _ & _ & _ & Hnone & _).
  destruct r as [result|].
  - destruct (match pageInfoProbe s with
              | Some _ => _ | None => _ end) as [rarity set].
    destruct (fillSetAndRarity _ _ _ _) as [info result'].
    cbn [fst snd]. by intros [? ?].
  - cbn [fst snd]. intros _. by apply Hnone.
Qed.

Lemma planned_schedule b :
  planned b `sublist_of` schedule b
  ∧ ((∀ m, connection b m = None) → planned b = schedule b).
Proof.
  unfold planned, schedule, modes. split.
  - destruct (windows b).
    + cbn [map concat]. unfold connects.
      destruct (connection b secure), (connection b permissive),
        (connection b minimal); cbv;
        repeat first [apply sublist_nil|apply sublist_skip|apply sublist_cons].
    + unfold connects.
      destruct (connection b secure); [apply sublist_nil_l|reflexivity].
  - intros H. destruct (windows b); cbn [map concat]; unfold connects;
      by rewrite !H.
Qed.

Lemma last_hit_not_all_miss (trace : list Attempt) a :
  last trace = Some a → att_hit a = true → ¬ all_miss trace.
Proof.
  intros Hl Hh Hall. apply last_Some_elem_of in Hl.
  unfold all_miss in Hall. rewrite Forall_forall in Hall.
  specialize (Hall a Hl). congruence.
Qed.

End PlanFacts.

(** C6. The attempts of a scrape request are made in the configured order,
    configurations outer and load depths inner: the recorded attempts are
    a subsequence of the schedule (on Windows the configurations secure,
    permissive, minimal, each with two shallow then two expanded attempts;
    elsewhere, and in app.go, one configuration with a shallow then an
    expanded attempt). An expanded attempt is made only after a shallow
    attempt under the same configuration found no matching offer, and an
    attempt that yields a hit is the last one made. Each recorded outcome
    is that of the [launchLoop] call it stands for, and a successful
    request ends on a hit. No pair is left out on the way: the attempts
    are the pairs of the configurations whose connection test passes,
    taken in order from the first one, and as long as no attempt hits
    every such pair is attempted, so that a request fails only after all
    of them missed. *)
Theorem attempts_in_configured_order :
  ∀ (b : Browser) (s : Session) (req : AddCardRequest),
    (let trace := snd (Engine.scrapeCardInfo b req) in
     map Props.key trace `sublist_of` Props.schedule b
     ∧ Props.hit_is_last trace
     ∧ Props.expanded_after_shallow_miss trace
     ∧ Props.hits_recorded (Props.launch b req) trace
     ∧ ((∃ info, fst (Engine.scrapeCardInfo b req) = Ok info) →
        ∃ a, last trace = Some a ∧ att_hit a = true)
     ∧ map Props.key trace `prefix_of` MoreProps.planned b
     ∧ (MoreProps.all_miss trace →
        map Props.key trace = MoreProps.planned b)
     ∧ ((∃ e, fst (Engine.scrapeCardInfo b req) = Err e) →
        MoreProps.all_miss trace
        ∧ map Props.key trace = MoreProps.planned b))
    ∧ (let trace := snd (AppGo.scrapeCardInfo s req) in
       map Props.key trace `prefix_of` Props.two_depths secure
       ∧ Props.hit_is_last trace
       ∧ Props.expanded_after_shallow_miss trace
       ∧ Props.hits_recorded (Props.launch_app s req) trace
       ∧ ((∃ info, fst (fst (AppGo.scrapeCardInfo s req)) = Ok info) →
          ∃ a, last trace = Some a ∧ att_hit a = true)
       ∧ (MoreProps.all_miss trace →
          map Props.key trace = Props.two_depths secure)
       ∧ ((∃ e, fst (fst (AppGo.scrapeCardInfo s req)) = Err e) →
          MoreProps.all_miss trace
          ∧ map Props.key trace = Props.two_depths secure))
    ∧ (windows b = true →
       Props.schedule b
       = [ (secure, 0, false); (secure, 1, false);
           (secure, 2, true); (secure, 3, true);
           (permissive, 0, false); (permissive, 1, false);
           (permissive, 2, true); (permissive, 3, true);
           (minimal, 0, false); (minimal, 1, false);
           (minimal, 2, true); (minimal, 3, true) ])
    ∧ (windows b = false →
       Props.schedule b = [ (secure, 0, false); (secure, 1, true) ])
    ∧ MoreProps.planned b `sublist_of` Props.schedule b
    ∧ ((∀ m, connection b m = None) →
       MoreProps.planned b = Props.schedule b).
Proof.
  intros b s req. split; [|split; [|split; [|split; [|split]]]].
  - assert (Hold :
      let trace := snd (Engine.scrapeCardInfo b req) in
      map Props.key trace `sublist_of` Props.schedule b
      ∧ Props.hit_is_last trace
      ∧ Props.expanded_after_shallow_miss trace
      ∧ Props.hits_recorded (Props.launch b req) trace
      ∧ ((∃ info, fst (Engine.scrapeCardInfo b req) = Ok info) →
         ∃ a, last trace = Some a ∧ att_hit a = true)).
    { unfold Engine.scrapeCardInfo, Props.schedule, Props.launch.
      destruct (windows b).
      + destruct (modeLoop_trace b req Engine.modes)
          as (r & trace & E & Hs & Hl & He & Hr & _ & Hok).
        unfold Engine.scrapeWithMultipleModes. rewrite E. simpl. done.
      + destruct (scrapeWithStandardMode_trace b req)
          as (r & trace & E & [k Hp] & Hl & He & Hr & Hok).
        rewrite E. simpl. split; [|done].
        rewrite Hp. by apply sublist_inserts_r. }
    cbn zeta in *. destruct Hold as (H1 & H2 & H3 & H4 & H5).
    destruct (scrapeCardInfo_plan b req) as [Hp Hfull]. cbn zeta in *.
    repeat (split; [done|]). split; [|done].
    intros Hmiss.
    destruct (fst (Engine.scrapeCardInfo b req)) as [info|e] eqn:E.
    + destruct (H5 ltac:(by eexists)) as (a & Ha & Hh).
      by destruct (last_hit_not_all_miss _ _ Ha Hh).
    + apply Hfull. by eexists.
  - assert (Hold :
      let trace := snd (AppGo.scrapeCardInfo s req) in
      map Props.key trace `prefix_of` Props.two_depths secure
      ∧ Props.hit_is_last trace
      ∧ Props.expanded_after_shallow_miss trace
      ∧ Props.hits_recorded (Props.launch_app s req) trace
      ∧ ((∃ info, fst (fst (AppGo.scrapeCardInfo s req)) = Ok info) →
         ∃ a, last trace = Some a ∧ att_hit a = true)).
    { destruct (app_scrapeCardInfo_trace s req)
        as (r & o & trace & E & Hp & Hl & He & Hr & Hok).
      rewrite E. simpl. done. }
    cbn zeta in *. destruct Hold as (H1 & H2 & H3 & H4 & H5).
    pose proof (app_scrapeCardInfo_plan s req) as Hfull.
    repeat (split; [done|]). split; [|done].
    intros Hmiss.
    destruct (fst (fst (AppGo.scrapeCardInfo s req))) as [info|e] eqn:E.
    + destruct (H5 ltac:(by eexists)) as (a & Ha & Hh).
      by destruct (last_hit_not_all_miss _ _ Ha Hh).
    + apply Hfull. by eexists.
  - unfold Props.schedule. by intros ->.
  - unfold Props.schedule. by intros ->.
  - apply planned_schedule.
  - apply planned_schedule.
Qed.

(** C4, at the failing input. On a Windows host where every configuration
    connects and every one of the twelve attempts completes without a
    criteria hit, [scrapeCardInfo] fails with the text "impossible de se
    connecter au navigateur …", which names neither quality, language nor
    edition, and [AddCard] turns it into the browser-unavailable message;
    on another host the same pages give the no-matching-offer error that
    echoes the criteria. *)
Theorem windows_exhaustion_reports_browser_unavailable :
  windows Props.lp_only_windows = true
  ∧ (∀ m, connection Props.lp_only_windows m = None)
  ∧ Engine.scrapeCardInfo Props.lp_only_windows Props.nm_english
    = (Err Engine.all_modes_failed, Props.all_missed)
  ∧ Engine.all_modes_failed ≠ Engine.no_match_error Props.nm_english
  ∧ GoStrings.ContainsStr Engine.all_modes_failed
      "aucune carte correspondant aux critères" = false
  ∧ GoStrings.ContainsStr Engine.all_modes_failed
      "impossible de se connecter au navigateur" = true
  ∧ (∀ now timestamp,
        Store.AddCard
          (λ req, fst (Engine.scrapeCardInfo Props.lp_only_windows req))
          (Store.scrapeFailure true) now timestamp
          Props.empty_store Props.nm_english
        = (Err Store.browser_unreachable_windows, Props.empty_store,
           [req_URL Props.nm_english]))
  ∧ Engine.scrapeCardInfo Props.lp_only_unix Props.nm_english
    = (Err (Engine.no_match_error Props.nm_english),
       [Props.miss secure 0 false; Props.miss secure 1 true]).
Proof.
  split; [reflexivity|]. split; [reflexivity|].
  split; [by vm_compute|]. split; [by vm_compute|].
  split; [by vm_compute|]. split; [by vm_compute|].
  split; [intros; by vm_compute|]. by vm_compute.
Qed.

(** ** The store *)

Section StoreFacts.
Import GoStrings Store Props.

Lemma NoDup_fmap_inj {A B} (f : A → B) (l : list A) x y :
  NoDup (map f l) → x ∈ l → y ∈ l → f x = f y → x = y.
Proof.
  induction l as [|z l IH]; simpl; intros Hnd Hx Hy Hf.
  - by apply elem_of_nil in Hx.
  - apply NoDup_cons in Hnd as [Hz Hnd].
    apply elem_of_cons in Hx as [->|Hx], Hy as [->|Hy]; auto.
    + exfalso. apply Hz. rewrite Hf. by apply (list_elem_of_fmap_2 f).
    + exfalso. apply Hz. rewrite <- Hf. by apply (list_elem_of_fmap_2 f).
Qed.

(** The look-up by URL finds the one row that holds the URL. *)
Lemma getCardByURL_present db url c :
  unique_urls db → c ∈ rows db → card_CardURL c = url →
  getCardByURL db url = Ok c.
Proof.
  unfold unique_urls, getCardByURL. intros Hnd Hc Hu.
  induction (rows db) as [|x l IH]; simpl in *.
  - by apply elem_of_nil in Hc.
  - destruct (String.eqb (card_CardURL x) url) eqn:E.
    + apply String.eqb_eq in E.
      f_equal. apply (NoDup_fmap_inj card_CardURL (x :: l));
        [exact Hnd|left|exact Hc|congruence].
    + apply String.eqb_neq in E. apply NoDup_cons in Hnd as [_ Hnd].
      apply elem_of_cons in Hc as [->|Hc]; [done|]. by apply IH.
Qed.

Lemma getCardByURL_absent db url :
  (∀ c, c ∈ rows db → card_CardURL c ≠ url) →
  ∃ e, getCardByURL db url = Err e.
Proof.
  unfold getCardByURL. intros H.
  destruct (List.find _ (rows db)) as [c|] eqn:E; [|by eexists].
  apply find_some in E as [Hin Heq]. apply String.eqb_eq in Heq.
  exfalso. eapply H; [|done]. by apply list_elem_of_In.
Qed.

Lemma moveCard_urls ts db id t :
  map card_CardURL (rows (snd (moveCard ts db id t)))
  = map card_CardURL (rows db).
Proof.
  simpl. rewrite map_map. apply map_ext. intros c.
  by destruct (card_ID c =? id)%nat.
Qed.

Lemma moveCard_lookup ts db c t i x :
  unique_ids db → c ∈ rows db → rows db !! i = Some x →
  rows (snd (moveCard ts db (card_ID c) t)) !! i
  = Some (if (card_ID x =? card_ID c)%nat then moved c t ts else x)
  ∧ ((card_ID x =? card_ID c)%nat = true ↔ x = c).
Proof.
  intros Hid Hc Hi. simpl.
  assert ((card_ID x =? card_ID c)%nat = true ↔ x = c) as Hx.
  { rewrite Nat.eqb_eq. split; [|by intros ->].
    apply (NoDup_fmap_inj card_ID (rows db)); [done| |done].
    by eapply list_elem_of_lookup_2. }
  split; [|done].
  change (map ?f ?l) with (f <$> l). rewrite list_lookup_fmap, Hi. simpl.
  destruct (card_ID x =? card_ID c)%nat eqn:E; [|done].
  by rewrite (proj1 Hx eq_refl).
Qed.

(** Whatever the request, [AddCard] leaves no URL held by two rows. *)
Lemma AddCard_keeps_urls_unique scrape failure now ts db req :
  unique_urls db →
  unique_urls (AddCard scrape failure now ts db req).1.2.
Proof.
  intros Hu. unfold AddCard.
  destruct (getCardByURL db (req_URL req)) as [c|e].
  - destruct (String.eqb (card_Type c) (req_Type req)); [done|].
    pose proof (moveCard_urls ts db (card_ID c) (req_Type req)) as Hsame.
    destruct (moveCard ts db (card_ID c) (req_Type req)) as [[err|] db'];
      simpl in *; unfold unique_urls; by rewrite Hsame.
  - destruct (scrape req) as [info|e']; [|done].
    unfold insertCard.
    destruct (existsb _ (rows db)) eqn:E; [done|]. simpl.
    unfold unique_urls. simpl. rewrite map_app. simpl.
    apply NoDup_app. split; [done|]. split; [|apply NoDup_singleton].
    intros u Hin ->%list_elem_of_singleton.
    apply list_elem_of_fmap in Hin as (x & Hx & Hin).
    assert (existsb (λ c, String.eqb (card_CardURL c) (req_URL req))
                    (rows db) = true) as E'; [|simpl in E; congruence].
    apply existsb_exists. exists x. split; [by apply list_elem_of_In|].
    apply String.eqb_eq. by rewrite <- Hx.
Qed.

End StoreFacts.

(** C10. An [AddCard] request whose URL is already in the store scrapes
    nothing and inserts nothing: the rows keep their number and their
    URLs, so no URL comes to be held twice. If the stored card's type is
    the requested one the call returns the error "cette carte est déjà
    dans votre <type>" and the store is unchanged; otherwise the call
    returns the stored card with the requested type, and in the store the
    row of that card, and no other, has its type set to the requested one
    (and its last-update time refreshed). *)
Theorem AddCard_existing_url :
  ∀ (scrapeCardInfo : AddCardRequest → outcome ScrapedCardInfo)
    (scrapeFailureText : AddCardRequest → string → string)
    (now timestamp : string) (db : DB) (req : AddCardRequest) (c : Card),
    Props.unique_urls db →
    Props.unique_ids db →
    c ∈ rows db →
    card_CardURL c = req_URL req →
    ∃ r db',
      Store.AddCard scrapeCardInfo scrapeFailureText now timestamp db req
      = (r, db', [])
      ∧ length (rows db') = length (rows db)
      ∧ map card_CardURL (rows db') = map card_CardURL (rows db)
      ∧ Props.unique_urls db'
      ∧ (card_Type c = req_Type req →
         r = Err ("cette carte est déjà dans votre " +:+ req_Type req)
         ∧ db' = db)
      ∧ (card_Type c ≠ req_Type req →
         r = Ok (Store.with_Type c (req_Type req))
         ∧ card_Type (Store.with_Type c (req_Type req)) = req_Type req
         ∧ (∀ i, rows db !! i = Some c →
                 rows db' !! i
                 = Some (Props.moved c (req_Type req) timestamp))
         ∧ (∀ i x, rows db !! i = Some x → x ≠ c →
                   rows db' !! i = Some x)).
Proof.
  intros scrape failure now ts db req c Hurls Hids Hc Hurl.
  unfold Store.AddCard.
  rewrite (getCardByURL_present db (req_URL req) c Hurls Hc Hurl).
  destruct (String.eqb (card_Type c) (req_Type req)) eqn:E.
  - apply String.eqb_eq in E. exists (Err ("cette carte est déjà dans votre " +:+ req_Type req)), db.
    repeat split; try done.
  - apply String.eqb_neq in E.
    pose proof (moveCard_urls ts db (card_ID c) (req_Type req)) as Hsame.
    destruct (Store.moveCard ts db (card_ID c) (req_Type req))
      as [err db'] eqn:Em.
    assert (err = None) as -> by (by injection Em as <- _).
    assert (db' = snd (Store.moveCard ts db (card_ID c) (req_Type req)))
      as Hdb' by (by rewrite Em).
    simpl in Hsame. exists (Ok (Store.with_Type c (req_Type req))), db'.
    split; [done|].
    assert (map card_CardURL (rows db') = map card_CardURL (rows db)) as Hu.
    { rewrite Hdb'. apply moveCard_urls. }
    split; [rewrite <- (length_map card_CardURL), Hu; apply length_map|].
    split; [done|]. split; [unfold Props.unique_urls; by rewrite Hu|].
    split; [done|]. intros _. split; [done|]. split; [done|]. split.
    + intros i Hi. rewrite Hdb'.
      destruct (moveCard_lookup ts db c (req_Type req) i c Hids Hc Hi)
        as [-> _]. by rewrite Nat.eqb_refl.
    + intros i x Hi Hne. rewrite Hdb'.
      destruct (moveCard_lookup ts db c (req_Type req) i x Hids Hc Hi)
        as [-> Hx].
      destruct (card_ID x =? card_ID c)%nat; [|done].
      exfalso. apply Hne. by apply Hx.
Qed.

(** The stored wishlist card, requested for the collection. *)
Lemma AddCard_existing_url_witness :
  ∃ r db',
    Store.AddCard Props.any_scrape Store.scrapeFailure_app
      "2024-02-02 12:00:00" "2024-02-02 11:00:00"
      Props.one_card_store Props.nm_english
    = (r, db', [])
    ∧ length (rows db') = length (rows Props.one_card_store)
    ∧ map card_CardURL (rows db')
      = map card_CardURL (rows Props.one_card_store)
    ∧ Props.unique_urls db'
    ∧ (card_Type Props.stored_pikachu = req_Type Props.nm_english →
       r = Err ("cette carte est déjà dans votre "
                +:+ req_Type Props.nm_english)
       ∧ db' = Props.one_card_store)
    ∧ (card_Type Props.stored_pikachu ≠ req_Type Props.nm_english →
       r = Ok (Store.with_Type Props.stored_pikachu
                 (req_Type Props.nm_english))
       ∧ card_Type (Store.with_Type Props.stored_pikachu
                      (req_Type Props.nm_english))
         = req_Type Props.nm_english
       ∧ (∀ i, rows Props.one_card_store !! i = Some Props.stored_pikachu →
               rows db' !! i
               = Some (Props.moved Props.stored_pikachu
                         (req_Type Props.nm_english)
                         "2024-02-02 11:00:00"))
       ∧ (∀ i x, rows Props.one_card_store !! i = Some x →
                 x ≠ Props.stored_pikachu →
                 rows db' !! i = Some x)).
Proof.
  apply (AddCard_existing_url Props.any_scrape Store.scrapeFailure_app
           "2024-02-02 12:00:00" "2024-02-02 11:00:00"
           Props.one_card_store Props.nm_english Props.stored_pikachu).
  - unfold Props.unique_urls. simpl. apply NoDup_singleton.
  - unfold Props.unique_ids. simpl. apply NoDup_singleton.
  - simpl. apply list_elem_of_singleton. reflexivity.
  - reflexivity.
Defined.

(** ** The price pattern *)

Lemma append_cons c s t : String c s +:+ t = String c (s +:+ t).
Proof. reflexivity. Qed.

Lemma append_nil_l t : "" +:+ t = t.
Proof. reflexivity. Qed.

(** stdpp keeps [simpl] from unfolding string concatenation. *)
Ltac str_simpl := rewrite ?append_cons, ?append_nil_l; simpl.

Section RegexpFacts.
Import GoStrings Regexp Strconv Price Props.

Lemma append_nil_r s : s +:+ "" = s.
Proof. induction s as [|c s IH]; str_simpl; [done|]. by rewrite IH. Qed.

Lemma append_assoc s1 s2 s3 : (s1 +:+ s2) +:+ s3 = s1 +:+ (s2 +:+ s3).
Proof. induction s1 as [|c s1 IH]; str_simpl; [done|]. by rewrite IH. Qed.

Lemma length_append s1 s2 :
  String.length (s1 +:+ s2) = String.length s1 + String.length s2.
Proof. induction s1 as [|c s1 IH]; str_simpl; [done|]. by rewrite IH. Qed.

Lemma all_chars_app p s1 s2 :
  all_chars p (s1 +:+ s2) = all_chars p s1 && all_chars p s2.
Proof.
  induction s1 as [|c s1 IH]; str_simpl; [done|].
  by rewrite IH, andb_assoc.
Qed.

Lemma take_bytes_app s1 s2 :
  take_bytes (String.length s1) (s1 +:+ s2) = s1.
Proof.
  induction s1 as [|c s1 IH]; str_simpl; [by destruct s2|]. by rewrite IH.
Qed.

(** A successful run consumed a prefix made of bytes of the pattern's
    classes and handed the rest to the continuation. *)
Lemma run_consumes p r :
  classes_within p r →
  ∀ s k rest, run r s k = Some rest →
    ∃ pre s1, s = pre +:+ s1 ∧ all_chars p pre = true ∧ k s1 = Some rest.
Proof.
  induction r as [q|a IHa b IHb|a IHa|a IHa]; simpl.
  - intros Hq [|c s] k rest; [done|].
    destruct (q c) eqn:E; [|done]. intros H.
    exists (String c ""), s. str_simpl. by rewrite (Hq c E).
  - intros [Ha Hb] s k rest H.
    destruct (IHa Ha _ _ _ H) as (pre1 & s1 & -> & Hp1 & H1).
    destruct (IHb Hb _ _ _ H1) as (pre2 & s2 & -> & Hp2 & H2).
    exists (pre1 +:+ pre2), s2.
    by rewrite append_assoc, all_chars_app, Hp1, Hp2.
  - intros Ha s k rest H.
    destruct (run a s k) as [r'|] eqn:E.
    + injection H as ->. by apply (IHa Ha).
    + exists "", s. by str_simpl.
  - intros Ha s k. generalize (String.length s) as fuel. intros fuel.
    revert s. induction fuel as [|fuel IH]; intros s rest H; simpl in H.
    + exists "", s. by str_simpl.
    + destruct (run a s _) as [r'|] eqn:E.
      * injection H as ->.
        destruct (IHa Ha _ _ _ E) as (pre1 & s1 & -> & Hp1 & H1).
        destruct (String.length s1 <? String.length (pre1 +:+ s1))%nat;
          [|done].
        destruct (IH _ _ H1) as (pre2 & s2 & -> & Hp2 & H2).
        exists (pre1 +:+ pre2), s2.
        by rewrite append_assoc, all_chars_app, Hp1, Hp2.
      * exists "", s. by str_simpl.
Qed.

Lemma price_re_classes : classes_within numeric_char price_re.
Proof.
  unfold numeric_char. simpl.
  repeat split; intros c H; rewrite H; by rewrite ?orb_true_r.
Qed.

(** The anchored match: a digit, then bytes of the pattern's classes. *)
Lemma match_here_price s m :
  match_here price_re s = Some m →
  ∃ c m' rest, m = String c m' ∧ s = m +:+ rest
               ∧ is_digit c = true ∧ all_chars numeric_char m' = true.
Proof.
  unfold match_here. destruct (run price_re s Some) as [rest|] eqn:E; [|done].
  intros [= <-]. destruct s as [|c s]; [done|].
  simpl in E. destruct (is_digit c) eqn:Ec; [|done].
  change (run (Cat (Opt (Cat d (Opt d)))
                   (Cat (Star (Cat sep (Rep3 d)))
                        (Opt (Cat sep (Rep1to2 d))))) s Some = Some rest) in E.
  eapply (run_consumes numeric_char) in E as (pre & s1 & -> & Hp & [= ->]).
  - exists c, pre, rest.
    assert (String.length (String c (pre +:+ rest)) - String.length rest
            = String.length (String c pre)) as ->.
    { simpl. rewrite length_append. lia. }
    change (String c (pre +:+ rest)) with (String c pre +:+ rest).
    by rewrite take_bytes_app.
  - unfold numeric_char. simpl.
    repeat split; intros x H; rewrite H; by rewrite ?orb_true_r.
Qed.

(** The token starts with a digit and consists of digits, '.' and ','. *)
Lemma token_shape text tok :
  token text = Some tok →
  ∃ c tok', tok = String c tok' ∧ is_digit c = true
            ∧ all_chars numeric_char tok' = true.
Proof.
  unfold token. induction text as [|x text IH]; unfold find; fold find.
  - destruct (match_here price_re "") as [m|] eqn:E; [|done].
    intros [= <-]. destruct (match_here_price _ _ E) as (c&m'&r&?&?&?&?).
    by exists c, m'.
  - destruct (match_here price_re (String x text)) as [m|] eqn:E; [|done].
    intros [= <-]. destruct (match_here_price _ _ E) as (c&m'&r&?&?&?&?).
    by exists c, m'.
Qed.

Lemma FindStringSubmatch_token text :
  FindStringSubmatch text
  = match token text with Some tok => [tok; tok] | None => [] end.
Proof. reflexivity. Qed.

End RegexpFacts.

(** ** Go's string functions on texts cut at a separator *)

Section StringFacts.
Import GoStrings Regexp Strconv Price Props.

Lemma byte_eqb_eq a b : byte_eqb a b = true ↔ a = b.
Proof. apply Ascii.eqb_eq. Qed.

Lemma digit_not_dot c : is_digit c = true → byte_eqb c "." = false.
Proof.
  intros H. destruct (byte_eqb c ".") eqn:E; [|done].
  apply byte_eqb_eq in E. by subst.
Qed.

Lemma digit_not_comma c : is_digit c = true → byte_eqb c "," = false.
Proof.
  intros H. destruct (byte_eqb c ",") eqn:E; [|done].
  apply byte_eqb_eq in E. by subst.
Qed.

Lemma all_digits_all_chars s : all_digits s = all_chars is_digit s.
Proof. induction s as [|c s IH]; simpl; [done|]. by rewrite IH. Qed.

Lemma Contains_app s t c : Contains (s +:+ t) c = Contains s c || Contains t c.
Proof.
  induction s as [|x s IH]; str_simpl; [done|]. by rewrite IH, orb_assoc.
Qed.

Lemma Count_app s t c : Count (s +:+ t) c = Count s c + Count t c.
Proof. induction s as [|x s IH]; str_simpl; [done|]. rewrite IH. lia. Qed.

Lemma Count_absent s c : Contains s c = false → Count s c = 0.
Proof.
  induction s as [|x s IH]; simpl; [done|].
  intros [-> ?]%orb_false_iff. auto.
Qed.

Lemma RemoveAll_app s t c :
  RemoveAll (s +:+ t) c = RemoveAll s c +:+ RemoveAll t c.
Proof.
  induction s as [|x s IH]; str_simpl; [done|].
  destruct (byte_eqb x c); [done|]. by rewrite IH.
Qed.

Lemma RemoveAll_absent s c : Contains s c = false → RemoveAll s c = s.
Proof.
  induction s as [|x s IH]; simpl; [done|].
  intros [-> ?]%orb_false_iff. f_equal. auto.
Qed.

Lemma Contains_RemoveAll s c : Contains (RemoveAll s c) c = false.
Proof.
  induction s as [|x s IH]; simpl; [done|].
  destruct (byte_eqb x c) eqn:E; [done|]. simpl. by rewrite E.
Qed.

Lemma ReplaceFirst_absent s c d :
  Contains s c = false → ReplaceFirst s c d = s.
Proof.
  induction s as [|x s IH]; simpl; [done|].
  intros [-> ?]%orb_false_iff. f_equal. auto.
Qed.

Lemma ReplaceFirst_cut a b c d :
  Contains a c = false →
  ReplaceFirst (a +:+ String c b) c d = a +:+ String d b.
Proof.
  induction a as [|x a IH]; str_simpl.
  - intros _. by rewrite (proj2 (byte_eqb_eq c c)).
  - intros [-> ?]%orb_false_iff. f_equal. auto.
Qed.

Lemma Split_absent s c : Contains s c = false → Split s c = [s].
Proof.
  induction s as [|x s IH]; simpl; [done|].
  intros [-> H]%orb_false_iff. by rewrite (IH H).
Qed.

Lemma Split_cut a b c :
  Contains a c = false → Split (a +:+ String c b) c = a :: Split b c.
Proof.
  induction a as [|x a IH]; str_simpl.
  - intros _. by rewrite (proj2 (byte_eqb_eq c c)).
  - intros [-> H]%orb_false_iff. by rewrite (IH H).
Qed.

Lemma Split_length s c : length (Split s c) = S (Count s c).
Proof.
  induction s as [|x s IH]; simpl; [done|].
  destruct (byte_eqb x c); simpl; [by rewrite IH|].
  destruct (Split s c); simpl in *; lia.
Qed.

(** In a text of digits and separators: what is left once the dots are
    removed, and when it is all digits. *)
Lemma numeric_no_sep_digits s :
  all_chars numeric_char s = true →
  Contains s "." = false → Contains s "," = false →
  all_digits s = true.
Proof.
  induction s as [|x s IH]; simpl; [done|].
  intros [Hx Hs]%andb_true_iff [Hd ?]%orb_false_iff [Hc ?]%orb_false_iff.
  rewrite IH by done. unfold numeric_char, is_sep in Hx.
  rewrite Hd, Hc in Hx. simpl in Hx. by rewrite orb_false_r in Hx; rewrite Hx.
Qed.

Lemma numeric_RemoveAll_dot s :
  all_chars numeric_char s = true →
  all_chars numeric_char (RemoveAll s ".") = true
  ∧ Contains (RemoveAll s ".") "," = Contains s ",".
Proof.
  induction s as [|x s IH]; simpl; [done|].
  intros [Hx Hs]%andb_true_iff. destruct (IH Hs) as [IH1 IH2].
  destruct (byte_eqb x ".") eqn:E; simpl.
  - apply byte_eqb_eq in E. subst x. by simpl.
  - by rewrite Hx, IH1, IH2.
Qed.

Lemma digits_no_sep s :
  all_digits s = true → Contains s "." = false ∧ Contains s "," = false.
Proof.
  induction s as [|x s IH]; simpl; [done|].
  intros [Hx Hs]%andb_true_iff. destruct (IH Hs) as [-> ->].
  by rewrite (digit_not_dot _ Hx), (digit_not_comma _ Hx).
Qed.

(** [ParseFloat] on a run of digits, and on two runs around a point. *)
Lemma ParseFloat_integer s :
  all_digits s = true → s ≠ "" →
  ParseFloat s = to_float64 (decimal_value s "").
Proof.
  intros Hd Hne. unfold ParseFloat.
  rewrite Split_absent by (by apply digits_no_sep).
  rewrite Hd. by apply String.eqb_neq in Hne as ->.
Qed.

Lemma ParseFloat_point a b :
  all_digits a = true → a ≠ "" → Contains b "." = false →
  ParseFloat (a +:+ String "." b)
  = if all_digits b then to_float64 (decimal_value a b) else None.
Proof.
  intros Hd Hne Hb. unfold ParseFloat.
  rewrite Split_cut by (by apply digits_no_sep).
  rewrite (Split_absent b) by done. rewrite Hd. simpl.
  destruct (all_digits b); [|done].
  destruct a as [|x a]; [done|]. by str_simpl.
Qed.

Lemma ParseFloat_points s :
  (2 ≤ Count s ".")%nat → ParseFloat s = None.
Proof.
  intros H. unfold ParseFloat. pose proof (Split_length s ".") as Hl.
  destruct (Split s ".") as [|? [|? [|? ?]]]; simpl in Hl; try done; lia.
Qed.

Lemma Contains_cut a x b c :
  Contains (a +:+ String x b) c
  = Contains a c || (byte_eqb x c || Contains b c).
Proof. by rewrite Contains_app. Qed.

Lemma Count_cut a x b c :
  Count (a +:+ String x b) c
  = Count a c + ((if byte_eqb x c then 1 else 0) + Count b c).
Proof. by rewrite Count_app. Qed.

Lemma RemoveAll_cut a x b c :
  RemoveAll (a +:+ String x b) c
  = RemoveAll a c +:+ (if byte_eqb x c then RemoveAll b c
                       else String x (RemoveAll b c)).
Proof. by rewrite RemoveAll_app. Qed.

Lemma RemoveAll_keeps_head x s c :
  byte_eqb x c = false → RemoveAll (String x s) c ≠ "".
Proof. intros H. simpl. by rewrite H. Qed.

End StringFacts.

(** ** The pattern and the scanner agree *)

Section ScannerFacts.
Import GoStrings Regexp Strconv Price Props.

Lemma prefer_first (k : string → option string) x y :
  total k →
  match k x with Some rest => Some rest | None => k y end = k x.
Proof. intros H. by destruct (H x) as [r ->]. Qed.

Lemma take_digits_split n s :
  s = (take_digits n s).1 +:+ (take_digits n s).2.
Proof.
  revert s. induction n as [|n IH]; intros [|c s]; simpl; try done.
  destruct (is_digit c); [|done].
  specialize (IH s). destruct (take_digits n s) as [ds r]. simpl in *.
  rewrite append_cons. by f_equal.
Qed.

Lemma groups_split s : s = (groups s).1 +:+ (groups s).2.
Proof.
  assert (∀ (n : nat) s, (String.length s ≤ n)%nat →
                     s = (groups s).1 +:+ (groups s).2)
    as H; [|by apply (H (String.length s))].
  clear s. induction n as [|n IH]; intros s Hlen.
  - destruct s; [done|simpl in Hlen; lia].
  - destruct s as [|c [|d1 [|d2 [|d3 r]]]]; simpl; try done.
    destruct (is_sep c && is_digit d1 && is_digit d2 && is_digit d3);
      [|done].
    assert (r = (groups r).1 +:+ (groups r).2) as Hr
      by (apply IH; simpl in Hlen; lia).
    destruct (groups r) as [g rest]. simpl in *.
    rewrite !append_cons. by do 4 f_equal.
Qed.

Lemma decimals_split s : s = (decimals s).1 +:+ (decimals s).2.
Proof.
  destruct s as [|c [|d1 r]]; simpl; try done.
  destruct (is_sep c && is_digit d1); [|done].
  destruct r as [|d2 r]; [done|]. by destruct (is_digit d2).
Qed.

(** [(?:[.,]\d{1,2})?] *)
Lemma run_decimals s :
  run (Opt (Cat sep (Rep1to2 d))) s Some = Some (decimals s).2.
Proof.
  destruct s as [|c [|d1 r]]; simpl; try done.
  - by destruct (is_sep c).
  - destruct (is_sep c); simpl; [|done].
    destruct (is_digit d1); simpl; [|done].
    destruct r as [|d2 r]; [done|]. by destruct (is_digit d2).
Qed.

(** [(?:[.,]\d{3})*], before a continuation that cannot fail. *)
Lemma run_groups k fuel s :
  total k → (String.length s ≤ fuel)%nat →
  star_loop (run (Cat sep (Rep3 d))) k fuel s = k (groups s).2.
Proof.
  intros Hk. revert s. induction fuel as [|fuel IH]; intros s Hlen.
  - destruct s; [done|simpl in Hlen; lia].
  - cbn [star_loop].
    destruct s as [|c [|d1 [|d2 [|d3 r]]]]; simpl.
    + done.
    + by destruct (is_sep c).
    + destruct (is_sep c); [|done]. by destruct (is_digit d1).
    + destruct (is_sep c); [|done]. destruct (is_digit d1); [|done].
      by destruct (is_digit d2).
    + destruct (is_sep c); [|done]. destruct (is_digit d1); [|done].
      destruct (is_digit d2); [|done]. destruct (is_digit d3); [|done].
      simpl.
      assert ((String.length r <? S (S (S (S (String.length r)))))%nat
              = true) as -> by (apply Nat.ltb_lt; lia).
      rewrite IH by (simpl in Hlen; lia).
      destruct (groups r) as [g rest]. simpl.
      by destruct (Hk rest) as [x ->].
Qed.

(** [\d{1,3}], before a continuation that cannot fail. *)
Lemma run_lead k c s :
  total k → is_digit c = true →
  run (Rep1to3 d) (String c s) k = k (take_digits 3 (String c s)).2.
Proof.
  intros Hk Hc.
  destruct s as [|c2 [|c3 s]]; simpl; rewrite Hc; simpl;
    try destruct (is_digit c2); try destruct (is_digit c3); simpl;
    by rewrite ?(prefer_first k) by done.
Qed.

Lemma total_decimals : total (λ s, run (Opt (Cat sep (Rep1to2 d))) s Some).
Proof. intros s. rewrite run_decimals. by eexists. Qed.

Lemma total_groups_decimals :
  total (λ s, run (Cat (Star (Cat sep (Rep3 d)))
                       (Opt (Cat sep (Rep1to2 d)))) s Some).
Proof.
  intros s.
  change (run (Cat (Star (Cat sep (Rep3 d))) (Opt (Cat sep (Rep1to2 d))))
            s Some)
    with (star_loop (run (Cat sep (Rep3 d)))
            (λ s2, run (Opt (Cat sep (Rep1to2 d))) s2 Some)
            (String.length s) s).
  rewrite run_groups; [|apply total_decimals|done].
  apply total_decimals.
Qed.

(** The anchored match at a digit is the number the scanner reads. *)
Lemma match_here_digit c s :
  is_digit c = true →
  match_here price_re (String c s) = Some (number_at (String c s)).
Proof.
  intros Hc. unfold match_here.
  change (run price_re (String c s) Some)
    with (run (Rep1to3 d) (String c s)
            (λ s1, run (Cat (Star (Cat sep (Rep3 d)))
                            (Opt (Cat sep (Rep1to2 d)))) s1 Some)).
  rewrite (run_lead _ c s total_groups_decimals Hc).
  set (r0 := (take_digits 3 (String c s)).2).
  change (run (Cat (Star (Cat sep (Rep3 d))) (Opt (Cat sep (Rep1to2 d))))
            r0 Some)
    with (star_loop (run (Cat sep (Rep3 d)))
            (λ s2, run (Opt (Cat sep (Rep1to2 d))) s2 Some)
            (String.length r0) r0).
  rewrite run_groups; [|apply total_decimals|done].
  rewrite run_decimals. unfold number_at. subst r0.
  pose proof (take_digits_split 3 (String c s)) as H1.
  destruct (take_digits 3 (String c s)) as [ds r]. simpl in H1 |- *.
  pose proof (groups_split r) as H2.
  destruct (groups r) as [g r1]. simpl in H2 |- *.
  pose proof (decimals_split r1) as H3.
  destruct (decimals r1) as [t rest]. simpl in H3 |- *.
  f_equal. subst r1 r.
  change (S (String.length s)) with (String.length (String c s)).
  rewrite H1.
  replace (ds +:+ g +:+ t +:+ rest) with ((ds +:+ g +:+ t) +:+ rest)
    by (by rewrite !append_assoc).
  assert (String.length ((ds +:+ g +:+ t) +:+ rest) - String.length rest
          = String.length (ds +:+ g +:+ t)) as ->
    by (rewrite (length_append _ rest); lia).
  apply take_bytes_app.
Qed.

(** [FindStringSubmatch] returns the number that starts at the first digit
    of the text: up to three digits, then every following group of a
    separator and three digits, then a separator with one or two digits
    if one follows. *)
Lemma token_first_number text : token text = first_number text.
Proof.
  unfold token. induction text as [|c text IH]; [done|].
  unfold find; fold find. simpl first_number.
  destruct (is_digit c) eqn:Hc.
  - by rewrite match_here_digit.
  - by rewrite match_here_no_digit.
Qed.

End ScannerFacts.

(** ** The price normaliser *)

Section PriceFacts.
Import GoStrings Regexp Strconv Price Props.

Lemma extractNumericPrice_token text tok :
  FindStringSubmatch text = [tok; tok] →
  token text = Some tok
  ∧ extractNumericPrice text
    = default 0%Q (ParseFloat (normalizeSeparators text tok)).
Proof.
  unfold extractNumericPrice. rewrite FindStringSubmatch_token.
  destruct (token text) as [m|]; [|done]. intros [= ->]. split; [done|].
  by destruct (ParseFloat _).
Qed.

Lemma cut_shape a b x tok :
  tok = a +:+ String x b → is_digit x = false →
  (∃ c tok', tok = String c tok' ∧ is_digit c = true
             ∧ all_chars numeric_char tok' = true) →
  a ≠ "" ∧ all_chars numeric_char a = true ∧ all_chars numeric_char b = true
  ∧ ∃ c a', a = String c a' ∧ is_digit c = true.
Proof.
  intros -> Hx (c & tok' & E & Hc & Hn).
  destruct a as [|y a]; rewrite ?append_cons, ?append_nil_l in E.
  - injection E as -> _. congruence.
  - injection E as -> <-.
    rewrite all_chars_app in Hn. simpl in Hn.
    apply andb_true_iff in Hn as [Ha [_ Hb]%andb_true_iff].
    repeat split; try done.
    + simpl. unfold numeric_char at 1. by rewrite Hc, Ha.
    + by exists c, a.
Qed.

(** A comma in the token: it becomes the decimal point, the dots go. *)
Lemma comma_is_decimal text tok a b :
  FindStringSubmatch text = [tok; tok] →
  tok = a +:+ String "," b → Contains a "," = false →
  extractNumericPrice text
  = if Contains b "," then 0%Q
    else price_of (decimal_value (RemoveAll a ".") (RemoveAll b ".")).
Proof.
  intros [Ht ->]%extractNumericPrice_token Hcut Ha.
  destruct (cut_shape a b "," tok Hcut eq_refl (token_shape _ _ Ht))
    as (Hne & Hna & Hnb & c & a' & Ea & Hc).
  destruct (numeric_RemoveAll_dot _ Hna) as [HA1 HA2].
  destruct (numeric_RemoveAll_dot _ Hnb) as [HB1 HB2].
  assert (byte_eqb "," "." = false) as Hcd by reflexivity.
  assert (byte_eqb "," "," = true) as Hcc by reflexivity.
  assert (normalizeSeparators text tok
          = RemoveAll a "." +:+ String "." (RemoveAll b ".")) as ->.
  { unfold normalizeSeparators. subst tok.
    rewrite !Contains_cut, Count_cut, Hcd, Hcc, Ha. simpl orb.
    rewrite ?orb_true_r, ?andb_true_r. simpl Nat.add.
    destruct (Contains a "." || Contains b ".") eqn:E.
    - rewrite RemoveAll_cut, Hcd. apply ReplaceFirst_cut. by rewrite HA2.
    - apply orb_false_iff in E as [E1 E2].
      rewrite (Count_absent _ _ E1), (Count_absent _ _ E2). simpl.
      rewrite (RemoveAll_absent _ _ E1), (RemoveAll_absent _ _ E2).
      by apply ReplaceFirst_cut. }
  rewrite ParseFloat_point.
  - assert (all_digits (RemoveAll b ".") = negb (Contains b ",")) as ->.
    { rewrite <- HB2. destruct (Contains (RemoveAll b ".") ",") eqn:E; simpl.
      - destruct (all_digits (RemoveAll b ".")) eqn:E'; [|done].
        apply digits_no_sep in E' as [_ E']. congruence.
      - apply numeric_no_sep_digits; [done| |done]. apply Contains_RemoveAll. }
    by destruct (Contains b ",").
  - apply numeric_no_sep_digits; [done|apply Contains_RemoveAll|].
    by rewrite HA2.
  - subst a. apply RemoveAll_keeps_head. by apply digit_not_dot.
  - apply Contains_RemoveAll.
Qed.

(** One dot and no comma in the token: thousands when three digits follow
    and the text has no comma, the decimal point otherwise. *)
Lemma lone_dot text tok a b :
  FindStringSubmatch text = [tok; tok] →
  tok = a +:+ String "." b →
  Contains tok "," = false → Contains a "." = false → Contains b "." = false →
  extractNumericPrice text
  = if (String.length b =? 3)%nat && negb (Contains text ",")
    then price_of (decimal_value (a +:+ b) "")
    else price_of (decimal_value a b).
Proof.
  intros [Ht ->]%extractNumericPrice_token Hcut Hc Ha Hb.
  destruct (cut_shape a b "." tok Hcut eq_refl (token_shape _ _ Ht))
    as (Hne & Hna & Hnb & _).
  assert (byte_eqb "." "." = true) as Hdd by reflexivity.
  assert (byte_eqb "." "," = false) as Hdc by reflexivity.
  subst tok. rewrite Contains_cut, Hdc in Hc.
  apply orb_false_iff in Hc as [Hca Hcb]. simpl in Hcb.
  assert (all_digits a = true) as Hda by by apply numeric_no_sep_digits.
  assert (all_digits b = true) as Hdb by by apply numeric_no_sep_digits.
  unfold normalizeSeparators.
  rewrite !Contains_cut, Count_cut, Hdd, Hdc, Hca, Hcb.
  rewrite ?orb_true_r, ?orb_false_r, ?andb_false_r.
  rewrite (Count_absent _ _ Ha), (Count_absent _ _ Hb). simpl.
  rewrite Split_cut, (Split_absent b) by done. simpl.
  destruct ((String.length b =? 3)%nat && negb (Contains text ",")).
  - rewrite RemoveAll_cut, Hdd.
    rewrite (RemoveAll_absent _ _ Ha), (RemoveAll_absent _ _ Hb).
    rewrite ParseFloat_integer; [done| |].
    + by rewrite all_digits_all_chars, all_chars_app,
        <- !all_digits_all_chars, Hda, Hdb.
    + destruct a; [done|]. by str_simpl.
  - rewrite ParseFloat_point by done. by rewrite Hdb.
Qed.

(** No separator in the token: the digits are the price. *)
Lemma no_separator text tok :
  FindStringSubmatch text = [tok; tok] →
  Contains tok "." = false → Contains tok "," = false →
  extractNumericPrice text = price_of (decimal_value tok "").
Proof.
  intros [Ht ->]%extractNumericPrice_token Hd Hc.
  destruct (token_shape _ _ Ht) as (c & tok' & -> & Hx & Hn).
  unfold normalizeSeparators.
  rewrite Hd, Hc, (Count_absent _ _ Hd). simpl.
  rewrite ParseFloat_integer; [done| |done].
  apply numeric_no_sep_digits; [|done|done].
  simpl. unfold numeric_char at 1. by rewrite Hx, Hn.
Qed.

(** Several dots and no comma: the conversion fails. *)
Lemma several_dots text tok :
  FindStringSubmatch text = [tok; tok] →
  Contains tok "," = false → (2 ≤ Count tok ".")%nat →
  extractNumericPrice text = 0%Q.
Proof.
  intros [Ht ->]%extractNumericPrice_token Hc Hn.
  unfold normalizeSeparators. rewrite Hc, andb_false_r.
  destruct (Count tok "." =? 1)%nat eqn:E;
    [apply Nat.eqb_eq in E; lia|].
  by rewrite ParseFloat_points.
Qed.

End PriceFacts.

(** C1, against the claim. With both separators in "1,234.56" the
    rightmost one, the dot, is not taken as the decimal separator: the
    dots are removed and the comma becomes the point, which gives 1.23456
    and not 1234.56. (And of "1234.56€" the pattern matches "123" only, so
    the result is 123 and not 1234.56.) *)
Lemma extractNumericPrice_rightmost_separator :
  Price.FindStringSubmatch "1,234.56" = ["1,234.56"; "1,234.56"]
  ∧ (Price.extractNumericPrice "1,234.56" == 1.23456)%Q
  ∧ ¬ (Price.extractNumericPrice "1,234.56" == 1234.56)%Q
  ∧ Price.FindStringSubmatch "1234.56€" = ["123"; "123"]
  ∧ (Price.extractNumericPrice "1234.56€" == 123)%Q
  ∧ ¬ (Price.extractNumericPrice "1234.56€" == 1234.56)%Q.
Proof.
  split; [by vm_compute|]. split; [by vm_compute|].
  split; [by vm_compute|]. split; [by vm_compute|].
  split; by vm_compute.
Qed.

(** C1, as amended. Let [tok] be the text the pattern matches in the price
    string. When [tok] holds a comma, the first comma is the decimal
    separator and every dot is stripped as thousands grouping, whichever
    of the two comes last (a second comma makes the conversion fail: 0.0).
    When [tok] holds one dot and no comma, the dot is the decimal
    separator unless exactly three digits follow it and the price string
    has no comma anywhere, in which case it is stripped as thousands
    grouping. Without a separator the digits are the value. (Two or more
    dots and no comma: the conversion fails, 0.0; a value beyond the range
    of float64 is 0.0 as well.) In particular the result is 3.50 for
    "3,50 €", 15000.00 for "15.000,00€" and 15000.00 for "15.000€". *)
Theorem extractNumericPrice_separator_rule :
  ∀ (priceText tok : string),
    Price.FindStringSubmatch priceText = [tok; tok] →
    (∀ a b, tok = a +:+ String "," b →
            GoStrings.Contains a "," = false →
            Price.extractNumericPrice priceText
            = if GoStrings.Contains b "," then 0%Q
              else Props.price_of
                     (Strconv.decimal_value (GoStrings.RemoveAll a ".")
                                            (GoStrings.RemoveAll b ".")))
    ∧ (∀ a b, tok = a +:+ String "." b →
              GoStrings.Contains tok "," = false →
              GoStrings.Contains a "." = false →
              GoStrings.Contains b "." = false →
              Price.extractNumericPrice priceText
              = if (String.length b =? 3)%nat
                   && negb (GoStrings.Contains priceText ",")
                then Props.price_of (Strconv.decimal_value (a +:+ b) "")
                else Props.price_of (Strconv.decimal_value a b))
    ∧ (GoStrings.Contains tok "." = false →
       GoStrings.Contains tok "," = false →
       Price.extractNumericPrice priceText
       = Props.price_of (Strconv.decimal_value tok ""))
    ∧ (GoStrings.Contains tok "," = false →
       (2 ≤ GoStrings.Count tok ".")%nat →
       Price.extractNumericPrice priceText = 0%Q)
    ∧ (Price.extractNumericPrice "3,50 €" == 3.50)%Q
    ∧ (Price.extractNumericPrice "15.000,00€" == 15000.00)%Q
    ∧ (Price.extractNumericPrice "15.000€" == 15000.00)%Q.
Proof.
  intros priceText tok Htok.
  split; [intros a b; by apply comma_is_decimal|].
  split; [intros a b; by apply lone_dot|].
  split; [by apply no_separator|].
  split; [by apply several_dots|].
  split; [by vm_compute|]. split; by vm_compute.
Qed.

(** The rule at "15.000,00€". *)
Lemma extractNumericPrice_separator_rule_witness :
  (∀ a b, "15.000,00" = a +:+ String "," b →
          GoStrings.Contains a "," = false →
          Price.extractNumericPrice "15.000,00€"
          = if GoStrings.Contains b "," then 0%Q
            else Props.price_of
                   (Strconv.decimal_value (GoStrings.RemoveAll a ".")
                                          (GoStrings.RemoveAll b ".")))
  ∧ (∀ a b, "15.000,00" = a +:+ String "." b →
            GoStrings.Contains "15.000,00" "," = false →
            GoStrings.Contains a "." = false →
            GoStrings.Contains b "." = false →
            Price.extractNumericPrice "15.000,00€"
            = if (String.length b =? 3)%nat
                 && negb (GoStrings.Contains "15.000,00€" ",")
              then Props.price_of (Strconv.decimal_value (a +:+ b) "")
              else Props.price_of (Strconv.decimal_value a b))
  ∧ (GoStrings.Contains "15.000,00" "." = false →
     GoStrings.Contains "15.000,00" "," = false →
     Price.extractNumericPrice "15.000,00€"
     = Props.price_of (Strconv.decimal_value "15.000,00" ""))
  ∧ (GoStrings.Contains "15.000,00" "," = false →
     (2 ≤ GoStrings.Count "15.000,00" ".")%nat →
     Price.extractNumericPrice "15.000,00€" = 0%Q)
  ∧ (Price.extractNumericPrice "3,50 €" == 3.50)%Q
  ∧ (Price.extractNumericPrice "15.000,00€" == 15000.00)%Q
  ∧ (Price.extractNumericPrice "15.000€" == 15000.00)%Q.
Proof.
  apply (extractNumericPrice_separator_rule "15.000,00€" "15.000,00").
  vm_compute. reflexivity.
Defined.

(** * Further properties of the code *)

(** ** The price normaliser, beyond the separator rule *)

Section PriceMore.
Import GoStrings Regexp Strconv Price Props.

Lemma find_skips_no_digit pre text :
  has_digit pre = false →
  find price_re (pre +:+ text) = find price_re text.
Proof.
  induction pre as [|c pre IH]; str_simpl; [done|].
  intros [Hc Hp]%orb_false_iff.
  unfold find; fold find. rewrite (match_here_no_digit _ _ Hc). auto.
Qed.

Lemma digit_val_range c : is_digit c = true → (0 ≤ digit_val c ≤ 9)%Z.
Proof.
  unfold is_digit, digit_val. intros [H1 H2]%andb_true_iff.
  apply N.leb_le in H1, H2. lia.
Qed.

Lemma digits_from_nonneg s acc :
  all_digits s = true → (0 ≤ acc)%Z → (0 ≤ digits_from acc s)%Z.
Proof.
  revert acc. induction s as [|c s IH]; simpl; intros acc; [done|].
  intros [Hc Hs]%andb_true_iff Hacc. apply IH; [done|].
  pose proof (digit_val_range c Hc). lia.
Qed.

Lemma decimal_value_nonneg ip fp :
  all_digits (ip +:+ fp) = true → (0 <= decimal_value ip fp)%Q.
Proof.
  intros H. unfold decimal_value. rewrite Qred_correct.
  unfold Qle. simpl. rewrite Z.mul_1_r.
  by apply digits_from_nonneg.
Qed.

Lemma all_digits_app a b :
  all_digits (a +:+ b) = all_digits a && all_digits b.
Proof. by rewrite !all_digits_all_chars, all_chars_app. Qed.

Lemma ParseFloat_nonneg s v : ParseFloat s = Some v → (0 <= v)%Q.
Proof.
  unfold ParseFloat, to_float64.
  destruct (Split s ".") as [|ip [|fp [|? ?]]]; try done.
  - destruct (all_digits ip) eqn:E; simpl; [|done].
    destruct (negb _); [|done].
    destruct (in_float64_range _); [|done]. intros [= <-].
    apply decimal_value_nonneg. by rewrite append_nil_r.
  - destruct (all_digits ip) eqn:E1; simpl; [|done].
    destruct (all_digits fp) eqn:E2; simpl; [|done].
    destruct (negb _); [|done].
    destruct (in_float64_range _); [|done]. intros [= <-].
    apply decimal_value_nonneg. by rewrite all_digits_app, E1, E2.
Qed.

Lemma digit_not_sep c : is_digit c = true → is_sep c = false.
Proof.
  intros H. unfold is_sep.
  by rewrite (digit_not_dot _ H), (digit_not_comma _ H).
Qed.

Lemma groups_at_digit c s :
  is_digit c = true → groups (String c s) = ("", String c s).
Proof.
  intros Hs%digit_not_sep.
  destruct s as [|x1 [|x2 [|x3 r]]]; cbn [groups]; by rewrite ?Hs.
Qed.

Lemma decimals_at_digit c s :
  is_digit c = true → decimals (String c s) = ("", String c s).
Proof.
  intros Hs%digit_not_sep.
  destruct s as [|x1 r]; cbn [decimals]; by rewrite ?Hs.
Qed.

End PriceMore.

(** X1. The pattern of [extractNumericPrice] reads the number that starts at
    the first digit of the text: up to three digits, then every following
    group of a separator and three digits, then a separator with one or
    two digits if one follows; no match when the text has no digit. *)
Theorem FindStringSubmatch_first_number :
  ∀ (priceText : string),
    Price.FindStringSubmatch priceText
    = match Props.first_number priceText with
      | Some tok => [tok; tok]
      | None => []
      end.
Proof.
  intros priceText. rewrite FindStringSubmatch_token.
  by rewrite token_first_number.
Qed.

(** X2. [extractNumericPrice] never returns a negative price: a sign in front
    of the number is not read. *)
Theorem extractNumericPrice_nonneg :
  ∀ (priceText : string), (0 <= Price.extractNumericPrice priceText)%Q.
Proof.
  intros priceText. unfold Price.extractNumericPrice.
  destruct (Price.FindStringSubmatch priceText) as [|? [|m1 ?]]; try done.
  destruct (Strconv.ParseFloat _) as [v|] eqn:E; [|done].
  by eapply ParseFloat_nonneg.
Qed.

(** X3. Text in front of the first digit does not change the price, as long
    as it holds no comma. *)
Theorem extractNumericPrice_prefix :
  ∀ (pre priceText : string),
    Props.has_digit pre = false →
    GoStrings.Contains pre "," = false →
    Price.extractNumericPrice (pre +:+ priceText)
    = Price.extractNumericPrice priceText.
Proof.
  intros pre priceText Hd Hc.
  unfold Price.extractNumericPrice, Price.FindStringSubmatch.
  rewrite (find_skips_no_digit _ _ Hd).
  destruct (Regexp.find Price.price_re priceText) as [tok|]; [|done].
  unfold Price.normalizeSeparators. by rewrite Contains_app, Hc.
Qed.

Lemma extractNumericPrice_prefix_witness :
  Price.extractNumericPrice ("Prix: -" +:+ "3,50 €")
  = Price.extractNumericPrice "3,50 €".
Proof.
  apply (extractNumericPrice_prefix "Prix: -" "3,50 €"); reflexivity.
Defined.

(** X4. Of a text that starts with four digits in a row only the first
    three are read: the price is the number they form. *)
Theorem extractNumericPrice_four_digits :
  ∀ (c1 c2 c3 c4 : ascii) (rest : string),
    Strconv.is_digit c1 = true → Strconv.is_digit c2 = true →
    Strconv.is_digit c3 = true → Strconv.is_digit c4 = true →
    Price.FindStringSubmatch (String c1 (String c2 (String c3 (String c4 rest))))
    = [String c1 (String c2 (String c3 ""));
       String c1 (String c2 (String c3 ""))]
    ∧ Price.extractNumericPrice
        (String c1 (String c2 (String c3 (String c4 rest))))
      = Qred (Strconv.digits (String c1 (String c2 (String c3 ""))) # 1).
Proof.
  intros c1 c2 c3 c4 rest H1 H2 H3 H4.
  assert (Price.FindStringSubmatch
            (String c1 (String c2 (String c3 (String c4 rest))))
          = [String c1 (String c2 (String c3 ""));
             String c1 (String c2 (String c3 ""))]) as Htok.
  { rewrite FindStringSubmatch_token, token_first_number.
    cbn [Props.first_number]. rewrite H1. unfold Props.number_at.
    cbn [Props.take_digits]. rewrite H1, H2, H3.
    by rewrite groups_at_digit, decimals_at_digit. }
  split; [done|].
  assert (GoStrings.Contains (String c1 (String c2 (String c3 ""))) "."
          = false) as Hd.
  { simpl. by rewrite !digit_not_dot. }
  assert (GoStrings.Contains (String c1 (String c2 (String c3 ""))) ","
          = false) as Hc.
  { simpl. by rewrite !digit_not_comma. }
  rewrite (no_separator _ _ Htok Hd Hc).
  unfold Props.price_of, Strconv.to_float64, Strconv.in_float64_range.
  assert (Qle_bool Strconv.float64_overflow
            (Strconv.decimal_value (String c1 (String c2 (String c3 ""))) "")
          = false) as ->; [|done].
  apply not_true_is_false. intros H%Qle_bool_iff.
  unfold Strconv.decimal_value in H. rewrite Qred_correct in H.
  unfold Qle in H. simpl in H.
  pose proof (digit_val_range _ H1). pose proof (digit_val_range _ H2).
  pose proof (digit_val_range _ H3).
  unfold Strconv.digits in H. simpl in H.
  assert (2 ^ 970 ≤ 2 ^ 1024 - 2 ^ 970)%Z by (vm_compute; discriminate).
  assert (1000 ≤ 2 ^ 970)%Z by (vm_compute; discriminate).
  lia.
Qed.

Lemma extractNumericPrice_four_digits_witness :
  Price.FindStringSubmatch "1234.56€" = ["123"; "123"]
  ∧ Price.extractNumericPrice "1234.56€" = Qred (Strconv.digits "123" # 1).
Proof.
  apply (extractNumericPrice_four_digits "1" "2" "3" "4" ".56€");
    reflexivity.
Defined.

(** ** [parseSetAndRarity] *)

Section LabelsMore.
Import GoStrings Labels.

(** X5. [parseSetAndRarity] answers the two sentinels for a description
    without a hyphen; otherwise the set is the trimmed text before the
    first hyphen and the rarity the trimmed text between the first and the
    second hyphen: whatever follows a second hyphen is dropped. *)
Theorem parseSetAndRarity_parts (set rarity tail : string) :
  Contains set "-" = false →
  Contains rarity "-" = false →
  parseSetAndRarity set = ("Set inconnu", "Rareté inconnue")
  ∧ parseSetAndRarity (set +:+ "-" +:+ rarity)
    = (TrimSpace set, TrimSpace rarity)
  ∧ parseSetAndRarity (set +:+ "-" +:+ rarity +:+ "-" +:+ tail)
    = (TrimSpace set, TrimSpace rarity).
Proof.
  intros Hs Hr. unfold parseSetAndRarity. repeat split.
  - by rewrite (Split_absent _ _ Hs).
  - change ("-" +:+ rarity) with (String "-" rarity).
    by rewrite (Split_cut _ _ _ Hs), (Split_absent _ _ Hr).
  - change ("-" +:+ tail) with (String "-" tail).
    change ("-" +:+ (rarity +:+ String "-" tail))
      with (String "-" (rarity +:+ String "-" tail)).
    rewrite (Split_cut _ _ _ Hs), (Split_cut _ _ _ Hr).
    by destruct (Split tail "-").
Qed.

Lemma parseSetAndRarity_parts_witness :
  parseSetAndRarity "Base Set "
  = ("Set inconnu", "Rareté inconnue")
  ∧ parseSetAndRarity ("Base Set " +:+ "-" +:+ " Rare ")
    = (TrimSpace "Base Set ", TrimSpace " Rare ")
  ∧ parseSetAndRarity ("Base Set " +:+ "-" +:+ " Rare " +:+ "-" +:+ " Holo")
    = (TrimSpace "Base Set ", TrimSpace " Rare ").
Proof.
  apply (parseSetAndRarity_parts "Base Set " " Rare " " Holo");
    vm_compute; reflexivity.
Defined.

End LabelsMore.

(** ** helpers.go *)

Section HelpersMore.
Import GoStrings Price Helpers MoreProps.

Lemma waitLoop_spec titles remaining : ∀ i e k,
  waitLoop titles i (S remaining) = (e, k) →
  (i < k ≤ i + S remaining)%nat
  ∧ (∀ j, (i ≤ j)%nat → (j < k - 1)%nat → challenge (titles j))
  ∧ match e with
    | Some err => titles (k - 1)%nat = Err err
    | None =>
        ∃ title, titles (k - 1)%nat = Ok title
                 ∧ (ContainsStr title "Just a moment" = true →
                    k = (i + S remaining)%nat)
    end.
Proof.
  induction remaining as [|n IH]; intros i e k.
  - cbn [waitLoop]. destruct (titles i) as [title|err] eqn:E.
    + destruct (ContainsStr title "Just a moment") eqn:C; cbn [negb];
        intros [= <- <-]; replace (S i - 1)%nat with i by lia;
        (split; [lia|]); (split; [intros; lia|]);
        exists title; (split; [done|]); intros; first [lia|done].
    + intros [= <- <-]. replace (S i - 1)%nat with i by lia.
      split; [lia|]. split; [intros; lia|done].
  - change (waitLoop titles i (S (S n)))
      with (match titles i with
            | Err err => (Some err, S i)
            | Ok title =>
                if negb (ContainsStr title "Just a moment") then (None, S i)
                else waitLoop titles (S i) (S n)
            end).
    destruct (titles i) as [title|err] eqn:E.
    + destruct (ContainsStr title "Just a moment") eqn:C; cbn [negb].
      * intros H. destruct (IH _ _ _ H) as (Hk & Hc & He).
        split; [lia|]. split.
        -- intros j Hj Hlt. destruct (decide (j = i)) as [->|Hne].
           ++ by exists title.
           ++ apply Hc; lia.
        -- destruct e as [err|]; [done|].
           destruct He as (t & Ht & Hfull). exists t. split; [done|].
           intros Ct. specialize (Hfull Ct). lia.
      * intros [= <- <-]. replace (S i - 1)%nat with i by lia.
        split; [lia|]. split; [intros; lia|].
        exists title. split; [done|]. congruence.
    + intros [= <- <-]. replace (S i - 1)%nat with i by lia.
      split; [lia|]. split; [intros; lia|done].
Qed.

(** X6. [waitForCloudflare] reads the title between 1 and 20 times; every
    title before the last one read was a challenge page; it fails only with
    the error of a failed title read, and otherwise returns no error: either
    the last title read is no challenge page, or all 20 reads showed the
    challenge and the time-out is not reported. *)
Theorem waitForCloudflare_polls (titles : nat → outcome string) :
  let r := waitForCloudflare titles in
  (1 ≤ r.2 ≤ 20)%nat
  ∧ (∀ j, (j < r.2 - 1)%nat → challenge (titles j))
  ∧ match r.1 with
    | Some err => titles (r.2 - 1)%nat = Err err
    | None =>
        ∃ title, titles (r.2 - 1)%nat = Ok title
                 ∧ (ContainsStr title "Just a moment" = true → r.2 = 20%nat)
    end.
Proof.
  cbn zeta. unfold waitForCloudflare.
  destruct (waitLoop titles 0 20) as [e k] eqn:E.
  destruct (waitLoop_spec titles 19 0 e k E) as (Hk & Hc & He). cbn [fst snd].
  split; [lia|]. split.
  - intros j Hj. apply Hc; lia.
  - done.
Qed.

Lemma nothing_found_dec r : {nothing_found r} + {∃ n ns, r = Ok (n :: ns)}.
Proof.
  destruct r as [[|n ns]|e].
  - left. by left.
  - right. by exists n, ns.
  - left. right. by exists e.
Qed.

Lemma pollArticles_spec polls remaining : ∀ attempt,
  let nodes := pollArticles polls attempt remaining [] in
  (nodes = [] ∧ ∀ k, (attempt ≤ k < attempt + remaining)%nat →
                     nothing_found (polls k))
  ∨ (nodes ≠ [] ∧ ∃ k, (attempt ≤ k < attempt + remaining)%nat
       ∧ polls k = Ok nodes
       ∧ ∀ j, (attempt ≤ j < k)%nat → nothing_found (polls j)).
Proof.
  induction remaining as [|n IH]; intros attempt; cbn zeta.
  - left. split; [done|]. intros; lia.
  - cbn [pollArticles].
    assert (Hrest : pollArticles polls (S attempt) n
                      match polls attempt with
                      | Ok nodes => nodes | Err _ => [] end
                    = pollArticles polls (S attempt) n [] ∨
                    ∃ x xs, polls attempt = Ok (x :: xs)).
    { destruct (polls attempt) as [[|x xs]|e]; eauto. }
    destruct (polls attempt) as [[|x xs]|e] eqn:E; cbn.
    + destruct (IH (S attempt)) as [[Hn Hall]|[Hn (k & Hk & Hp & Hb)]].
      * left. split; [done|]. intros k Hk.
        destruct (decide (k = attempt)) as [->|]; [by left|].
        apply Hall. lia.
      * right. split; [done|]. exists k. split; [lia|]. split; [done|].
        intros j Hj. destruct (decide (j = attempt)) as [->|]; [by left|].
        apply Hb. lia.
    + right. split; [done|]. exists attempt. split; [lia|].
      split; [done|]. intros; lia.
    + destruct (IH (S attempt)) as [[Hn Hall]|[Hn (k & Hk & Hp & Hb)]].
      * left. split; [done|]. intros k Hk.
        destruct (decide (k = attempt)) as [->|]; [right; by exists e|].
        apply Hall. lia.
      * right. split; [done|]. exists k. split; [lia|]. split; [done|].
        intros j Hj.
        destruct (decide (j = attempt)) as [->|]; [right; by exists e|].
        apply Hb. lia.
Qed.

(** X7. [extractOffers] of helpers.go fails exactly when none of its three
    searches finds an article row (each one failed or found none), and then
    with the text "aucun article trouvé après 3 tentatives". *)
Theorem extractOffers_error_iff (polls : nat → outcome (list ArticleNode)) :
  ((∃ err, extractOffers polls = Err err)
   ↔ ∀ k, (k < 3)%nat → nothing_found (polls k))
  ∧ ∀ err, extractOffers polls = Err err →
           err = "aucun article trouvé après 3 tentatives".
Proof.
  unfold extractOffers.
  destruct (pollArticles_spec polls 3 0) as [[Hn Hall]|[Hn (k & Hk & Hp & Hb)]];
    cbn zeta in *.
  - rewrite Hn. cbn. split; [|by intros err [= <-]].
    split; [|by eexists]. intros _ k Hk. apply Hall. lia.
  - destruct (pollArticles polls 0 3 []) as [|x xs] eqn:E; [done|]. cbn.
    split; [|done]. split; [by intros [err ?]|].
    intros Hall. destruct (Hall k ltac:(lia)) as [H|[e H]]; congruence.
Qed.

(** X8. When [extractOffers] of helpers.go succeeds, its offers are those of
    the first of the three searches that found a row, one offer for every
    row in the row's order: a row whose badge, language or price cannot be
    read is not dropped, it gives an offer with that field empty (price
    text empty and numeric price 0). *)
Theorem extractOffers_one_offer_per_row
  (polls : nat → outcome (list ArticleNode)) (offers : list CardOffer) :
  extractOffers polls = Ok offers →
  ∃ k nodes,
    (k < 3)%nat ∧ polls k = Ok nodes ∧ nodes ≠ []
    ∧ (∀ j, (j < k)%nat → nothing_found (polls j))
    ∧ length offers = length nodes
    ∧ ∀ i node, nodes !! i = Some node →
        ∃ offer, offers !! i = Some offer
          ∧ ((∃ err, priceContainer node = Err err) →
             Price offer = "" ∧ PriceNum offer = 0%Q)
          ∧ ((∃ err, badge node = Err err) → Mint offer = "")
          ∧ ((∃ err, langTitle node = Err err) → Language offer = "")
          ∧ (∀ text, priceContainer node = Ok text →
               Price offer = TrimSpace text
               ∧ PriceNum offer = extractNumericPrice (TrimSpace text)).
Proof.
  unfold extractOffers.
  destruct (pollArticles_spec polls 3 0) as [[Hn Hall]|[Hn (k & Hk & Hp & Hb)]];
    cbn zeta in *.
  - by rewrite Hn.
  - destruct (pollArticles polls 0 3 []) as [|x xs] eqn:E; [done|].
    cbn [length Nat.eqb]. intros [= <-].
    exists k, (x :: xs). split; [lia|]. split; [done|]. split; [done|].
    split; [intros j Hj; apply Hb; lia|].
    split; [apply (length_map nodeOffer (x :: xs))|].
    intros i node Hi. exists (nodeOffer node).
    split; [change (nodeOffer x :: map nodeOffer xs)
                    with (nodeOffer <$> x :: xs);
            by rewrite list_lookup_fmap, Hi|].
    unfold nodeOffer; cbn.
    split; [intros [e ->]; by split|].
    split; [by intros [e ->]|].
    split; [by intros [e ->]|].
    intros text ->. by split.
Qed.

Lemma extractOffers_one_offer_per_row_witness :
  extractOffers second_search_only = Ok [nodeOffer unreadable_row]
  ∧ ∃ k nodes,
      (k < 3)%nat ∧ second_search_only k = Ok nodes ∧ nodes ≠ []
      ∧ length [nodeOffer unreadable_row] = length nodes.
Proof.
  split; [reflexivity|].
  destruct (extractOffers_one_offer_per_row second_search_only
              [nodeOffer unreadable_row] eq_refl)
    as (k & nodes & H1 & H2 & H3 & _ & H4 & _).
  exists k, nodes. split; [exact H1|]. split; [exact H2|].
  split; [exact H3|exact H4].
Defined.

End HelpersMore.

(** ** The progressive extractor *)

Section ProgressiveMore.
Import GoStrings Price Matcher Progressive Props MoreProps.

Lemma extractOfferFromNode_Ok node o :
  extractOfferFromNode node = Ok o →
  ∃ mint langue price,
    badge node = Ok mint ∧ langTitle node = Ok langue
    ∧ priceContainer node = Ok price
    ∧ o = {| Mint := TrimSpace mint; Language := TrimSpace langue;
             Edition := match specialIcons node with
                        | Ok n => (0 <? n)%nat
                        | Err _ => false
                        end;
             Price := TrimSpace price;
             PriceNum := extractNumericPrice (TrimSpace price);
             Rarity := ""; SetName := "" |}.
Proof.
  unfold extractOfferFromNode.
  destruct (badge node) as [mint|]; [|done].
  destruct (langTitle node) as [langue|]; [|done].
  destruct (priceContainer node) as [price|]; [|done].
  intros [= <-]. by exists mint, langue, price.
Qed.

Lemma extractOfferFromNode_readable node :
  readable node → ∃ o, extractOfferFromNode node = Ok o.
Proof.
  intros (mint & langue & price & Hm & Hl & Hp).
  unfold extractOfferFromNode. rewrite Hm, Hl, Hp. by eexists.
Qed.

Lemma omap_length_le {A B} (f : A → option B) l :
  (length (omap f l) ≤ length l)%nat.
Proof.
  induction l as [|x l IH]; [done|].
  change (omap f (x :: l))
    with (match f x with Some y => y :: omap f l | None => omap f l end).
  destruct (f x); simpl; lia.
Qed.

Lemma extractFirst_length maxArticles nodes :
  (length (extractFirst maxArticles nodes) ≤ maxArticles)%nat.
Proof.
  unfold extractFirst.
  match goal with
  | |- (length (omap ?f ?l) ≤ _)%nat =>
      pose proof (omap_length_le f l) as H
  end.
  rewrite length_take in H. lia.
Qed.

Lemma extractFirst_elem maxArticles nodes o :
  o ∈ extractFirst maxArticles nodes →
  ∃ i node, (i < maxArticles)%nat ∧ nodes !! i = Some node
            ∧ extractOfferFromNode node = Ok o.
Proof.
  unfold extractFirst. intros (node & Hin & Ho)%list_elem_of_omap.
  apply list_elem_of_lookup_1 in Hin as [i Hi].
  apply lookup_take_Some in Hi as [Hi Hlt].
  exists i, node. split; [done|]. split; [done|].
  by destruct (extractOfferFromNode node) as [o'|]; simplify_eq.
Qed.

Lemma extractFirst_nonempty maxArticles nodes i node :
  (i < maxArticles)%nat → nodes !! i = Some node → readable node →
  extractFirst maxArticles nodes ≠ [].
Proof.
  intros Hlt Hi [o Ho]%extractOfferFromNode_readable Hnil.
  assert (o ∈ extractFirst maxArticles nodes) as Hin.
  { unfold extractFirst. apply list_elem_of_omap. exists node.
    split; [|by rewrite Ho].
    apply list_elem_of_lookup_2 with i. by apply lookup_take_Some. }
  rewrite Hnil in Hin. by apply elem_of_nil in Hin.
Qed.

(** X9. When [extractOffersFromCurrentPage] succeeds it returns at most
    five offers, and each of them was read from one of the first five
    article rows of the page, a row whose badge, language and price could
    all be read (a row failing one of them is skipped); the offer's fields
    are the trimmed texts, its numeric price that of the trimmed price
    text, its edition flag false when the special-icon search fails. *)
Theorem extractOffersFromCurrentPage_offers
  (p : ProgressivePage) (offers : list CardOffer) :
  extractOffersFromCurrentPage p = Ok offers →
  ∃ nodes,
    firstNodes p = Ok nodes ∧ nodes ≠ []
    ∧ (length offers ≤ 5)%nat
    ∧ ∀ o, o ∈ offers →
        ∃ i node mint langue price,
          (i < 5)%nat ∧ nodes !! i = Some node
          ∧ badge node = Ok mint ∧ langTitle node = Ok langue
          ∧ priceContainer node = Ok price
          ∧ Mint o = TrimSpace mint ∧ Language o = TrimSpace langue
          ∧ Price o = TrimSpace price
          ∧ PriceNum o = extractNumericPrice (TrimSpace price)
          ∧ Edition o = match specialIcons node with
                        | Ok n => (0 <? n)%nat
                        | Err _ => false
                        end.
Proof.
  unfold extractOffersFromCurrentPage.
  destruct (firstNodes p) as [nodes|]; [|done].
  destruct nodes as [|x xs]; [done|].
  change (length (x :: xs) =? 0)%nat with false. cbv iota.
  intros [= <-]. exists (x :: xs). split; [done|]. split; [done|].
  split; [apply extractFirst_length|].
  intros o (i & node & Hi & Hn & Ho)%extractFirst_elem.
  apply extractOfferFromNode_Ok in Ho
    as (mint & langue & price & Hm & Hl & Hp & ->).
  by exists i, node, mint, langue, price.
Qed.

Lemma extractOffersFromCurrentPage_offers_witness :
  ∃ nodes,
    firstNodes (listing [unreadable_row; article "NM" "Anglais" 0 "3,50 €"]
                        []) = Ok nodes
    ∧ nodes ≠ []
    ∧ (length [offer "NM" "Anglais" false "3,50 €"] ≤ 5)%nat.
Proof.
  destruct (extractOffersFromCurrentPage_offers
              (listing [unreadable_row; article "NM" "Anglais" 0 "3,50 €"]
                       [])
              [offer "NM" "Anglais" false "3,50 €"] eq_refl)
    as (nodes & H1 & H2 & H3 & _).
  exists nodes. split; [exact H1|]. split; [exact H2|exact H3].
Defined.

Lemma scrollAndLoadMore_length p offers :
  scrollAndLoadMore p = Ok offers → (length offers ≤ 20)%nat.
Proof.
  unfold scrollAndLoadMore.
  destruct (clickLoadMore p loadMoreSelectors); [|done]. cbn [negb].
  destruct (nodesAfterClick p) as [nodes|]; [|done].
  destruct (length nodes =? 0)%nat; [done|].
  intros [= <-]. apply extractFirst_length.
Qed.

Lemma extractOffersFromCurrentPage_length p offers :
  extractOffersFromCurrentPage p = Ok offers → (length offers ≤ 5)%nat.
Proof.
  unfold extractOffersFromCurrentPage.
  destruct (firstNodes p) as [nodes|]; [|done].
  destruct (length nodes =? 0)%nat; [done|].
  intros [= <-]. apply extractFirst_length.
Qed.

Lemma extractOffersWithNewSession_spec p :
  match extractOffersWithNewSession p with
  | Ok offers =>
      (length offers ≤ 15)%nat ∧ newSessionStart p = None
      ∧ ∃ nodes, newSessionNodes p = Ok nodes
  | Err err => ∃ cause, err = "erreur nouvelle session: " +:+ cause
  end.
Proof.
  unfold extractOffersWithNewSession.
  destruct (newSessionStart p) as [e|]; [by exists e|].
  destruct (newSessionNodes p) as [nodes|e].
  - split; [apply extractFirst_length|]. split; [done|]. by exists nodes.
  - by exists ("erreur recherche articles finaux: " +:+ e).
Qed.

(** X10. [extractAllOffers] never returns more than 20 offers. It can
    succeed with no offer at all, but only from its third step, the new
    session, when that session started and its row search did not fail.
    The only error it ever reports is the new session's ("erreur nouvelle
    session: ..."): the errors of the first two steps are not returned. *)
Theorem extractAllOffers_result (p : ProgressivePage) :
  (∀ offers, (extractAllOffers p).1 = Ok offers →
     (length offers ≤ 20)%nat
     ∧ (offers = [] →
        (extractAllOffers p).2 = 3%nat ∧ newSessionStart p = None
        ∧ ∃ nodes, newSessionNodes p = Ok nodes))
  ∧ (∀ err, (extractAllOffers p).1 = Err err →
       (extractAllOffers p).2 = 3%nat
       ∧ ∃ cause, err = "erreur nouvelle session: " +:+ cause).
Proof.
  pose proof (extractOffersFromCurrentPage_length p) as H1.
  pose proof (scrollAndLoadMore_length p) as H2.
  pose proof (extractOffersWithNewSession_spec p) as H3.
  unfold extractAllOffers.
  destruct (extractOffersFromCurrentPage p) as [[|o1 l1]|e1].
  - destruct (scrollAndLoadMore p) as [[|o2 l2]|e2].
    + destruct (extractOffersWithNewSession p) as [l3|e3]; cbn.
      * destruct H3 as (Hl & Hs & Hn).
        split; [|done]. intros ? [= <-]. split; [lia|done].
      * split; [done|]. by intros ? [= <-].
    + cbn. split; [|done]. intros ? [= <-].
      split; [by apply H2|done].
    + destruct (extractOffersWithNewSession p) as [l3|e3]; cbn.
      * destruct H3 as (Hl & Hs & Hn).
        split; [|done]. intros ? [= <-]. split; [lia|done].
      * split; [done|]. by intros ? [= <-].
  - cbn. split; [|done]. intros ? [= <-].
    split; [specialize (H1 _ eq_refl); lia|done].
  - destruct (scrollAndLoadMore p) as [[|o2 l2]|e2].
    + destruct (extractOffersWithNewSession p) as [l3|e3]; cbn.
      * destruct H3 as (Hl & Hs & Hn).
        split; [|done]. intros ? [= <-]. split; [lia|done].
      * split; [done|]. by intros ? [= <-].
    + cbn. split; [|done]. intros ? [= <-].
      split; [by apply H2|done].
    + destruct (extractOffersWithNewSession p) as [l3|e3]; cbn.
      * destruct H3 as (Hl & Hs & Hn).
        split; [|done]. intros ? [= <-]. split; [lia|done].
      * split; [done|]. by intros ? [= <-].
Qed.

(** X11. As soon as one of the first five article rows of the current page
    is readable, [extractAllOffers] answers from those five rows alone, in
    one step: two pages that agree on their first five rows get the same
    offers, whatever further rows, "load more" button or new session they
    would show. *)
Theorem extractAllOffers_first_five_rows
  (p p' : ProgressivePage) (nodes nodes' : list ArticleNode)
  (i : nat) (node : ArticleNode) :
  firstNodes p = Ok nodes → firstNodes p' = Ok nodes' →
  take 5 nodes = take 5 nodes' →
  (i < 5)%nat → nodes !! i = Some node → readable node →
  extractAllOffers p = extractAllOffers p'
  ∧ (extractAllOffers p).2 = 1%nat
  ∧ (extractAllOffers p).1 = Ok (extractFirst 5 (take 5 nodes)).
Proof.
  intros Hp Hp' Htake Hi Hn Hr.
  assert (He : extractFirst 5 nodes' = extractFirst 5 nodes).
  { unfold extractFirst. by rewrite Htake. }
  assert (Hidem : extractFirst 5 (take 5 nodes) = extractFirst 5 nodes).
  { unfold extractFirst. by rewrite take_take. }
  pose proof (extractFirst_nonempty 5 nodes i node Hi Hn Hr) as Hne.
  assert (Hlen : ∀ l : list ArticleNode, take 5 l ≠ [] →
                 (length l =? 0)%nat = false).
  { by intros [|? ?]. }
  assert (take 5 nodes ≠ []) as Hnn.
  { intros Hnil. pose proof (proj2 (lookup_take_Some _ _ _ _) (conj Hn Hi)) as Hx.
    by rewrite Hnil in Hx. }
  unfold extractAllOffers, extractOffersFromCurrentPage.
  rewrite Hp, Hp', (Hlen _ Hnn), (Hlen nodes') by by rewrite <- Htake.
  rewrite He, Hidem.
  destruct (extractFirst 5 nodes) as [|o l]; [done|]. done.
Qed.

Lemma extractAllOffers_first_five_rows_witness :
  extractAllOffers (listing five_rows [])
  = extractAllOffers (listing (five_rows ++ [sixth_row]) [sixth_row])
  ∧ (extractAllOffers (listing five_rows [])).2 = 1%nat
  ∧ (extractAllOffers (listing five_rows [])).1
    = Ok (extractFirst 5 (take 5 five_rows)).
Proof.
  apply (extractAllOffers_first_five_rows
           (listing five_rows [])
           (listing (five_rows ++ [sixth_row]) [sixth_row])
           five_rows (five_rows ++ [sixth_row])
           1%nat (article "NM" "Anglais" 0 "3,50 €")
           eq_refl eq_refl eq_refl).
  - lia.
  - reflexivity.
  - by exists "NM", "Anglais", "3,50 €".
Defined.

Lemma firstNM_Some offers o :
  firstNM offers = Some o → o ∈ offers ∧ Mint o = "NM".
Proof.
  induction offers as [|x l IH]; simpl; [done|].
  destruct (String.eqb (Mint x) "NM") eqn:E.
  - intros [= <-]. split; [left|]. by apply String.eqb_eq.
  - intros [Hin Hm]%IH. split; [by right|done].
Qed.

Lemma firstNM_None offers :
  firstNM offers = None → ∀ x, x ∈ offers → Mint x ≠ "NM".
Proof.
  induction offers as [|y l IH]; simpl.
  - intros _ x Hx. by apply elem_of_nil in Hx.
  - destruct (String.eqb (Mint y) "NM") eqn:E; [done|].
    intros Hn x [->|Hx]%elem_of_cons.
    + by apply String.eqb_neq.
    + by apply IH.
Qed.

(** X12. [findBestOfferWithFallback] returns nil only for an empty list,
    and otherwise one of the offers of the list, the best the list allows:
    an NM French standard offer if the list has one; else an NM French
    offer if it has one; else an NM offer if it has one; else any offer. *)
Theorem findBestOfferWithFallback_priority (offers : list CardOffer) :
  match findBestOfferWithFallback offers with
  | None => offers = []
  | Some o =>
      o ∈ offers
      ∧ ((∃ x, x ∈ offers ∧ triple_eq x "NM" "Français" false) →
         triple_eq o "NM" "Français" false)
      ∧ ((∃ x, x ∈ offers ∧ Mint x = "NM" ∧ Language x = "Français") →
         Mint o = "NM" ∧ Language o = "Français")
      ∧ ((∃ x, x ∈ offers ∧ Mint x = "NM") → Mint o = "NM")
  end.
Proof.
  unfold findBestOfferWithFallback.
  assert (E1 := findBestOffer_findTheCard offers "NM" "Français" false).
  assert (E2 := findBestOffer_findTheCard offers "NM" "Français" true).
  destruct (findBestOffer offers "NM" "Français" false) as [o|] eqn:F1.
  { symmetry in E1. apply findTheCard_Some in E1 as [Hin (Hm & Hl & He)].
    repeat split; done. }
  symmetry in E1. pose proof (proj1 (findTheCard_None _ _ _ _) E1) as N1.
  destruct (findBestOffer offers "NM" "Français" true) as [o|] eqn:F2.
  { symmetry in E2. apply findTheCard_Some in E2 as [Hin (Hm & Hl & He)].
    split; [done|]. split; [|done].
    intros (x & Hx & Ht). by destruct (N1 x Hx). }
  symmetry in E2. pose proof (proj1 (findTheCard_None _ _ _ _) E2) as N2.
  assert (NF : ∀ x, x ∈ offers → ¬ (Mint x = "NM" ∧ Language x = "Français")).
  { intros x Hx [Hm Hl]. destruct (Edition x) eqn:He.
    - by apply (N2 x Hx).
    - by apply (N1 x Hx). }
  destruct (firstNM offers) as [o|] eqn:F3.
  { apply firstNM_Some in F3 as [Hin Hm]. split; [done|].
    split; [intros (x & Hx & Ht); by destruct (N1 x Hx)|].
    split; [intros (x & Hx & Ht); by destruct (NF x Hx)|done]. }
  pose proof (firstNM_None _ F3) as N3.
  destruct offers as [|first rest]; [done|].
  split; [left|].
  split; [intros (x & Hx & Ht); by destruct (N1 x Hx)|].
  split; [intros (x & Hx & Ht); by destruct (NF x Hx)|].
  intros (x & Hx & Ht). by destruct (N3 x Hx).
Qed.

End ProgressiveMore.

(** ** The store *)

Section StoreMore.
Import GoStrings Price Store Catalogue Props MoreProps.

Lemma find_none_iff {A} (f : A → bool) (l : list A) :
  List.find f l = None ↔ ∀ x, x ∈ l → f x = false.
Proof.
  induction l as [|y l IH]; simpl.
  - split; [|done]. intros _ x Hx. by apply elem_of_nil in Hx.
  - destruct (f y) eqn:E.
    + split; [done|]. intros H. specialize (H y ltac:(left)). congruence.
    + rewrite IH. split.
      * intros H x [->|Hx]%elem_of_cons; [done|by apply H].
      * intros H x Hx. apply H. by right.
Qed.

Lemma find_app_new {A} (f : A → bool) (l : list A) (x : A) :
  (∀ y, y ∈ l → f y = false) → f x = true →
  List.find f (l ++ [x]) = Some x.
Proof.
  induction l as [|y l IH]; simpl; intros Hl Hx.
  - by rewrite Hx.
  - rewrite (Hl y ltac:(left)). apply IH; [|done].
    intros z Hz. apply Hl. by right.
Qed.

Lemma filter_elem_of {A} (f : A → bool) (l : list A) (x : A) :
  x ∈ List.filter f l ↔ x ∈ l ∧ f x = true.
Proof. rewrite !list_elem_of_In. apply filter_In. Qed.

Lemma filter_length_le {A} (f : A → bool) (l : list A) :
  (length (List.filter f l) ≤ length l)%nat.
Proof.
  induction l as [|x l IH]; simpl; [done|]. destruct (f x); simpl; lia.
Qed.

Lemma filter_all {A} (f : A → bool) (l : list A) :
  (∀ x, x ∈ l → f x = true) → List.filter f l = l.
Proof.
  induction l as [|x l IH]; simpl; intros H; [done|].
  rewrite (H x ltac:(left)), IH; [done|]. intros y Hy. apply H. by right.
Qed.

Lemma filter_app_new {A} (f : A → bool) (l : list A) (x : A) :
  List.filter f (l ++ [x])%list
  = (List.filter f l ++ if f x then [x] else [])%list.
Proof.
  induction l as [|y l IH]; simpl; [done|].
  rewrite IH. by destruct (f y).
Qed.

(** X13. [AddCard] of a URL the store does not hold, when the scrape
    succeeds, appends one row and hands out the next id: the card returned
    carries the request's URL, type and criteria, the scraped name, set,
    rarity, price and image, and the number of offers scraped; looking the
    URL or the new id up afterwards finds that row. The type is stored as
    given: nothing checks that it is one of the two lists. *)
Theorem AddCard_new_card
  (scrape : AddCardRequest → outcome ScrapedCardInfo)
  (failure : AddCardRequest → string → string) (now ts : string)
  (db : DB) (req : AddCardRequest) (info : ScrapedCardInfo) :
  (∀ c, c ∈ rows db → card_CardURL c ≠ req_URL req) →
  (∀ c, c ∈ rows db → (card_ID c ≤ last_id db)%nat) →
  scrape req = Ok info →
  ∃ card,
    AddCard scrape failure now ts db req
    = (Ok card,
       {| rows := rows db ++ [card]; last_id := S (last_id db) |},
       [req_URL req])
    ∧ card_ID card = S (last_id db)
    ∧ card_CardURL card = req_URL req ∧ card_Type card = req_Type req
    ∧ card_Quality card = req_Quality req
    ∧ card_Language card = req_Language req
    ∧ card_Edition card = req_Edition req
    ∧ card_Name card = info_Name info ∧ card_Set card = info_Set info
    ∧ card_Rarity card = info_Rarity info
    ∧ card_Price card = info_Price info
    ∧ card_PriceNum card = info_PriceNum info
    ∧ card_ImageURL card = info_ImageURL info
    ∧ card_TotalOffers card = length (info_Offers info)
    ∧ ∃ stored,
        getCardByURL
          {| rows := rows db ++ [card]; last_id := S (last_id db) |}
          (req_URL req) = Ok stored
        ∧ getCardByID
            {| rows := rows db ++ [card]; last_id := S (last_id db) |}
            (S (last_id db)) = Ok stored
        ∧ card_ID stored = S (last_id db)
        ∧ card_CardURL stored = req_URL req
        ∧ card_Type stored = req_Type req
        ∧ card_TotalOffers stored = length (info_Offers info).
Proof.
  intros Hurl Hid Hs. unfold AddCard.
  assert (Hfind : List.find (λ c, String.eqb (card_CardURL c) (req_URL req))
                    (rows db) = None).
  { apply find_none_iff. intros c Hc. apply String.eqb_neq. by apply Hurl. }
  unfold getCardByURL at 1. rewrite Hfind, Hs. unfold insertCard.
  assert (Hex : existsb (λ c, String.eqb (card_CardURL c) (req_URL req))
                  (rows db) = false).
  { destruct (existsb _ _) eqn:E; [|done].
    apply existsb_exists in E as (c & Hc & E).
    apply list_elem_of_In in Hc. apply String.eqb_eq in E.
    by destruct (Hurl c Hc). }
  cbn [card_CardURL]. rewrite Hex.
  eexists. split; [reflexivity|]. cbn.
  repeat (split; [reflexivity|]). eexists. split; [|split].
  - unfold getCardByURL. cbn [rows].
    rewrite find_app_new; [reflexivity| |by apply String.eqb_eq].
    intros c Hc. apply String.eqb_neq. by apply Hurl.
  - unfold getCardByID. cbn [rows].
    rewrite find_app_new; [reflexivity| |by apply Nat.eqb_eq].
    intros c Hc. apply Nat.eqb_neq. specialize (Hid c Hc). lia.
  - done.
Qed.

Lemma AddCard_new_card_witness :
  ∃ card,
    AddCard (fun req => pikachu_only (req_URL req) req) scrapeFailure_app
      "2024-03-01 09:00:00" "2024-03-01 08:00:00" empty_store nm_english
    = (Ok card, {| rows := [card]; last_id := 1 |}, [req_URL nm_english])
    ∧ card_ID card = 1%nat.
Proof.
  destruct (AddCard_new_card
              (fun req => pikachu_only (req_URL req) req) scrapeFailure_app
              "2024-03-01 09:00:00" "2024-03-01 08:00:00"
              empty_store nm_english _
              ltac:(intros c Hc; by apply elem_of_nil in Hc)
              ltac:(intros c Hc; by apply elem_of_nil in Hc)
              eq_refl)
    as (card & H1 & H2 & _).
  exists card. split; [exact H1|exact H2].
Defined.

Lemma filter_length_all {A} (f : A → bool) (l : list A) :
  length (List.filter f l) = length l ↔ ∀ x, x ∈ l → f x = true.
Proof.
  induction l as [|x l IH]; simpl.
  - split; [|done]. intros _ y Hy. by apply elem_of_nil in Hy.
  - pose proof (filter_length_le f l) as Hle. destruct (f x) eqn:E; simpl.
    + split.
      * intros H y [->|Hy]%elem_of_cons; [done|]. apply IH; [lia|done].
      * intros H. f_equal. apply IH. intros y Hy. apply H. by right.
    + split; [lia|]. intros H. specialize (H x ltac:(left)). congruence.
Qed.

Lemma listed_count l :
  (length (List.filter (λ c, String.eqb (card_Type c) "collection") l)
   + length (List.filter (λ c, String.eqb (card_Type c) "wishlist") l))%nat
  = length (List.filter listed l).
Proof.
  induction l as [|c l IH]; [done|]. cbn [List.filter].
  assert (Hl : listed c = (String.eqb (card_Type c) "collection"
                           || String.eqb (card_Type c) "wishlist")) by done.
  rewrite Hl.
  destruct (String.eqb (card_Type c) "collection") eqn:E1;
    destruct (String.eqb (card_Type c) "wishlist") eqn:E2;
    cbn [orb length]; try lia.
  apply String.eqb_eq in E1, E2. congruence.
Qed.

(** X14. [GetStats] counts the cards typed "collection" and those typed
    "wishlist"; its [total_cards] is their sum, the number of cards typed
    one or the other. It never exceeds the number of stored cards and
    equals it exactly when every stored card has one of the two types: a
    card stored under any other type text is left out of the statistics. *)
Theorem GetStats_counts (sum_real : list Q → Q) (float_add : Q → Q → Q)
  (db : DB) :
  ∃ st,
    GetStats sum_real float_add db = Ok st
    ∧ collection_count st = length (of_type db "collection")
    ∧ wishlist_count st = length (of_type db "wishlist")
    ∧ total_cards st = (collection_count st + wishlist_count st)%nat
    ∧ total_cards st = length (List.filter listed (rows db))
    ∧ (total_cards st ≤ length (rows db))%nat
    ∧ (total_cards st = length (rows db)
       ↔ ∀ c, c ∈ rows db → listed c = true).
Proof.
  unfold GetStats, count_and_value. eexists. split; [reflexivity|]. cbn.
  split; [done|]. split; [done|]. split; [done|].
  unfold of_type. rewrite listed_count.
  split; [done|]. split; [apply filter_length_le|apply filter_length_all].
Qed.

Lemma of_type_other db card t :
  card_Type card ≠ t →
  of_type {| rows := rows db ++ [card]; last_id := S (last_id db) |} t
  = of_type db t.
Proof.
  intros Hne. unfold of_type. cbn [rows]. rewrite filter_app_new.
  apply String.eqb_neq in Hne. rewrite Hne. apply app_nil_r.
Qed.

(** X15. [AddCard] does not check the type text. With a type that is
    neither "collection" nor "wishlist" a new URL is scraped and stored all
    the same; the card then shows in neither list of [GetCards] and in no
    figure of [GetStats], and adding the same URL with the same type again
    is refused as a duplicate. *)
Theorem AddCard_unlisted_type
  (scrape : AddCardRequest → outcome ScrapedCardInfo)
  (failure : AddCardRequest → string → string) (now ts : string)
  (sum_real : list Q → Q) (float_add : Q → Q → Q)
  (scanDate : string → string) (query : option string)
  (db : DB) (req : AddCardRequest) (info : ScrapedCardInfo) :
  (∀ c, c ∈ rows db → card_CardURL c ≠ req_URL req) →
  scrape req = Ok info →
  req_Type req ≠ "collection" → req_Type req ≠ "wishlist" →
  ∃ card db',
    AddCard scrape failure now ts db req = (Ok card, db', [req_URL req])
    ∧ length (rows db') = S (length (rows db))
    ∧ GetCards scanDate query db' "collection"
      = GetCards scanDate query db "collection"
    ∧ GetCards scanDate query db' "wishlist"
      = GetCards scanDate query db "wishlist"
    ∧ GetStats sum_real float_add db' = GetStats sum_real float_add db
    ∧ AddCard scrape failure now ts db' req
      = (Err ("cette carte est déjà dans votre " +:+ req_Type req), db', []).
Proof.
  intros Hurl Hs Hc Hw. unfold AddCard at 1.
  assert (Hfind : List.find (λ c, String.eqb (card_CardURL c) (req_URL req))
                    (rows db) = None).
  { apply find_none_iff. intros c Hin. apply String.eqb_neq. by apply Hurl. }
  unfold getCardByURL at 1. rewrite Hfind, Hs. unfold insertCard.
  assert (Hex : existsb (λ c, String.eqb (card_CardURL c) (req_URL req))
                  (rows db) = false).
  { destruct (existsb _ _) eqn:E; [|done].
    apply existsb_exists in E as (c & Hin & E).
    apply list_elem_of_In in Hin. apply String.eqb_eq in E.
    by destruct (Hurl c Hin). }
  cbn [card_CardURL]. rewrite Hex.
  eexists. eexists. split; [reflexivity|].
  split; [cbn [rows]; rewrite length_app; simpl; lia|].
  unfold GetCards, GetStats, count_and_value.
  rewrite !of_type_other by done.
  split; [done|]. split; [done|]. split; [done|].
  unfold AddCard, getCardByURL. cbn [rows].
  rewrite find_app_new; [| |by apply String.eqb_eq].
  - cbn [card_Type with_ID]. by rewrite String.eqb_refl.
  - intros c Hin. apply String.eqb_neq. by apply Hurl.
Qed.

Lemma AddCard_unlisted_type_witness :
  ∃ card db',
    AddCard (fun req => pikachu_only (req_URL req) req) scrapeFailure_app
      "2024-03-01 09:00:00" "2024-03-01 08:00:00" empty_store
      {| req_URL := pikachu_url; req_Type := "Collection";
         req_Quality := "NM"; req_Language := "English";
         req_Edition := false |}
    = (Ok card, db', [pikachu_url])
    ∧ length (rows db') = 1%nat
    ∧ GetCards (fun date => date) None db' "collection" = Ok [].
Proof.
  destruct (AddCard_unlisted_type
              (fun req => pikachu_only (req_URL req) req) scrapeFailure_app
              "2024-03-01 09:00:00" "2024-03-01 08:00:00"
              (fun _ => 0%Q) (fun _ _ => 0%Q) (fun date => date) None
              empty_store
              {| req_URL := pikachu_url; req_Type := "Collection";
                 req_Quality := "NM"; req_Language := "English";
                 req_Edition := false |} _
              ltac:(intros c Hc; by apply elem_of_nil in Hc)
              eq_refl ltac:(discriminate) ltac:(discriminate))
    as (card & db' & H1 & H2 & H3 & _).
  exists card, db'. split; [exact H1|]. split; [exact H2|exact H3].
Defined.

Lemma find_filter_id rows id id' :
  List.find (λ c, (card_ID c =? id')%nat)
    (List.filter (λ c, negb (card_ID c =? id)%nat) rows)
  = if (id' =? id)%nat then None
    else List.find (λ c, (card_ID c =? id')%nat) rows.
Proof.
  induction rows as [|c l IH]; simpl; [by destruct (id' =? id)%nat|].
  destruct (card_ID c =? id)%nat eqn:E1; simpl.
  - rewrite IH. destruct (id' =? id)%nat eqn:E2; [done|].
    apply Nat.eqb_eq in E1. apply Nat.eqb_neq in E2.
    by rewrite (proj2 (Nat.eqb_neq (card_ID c) id')) by lia.
  - destruct (card_ID c =? id')%nat eqn:E3.
    + apply Nat.eqb_neq in E1. apply Nat.eqb_eq in E3.
      by rewrite (proj2 (Nat.eqb_neq id' id)) by lia.
    + apply IH.
Qed.

(** X16. [DeleteCard] returns the error of its DELETE statement and no
    other; a statement that fails leaves the store as it was. When the
    statement is carried out, no card has the deleted id afterwards, every
    other id finds the same card as before, and when no card had the id
    the store is left as it was: the number of rows deleted is not looked
    at, so deleting a card that does not exist is not told apart from a
    success. The largest id handed out is kept in every case, so that a
    deleted id is not given to a later card. *)
Theorem DeleteCard_lookup (exec : option string) (db : DB) (cardID : nat) :
  (DeleteCard exec db cardID).1 = exec
  ∧ (∀ err, DeleteCard (Some err) db cardID = (Some err, db))
  ∧ getCardByID (DeleteCard None db cardID).2 cardID
    = Err "sql: no rows in result set"
  ∧ (∀ id, id ≠ cardID →
       getCardByID (DeleteCard None db cardID).2 id = getCardByID db id)
  ∧ ((∀ c, c ∈ rows db → card_ID c ≠ cardID) →
     DeleteCard None db cardID = (None, db))
  ∧ last_id (DeleteCard exec db cardID).2 = last_id db.
Proof.
  split; [by destruct exec|]. split; [done|].
  unfold getCardByID, DeleteCard. cbn [snd rows last_id].
  split; [by rewrite find_filter_id, Nat.eqb_refl|].
  split; [|split].
  - intros id Hne. rewrite find_filter_id.
    by rewrite (proj2 (Nat.eqb_neq id cardID)) by done.
  - intros Hn. destruct db as [l n]. cbn. do 2 f_equal.
    apply filter_all. intros c Hc. apply negb_true_iff, Nat.eqb_neq.
    by apply Hn.
  - by destruct exec.
Qed.

Lemma find_map_id (g : Card → Card) rows id :
  (∀ c, card_ID (g c) = card_ID c) →
  List.find (λ c, (card_ID c =? id)%nat) (map g rows)
  = option_map g (List.find (λ c, (card_ID c =? id)%nat) rows).
Proof.
  intros Hg. induction rows as [|c l IH]; simpl; [done|].
  rewrite Hg. by destruct (card_ID c =? id)%nat.
Qed.

Lemma map_id_on {A} (g : A → A) (l : list A) :
  (∀ x, x ∈ l → g x = x) → map g l = l.
Proof.
  induction l as [|x l IH]; simpl; intros H; [done|].
  rewrite (H x ltac:(left)), IH; [done|]. intros y Hy. apply H. by right.
Qed.

(** X17. [MoveCard] returns the error of its UPDATE statement and no
    other; a statement that fails leaves the store as it was. It checks
    neither the id nor the type text. When the statement is carried out,
    the card of that id, if there is one, has the new type and a new update
    time, and every other id finds the same card as before; when no card
    has the id the store is left as it was, and this is not told apart
    from a success. *)
Theorem MoveCard_lookup (exec : option string) (timestamp : string)
  (db : DB) (cardID : nat) (newType : string) :
  (MoveCard exec timestamp db cardID newType).1 = exec
  ∧ (∀ err, MoveCard (Some err) timestamp db cardID newType = (Some err, db))
  ∧ (∀ id,
       getCardByID (MoveCard None timestamp db cardID newType).2 id
       = match getCardByID db id with
         | Ok c => Ok (if (id =? cardID)%nat then moved c newType timestamp
                       else c)
         | Err err => Err err
         end)
  ∧ ((∀ c, c ∈ rows db → card_ID c ≠ cardID) →
     MoveCard None timestamp db cardID newType = (None, db)).
Proof.
  split; [by destruct exec|]. split; [done|].
  unfold MoveCard, getCardByID.
  cbn [snd rows]. split.
  - intros id. rewrite find_map_id.
    + destruct (List.find _ (rows db)) as [c|] eqn:E; [|done].
      apply find_some in E as [_ E]. apply Nat.eqb_eq in E. cbn.
      rewrite E. by destruct (id =? cardID)%nat.
    + intros c. by destruct (card_ID c =? cardID)%nat.
  - intros Hn. destruct db as [l n]. cbn. do 2 f_equal.
    apply map_id_on. intros c Hc.
    by rewrite (proj2 (Nat.eqb_neq _ _) (Hn c Hc)).
Qed.

Lemma insert_row_perm before c l : insert_row before c l ≡ₚ c :: l.
Proof.
  induction l as [|x l IH]; simpl; [done|].
  destruct (before x c); [|done].
  rewrite IH. apply Permutation_swap.
Qed.

Lemma order_by_perm before l : order_by before l ≡ₚ l.
Proof.
  induction l as [|c l IH]; simpl; [done|].
  by rewrite insert_row_perm, IH.
Qed.

Lemma insert_row_chain (before : Card → Card → bool) c l :
  (∀ x y, before x y = true → before y x = false) →
  chain (λ a b, before b a = false) l →
  chain (λ a b, before b a = false) (insert_row before c l).
Proof.
  intros Hasym. induction l as [|x l IH]; [done|].
  intros Hl. cbn [insert_row]. destruct (before x c) eqn:E.
  - destruct l as [|y l']; cbn [insert_row chain] in *.
    + split; [by apply Hasym|done].
    + destruct Hl as [Hxy Hl]. specialize (IH Hl).
      destruct (before y c) eqn:E'; cbn [chain] in *.
      * split; [done|apply IH].
      * split; [by apply Hasym|]. apply IH.
  - cbn [chain]. split; [done|]. exact Hl.
Qed.

Lemma order_by_chain (before : Card → Card → bool) l :
  (∀ x y, before x y = true → before y x = false) →
  chain (λ a b, before b a = false) (order_by before l).
Proof.
  intros Hasym. induction l as [|c l IH]; [done|].
  by apply insert_row_chain.
Qed.

Lemma chain_impl (R R' : Card → Card → Prop) l :
  (∀ a b, R a b → R' a b) → chain R l → chain R' l.
Proof.
  intros H. induction l as [|a l IH]; [done|].
  destruct l as [|b l']; [done|]. cbn [chain]. intros [Hab Hl].
  split; [by apply H|by apply IH].
Qed.

Lemma added_later_asym x y :
  added_later x y = true → added_later y x = false.
Proof.
  unfold added_later. intros H%negb_true_iff. apply negb_false_iff.
  destruct (String.leb_total (card_AddedAt x) (card_AddedAt y)); congruence.
Qed.

(** X18. [GetCards] fails with the error of its query, if the query
    fails. Otherwise it returns one card for every stored row whose type is
    the text asked for (compared exactly, byte for byte) and for no other
    row: the row as [rows.Scan] reads it, with the two dates in the
    driver's rendering and every other column as stored. When the stored
    dates of addition are the texts [AddCard] writes, the cards come in an
    order in which no row precedes one that was added later. *)
Theorem GetCards_spec (scanDate : string → string) (db : DB)
  (cardType : string) :
  (∀ err, GetCards scanDate (Some err) db cardType = Err err)
  ∧ ∃ selected,
      GetCards scanDate None db cardType
      = Ok (map (scanned scanDate) selected)
      ∧ (∀ c, c ∈ selected ↔ c ∈ rows db ∧ card_Type c = cardType)
      ∧ selected ≡ₚ of_type db cardType
      ∧ ((∀ c, c ∈ rows db → timestamp_text (card_AddedAt c) = true) →
         chain not_after selected).
Proof.
  split; [done|]. unfold GetCards. eexists. split; [reflexivity|].
  split; [|split].
  - intros c. rewrite order_by_perm. unfold of_type.
    rewrite filter_elem_of. by rewrite String.eqb_eq.
  - apply order_by_perm.
  - intros _. eapply chain_impl; [|apply order_by_chain, added_later_asym].
    intros a b. unfold added_later, not_after. intros H%negb_false_iff.
    done.
Qed.

Lemma refresh_row_eq scrape ts c id req :
  refresh_row scrape ts c (id, req)
  = if (card_ID c =? id)%nat then
      match scrape (req_URL req) req with
      | Ok cardInfo => with_Scraped c cardInfo (ts id)
      | Err _ => c
      end
    else c.
Proof. reflexivity. Qed.

Lemma same_identity_refl c : same_identity c c.
Proof. by repeat split. Qed.

Lemma same_identity_trans a b c :
  same_identity a b → same_identity b c → same_identity a c.
Proof.
  unfold same_identity. intros (?&?&?&?&?&?&?&?) (?&?&?&?&?&?&?&?).
  repeat split; congruence.
Qed.

Lemma refresh_row_identity scrape ts c entry :
  same_identity c (refresh_row scrape ts c entry).
Proof.
  unfold refresh_row. destruct (card_ID c =? entry.1)%nat.
  - destruct (scrape _ _); by repeat split.
  - apply same_identity_refl.
Qed.

Lemma fold_refresh_identity scrape ts cards : ∀ c,
  same_identity c (fold_left (refresh_row scrape ts) cards c).
Proof.
  induction cards as [|e l IH]; intros c; simpl.
  - apply same_identity_refl.
  - eapply same_identity_trans; [apply refresh_row_identity|apply IH].
Qed.

Lemma fold_refresh_none scrape ts cards : ∀ c,
  (∀ e, e ∈ cards → e.1 ≠ card_ID c) →
  fold_left (refresh_row scrape ts) cards c = c.
Proof.
  induction cards as [|e l IH]; intros c H; simpl; [done|].
  assert (refresh_row scrape ts c e = c) as ->.
  { unfold refresh_row.
    by rewrite (proj2 (Nat.eqb_neq (card_ID c) e.1))
      by (specialize (H e ltac:(left)); congruence). }
  apply IH. intros e' He'. apply H. by right.
Qed.

Lemma fold_refresh_own scrape ts cards : ∀ c r,
  NoDup (map fst cards) → (card_ID c, r) ∈ cards →
  fold_left (refresh_row scrape ts) cards c
  = refresh_row scrape ts c (card_ID c, r).
Proof.
  induction cards as [|[id req] l IH]; intros c r Hnd Hin.
  - by apply elem_of_nil in Hin.
  - cbn [map fst] in Hnd. apply NoDup_cons in Hnd as [Hnotin Hnd].
    cbn [fold_left].
    destruct (decide (id = card_ID c)) as [->|Hne].
    + assert (req = r) as ->.
      { apply elem_of_cons in Hin as [[= ->]|Hin]; [done|].
        destruct Hnotin. apply list_elem_of_fmap.
        by exists (card_ID c, r). }
      apply fold_refresh_none. intros e He.
      destruct (refresh_row_identity scrape ts c (card_ID c, r)) as [-> _].
      intros Heq. destruct Hnotin. apply list_elem_of_fmap. by exists e.
    + assert (refresh_row scrape ts c (id, req) = c) as ->.
      { rewrite refresh_row_eq.
        by rewrite (proj2 (Nat.eqb_neq (card_ID c) id)) by congruence. }
      apply IH; [done|].
      apply elem_of_cons in Hin as [[= ? ?]|Hin]; [congruence|done].
Qed.

Lemma rescrapLoop_rows scrape ts cards : ∀ db stats,
  rows (rescrapLoop scrape ts cards db stats).2
  = map (λ c, fold_left (refresh_row scrape ts) cards c) (rows db).
Proof.
  induction cards as [|[id req] l IH]; intros db stats.
  - cbn. by rewrite map_id.
  - cbn [rescrapLoop fold_left].
    destruct (scrape (req_URL req) req) as [info|err] eqn:E.
    + rewrite IH. unfold updateScraped. cbn [rows]. rewrite map_map.
      apply map_ext. intros c. by rewrite refresh_row_eq, E.
    + rewrite IH. apply map_ext. intros c. rewrite refresh_row_eq, E.
      by destruct (card_ID c =? id)%nat.
Qed.





(** X20. In a store with unique ids, [RescrapAllCards] treats every row
    on its own: the row keeps its place, its id, URL, type, date of
    addition, criteria and offer count; if the scrape made for it (its own
    URL, with its own stored criteria) fails the row is left exactly as it
    was; otherwise its name, set, rarity, price, numeric price and image
    are the scraped ones and its update time is set. The offer count is
    not refreshed. *)
Theorem RescrapAllCards_rows
  (scrape : string → AddCardRequest → outcome ScrapedCardInfo)
  (timestamp : nat → string) (db : DB) :
  unique_ids db →
  ∀ i c, rows db !! i = Some c →
    ∃ c', rows (RescrapAllCards scrape timestamp db).2 !! i = Some c'
      ∧ same_identity c c'
      ∧ match scrape (card_CardURL c) (rescrapRequest c) with
        | Err _ => c' = c
        | Ok info =>
            card_Name c' = info_Name info ∧ card_Set c' = info_Set info
            ∧ card_Rarity c' = info_Rarity info
            ∧ card_Price c' = info_Price info
            ∧ card_PriceNum c' = info_PriceNum info
            ∧ card_ImageURL c' = info_ImageURL info
            ∧ card_LastUpdated c' = timestamp (card_ID c)
        end.
Proof.
  intros Hid i c Hi. unfold RescrapAllCards.
  pose proof (rescrapLoop_rows scrape timestamp (collectCards db) db
                {| stat_total_cards := length (collectCards db);
                   stat_updated := 0; stat_errors := 0;
                   stat_error_details := [] |}) as Hr.
  destruct (rescrapLoop _ _ _ _ _) as [stats db']. cbn [snd] in *.
  rewrite Hr.
  change (map ?f (rows db)) with (f <$> rows db).
  rewrite list_lookup_fmap, Hi. cbn [fmap option_fmap option_map].
  eexists. split; [reflexivity|].
  split; [apply fold_refresh_identity|].
  assert (Hperm : collectCards db
                  ≡ₚ map (λ c, (card_ID c, rescrapRequest c)) (rows db)).
  { unfold collectCards. apply Permutation_map, order_by_perm. }
  rewrite (fold_refresh_own scrape timestamp (collectCards db) c
             (rescrapRequest c)).
  - rewrite refresh_row_eq, Nat.eqb_refl.
    change (req_URL (rescrapRequest c)) with (card_CardURL c).
    by destruct (scrape (card_CardURL c) (rescrapRequest c)).
  - rewrite Hperm, map_map. cbn [fst]. exact Hid.
  - rewrite Hperm. apply list_elem_of_fmap. exists c.
    split; [done|]. by apply list_elem_of_lookup_2 with i.
Qed.

Lemma RescrapAllCards_rows_witness :
  ∃ c', rows (RescrapAllCards pikachu_only (fun _ => "2024-03-01 08:00:00")
                two_card_store).2 !! 1%nat = Some c'
        ∧ same_identity stored_glurak c'.
Proof.
  destruct (RescrapAllCards_rows pikachu_only
              (fun _ => "2024-03-01 08:00:00") two_card_store
              ltac:(unfold unique_ids; by apply (bool_decide_unpack _))
              1%nat stored_glurak eq_refl)
    as (c' & H1 & H2 & _).
  exists c'. split; [exact H1|exact H2].
Defined.

Lemma with_Price_identity c price priceNum lastUpdated :
  same_identity c (with_Price c price priceNum lastUpdated).
Proof. by repeat split. Qed.

(** X21. [UpdateCardPriceFixed] scrapes at most once, and always for an NM
    French standard-edition card, whatever criteria are stored with the
    card. When it fails the store is unchanged; for an unknown id nothing
    is scraped. When it succeeds the card's price and numeric price are
    the scraped ones, in the card returned and in the store. Nothing else
    is ever refreshed: every card keeps its id, URL, type, criteria, offer
    count, name, set, rarity and image, and the cards of other ids are left
    exactly as they were. *)
Theorem UpdateCardPriceFixed_effect
  (scrape : string → AddCardRequest → outcome ScrapedCardInfo)
  (now : string) (timestamp : nat → string) (db : DB) (cardID : nat) :
  let res := UpdateCardPriceFixed scrape now timestamp db cardID in
  (length res.2 ≤ 1)%nat
  ∧ (∀ url req, (url, req) ∈ res.2 →
       req_Quality req = "NM" ∧ req_Language req = "Français"
       ∧ req_Edition req = false
       ∧ ∃ card, getCardByID db cardID = Ok card ∧ url = card_CardURL card)
  ∧ (∀ err, res.1.1 = Err err → res.1.2 = db)
  ∧ (∀ err, getCardByID db cardID = Err err →
       res = (Err err, db, []))
  ∧ (∀ card', res.1.1 = Ok card' →
       ∃ card info stored,
         getCardByID db cardID = Ok card
         ∧ scrape (card_CardURL card) defaultReq = Ok info
         ∧ card_Price card' = info_Price info
         ∧ card_PriceNum card' = info_PriceNum info
         ∧ same_identity card card'
         ∧ getCardByID res.1.2 cardID = Ok stored
         ∧ card_Price stored = info_Price info
         ∧ card_PriceNum stored = info_PriceNum info)
  ∧ (∀ id c, getCardByID db id = Ok c →
       ∃ c', getCardByID res.1.2 id = Ok c'
         ∧ same_identity c c'
         ∧ card_Name c' = card_Name c ∧ card_Set c' = card_Set c
         ∧ card_Rarity c' = card_Rarity c
         ∧ card_ImageURL c' = card_ImageURL c
         ∧ (id ≠ cardID → c' = c)).
Proof.
  cbn zeta. unfold UpdateCardPriceFixed.
  destruct (getCardByID db cardID) as [card|e] eqn:G.
  2:{ cbn. split; [lia|]. split; [by intros ? ? ?%elem_of_nil|].
      split; [done|]. split; [by intros ? [= <-]|]. split; [done|].
      intros id c Hc. exists c. split; [done|].
      split; [apply same_identity_refl|done]. }
  destruct (scrape (card_CardURL card) defaultReq) as [info|e] eqn:S.
  2:{ cbn. split; [lia|]. split.
      { intros url req [= -> ->]%list_elem_of_singleton.
        repeat split. by exists card. }
      split; [done|]. split; [done|]. split; [done|].
      intros id c Hc. exists c. split; [done|].
      split; [apply same_identity_refl|done]. }
  cbn [fst snd length]. split; [lia|]. split.
  { intros url req [= -> ->]%list_elem_of_singleton.
    repeat split. by exists card. }
  split; [done|]. split; [done|].
  assert (Hlook : ∀ id,
    getCardByID
      {| rows := map (λ c, if (card_ID c =? cardID)%nat
                           then with_Price c (info_Price info)
                                  (info_PriceNum info) (timestamp cardID)
                           else c) (rows db);
         last_id := last_id db |} id
    = match getCardByID db id with
      | Ok c => Ok (if (id =? cardID)%nat
                    then with_Price c (info_Price info)
                           (info_PriceNum info) (timestamp cardID)
                    else c)
      | Err err => Err err
      end).
  { intros id. unfold getCardByID. cbn [rows]. rewrite find_map_id.
    - destruct (List.find _ (rows db)) as [c|] eqn:E; [|done].
      apply find_some in E as [_ E]. apply Nat.eqb_eq in E. cbn.
      by rewrite E.
    - intros c. by destruct (card_ID c =? cardID)%nat. }
  split.
  - intros card' [= <-]. exists card, info. eexists.
    split; [done|]. split; [done|]. split; [done|]. split; [done|].
    split; [apply with_Price_identity|].
    rewrite Hlook, G, Nat.eqb_refl. done.
  - intros id c Hc. rewrite Hlook, Hc. eexists. split; [reflexivity|].
    destruct (id =? cardID)%nat eqn:E.
    + split; [apply with_Price_identity|]. repeat split; try done.
      apply Nat.eqb_eq in E. congruence.
    + split; [apply same_identity_refl|done].
Qed.

Lemma NoDup_map_filter {A B} (f : A → B) (p : A → bool) (l : list A) :
  NoDup (map f l) → NoDup (map f (List.filter p l)).
Proof.
  induction l as [|x l IH]; simpl; [done|].
  intros [Hx Hnd]%NoDup_cons. destruct (p x); simpl; [|by apply IH].
  apply NoDup_cons. split; [|by apply IH].
  intros (y & Hy & Hin)%list_elem_of_fmap. apply Hx.
  apply list_elem_of_fmap. exists y. split; [done|].
  by apply filter_elem_of in Hin as [Hin _].
Qed.

Lemma store_ok_map (g : Card → Card) db db' :
  rows db' = map g (rows db) → last_id db' = last_id db →
  (∀ c, card_ID (g c) = card_ID c) →
  (∀ c, card_CardURL (g c) = card_CardURL c) →
  store_ok db → store_ok db'.
Proof.
  intros Hr Hl Hi Hu (H1 & H2 & H3).
  unfold store_ok, unique_ids, unique_urls. rewrite Hr, Hl, !map_map.
  rewrite (map_ext _ card_ID Hi), (map_ext _ card_CardURL Hu).
  split; [done|]. split; [done|].
  intros c (x & -> & Hx)%list_elem_of_fmap. rewrite Hi. by apply H3.
Qed.

Lemma rescrapLoop_last_id scrape ts cards : ∀ db stats,
  last_id (rescrapLoop scrape ts cards db stats).2 = last_id db.
Proof.
  induction cards as [|[id req] l IH]; intros db stats; [done|].
  cbn [rescrapLoop]. destruct (scrape (req_URL req) req); by rewrite IH.
Qed.

Lemma moveCard_store_ok ts db id t :
  store_ok db → store_ok (moveCard ts db id t).2.
Proof.
  apply (store_ok_map (λ c, if (card_ID c =? id)%nat
                            then with_LastUpdated (with_Type c t) ts
                            else c)); try done;
    intros c; by destruct (card_ID c =? id)%nat.
Qed.

(** X22. Every operation on the store keeps it well formed: if ids are
    unique, URLs are unique and no id exceeds the largest id handed out,
    the same holds after [AddCard], [DeleteCard], [MoveCard],
    [RescrapAllCards] and [UpdateCardPriceFixed], whatever the scraper
    answers. *)
Theorem store_ok_preserved
  (scrapeReq : AddCardRequest → outcome ScrapedCardInfo)
  (failure : AddCardRequest → string → string)
  (scrape : string → AddCardRequest → outcome ScrapedCardInfo)
  (now ts : string) (timestamp : nat → string) (db : DB) :
  store_ok db →
  (∀ req, store_ok (AddCard scrapeReq failure now ts db req).1.2)
  ∧ (∀ exec id, store_ok (DeleteCard exec db id).2)
  ∧ (∀ exec id t, store_ok (MoveCard exec ts db id t).2)
  ∧ store_ok (RescrapAllCards scrape timestamp db).2
  ∧ (∀ id, store_ok (UpdateCardPriceFixed scrape now timestamp db id).1.2).
Proof.
  intros Hok. split; [|split; [|split; [|split]]].
  - intros req. unfold AddCard.
    destruct (getCardByURL db (req_URL req)) as [c|e].
    + destruct (String.eqb (card_Type c) (req_Type req)); [done|].
      pose proof (moveCard_store_ok ts db (card_ID c) (req_Type req) Hok).
      by destruct (moveCard ts db (card_ID c) (req_Type req)) as [[err|] db'].
    + destruct (scrapeReq req) as [info|e']; [|done].
      unfold insertCard.
      destruct (existsb _ (rows db)) eqn:E; [done|]. cbn [fst snd].
      destruct Hok as (H1 & H2 & H3).
      unfold store_ok, unique_ids, unique_urls. cbn [rows last_id].
      rewrite !map_app. cbn [map card_ID card_CardURL with_ID].
      split; [|split].
      * apply NoDup_app. split; [done|]. split; [|apply NoDup_singleton].
        intros n (x & -> & Hx)%list_elem_of_fmap Heq%list_elem_of_singleton.
        specialize (H3 x Hx). lia.
      * apply NoDup_app. split; [done|]. split; [|apply NoDup_singleton].
        intros u (x & -> & Hx)%list_elem_of_fmap Heq%list_elem_of_singleton.
        assert (existsb (λ c, String.eqb (card_CardURL c) (req_URL req))
                  (rows db) = true) as E'; [|cbn in E; congruence].
        apply existsb_exists. exists x. split; [by apply list_elem_of_In|].
        by apply String.eqb_eq.
      * intros c [Hc| ->%list_elem_of_singleton]%elem_of_app.
        -- specialize (H3 c Hc). lia.
        -- cbn. lia.
  - intros [err|] id; [done|]. destruct Hok as (H1 & H2 & H3).
    unfold store_ok, unique_ids, unique_urls, DeleteCard.
    cbn [snd rows last_id].
    split; [by apply NoDup_map_filter|]. split; [by apply NoDup_map_filter|].
    intros c [Hc _]%filter_elem_of. by apply H3.
  - intros [err|] id t; [done|].
    exact (moveCard_store_ok ts db id t Hok).
  - unfold RescrapAllCards.
    pose proof (rescrapLoop_rows scrape timestamp (collectCards db) db
                  {| stat_total_cards := length (collectCards db);
                     stat_updated := 0; stat_errors := 0;
                     stat_error_details := [] |}) as Hr.
    pose proof (rescrapLoop_last_id scrape timestamp (collectCards db) db
                  {| stat_total_cards := length (collectCards db);
                     stat_updated := 0; stat_errors := 0;
                     stat_error_details := [] |}) as Hl.
    destruct (rescrapLoop _ _ _ _ _) as [stats db']. cbn [snd] in *.
    eapply store_ok_map; [exact Hr|exact Hl| | |exact Hok];
      intros c;
      by destruct (fold_refresh_identity scrape timestamp (collectCards db) c)
        as (? & ? & _).
  - intros id. unfold UpdateCardPriceFixed.
    destruct (getCardByID db id) as [card|e]; [|done].
    destruct (scrape (card_CardURL card) defaultReq) as [info|e]; [|done].
    cbn [fst snd].
    eapply store_ok_map; [reflexivity|reflexivity| | |exact Hok];
      intros c; cbn beta; by destruct (card_ID c =? id)%nat.
Qed.

Lemma store_ok_preserved_witness :
  store_ok (DeleteCard None two_card_store 1).2
  ∧ store_ok (RescrapAllCards pikachu_only (fun _ => "2024-03-01 08:00:00")
                two_card_store).2.
Proof.
  destruct (store_ok_preserved
              (fun req => pikachu_only (req_URL req) req) scrapeFailure_app
              pikachu_only "2024-03-01 09:00:00" "2024-03-01 08:00:00"
              (fun _ => "2024-03-01 08:00:00") two_card_store)
    as (_ & H2 & _ & H4 & _).
  - split; [by apply (bool_decide_unpack _)|].
    split; [by apply (bool_decide_unpack _)|].
    intros c Hc. cbn in Hc.
    apply elem_of_cons in Hc as [->|Hc]; [cbn; lia|].
    apply list_elem_of_singleton in Hc as ->. cbn; lia.
  - split; [exact (H2 None 1%nat)|exact H4].
Defined.

End StoreMore.

(** ** From the page to the store *)

Section EngineMore.
Import GoStrings Price Matcher Extractor Engine Store Props MoreProps.

Lemma rowOfferPatient_unlabelled r :
  rowOfferPatient r = option_map unlabelled (rowOffer r).
Proof.
  destruct r as [e| |m]; [done|done|]. unfold rowOfferPatient, rowOffer.
  destruct (as_bool (m !! "success")) as [[|]|]; [|done|done].
  unfold trimmed, unlabelled. cbn [option_map Mint Language Edition Price
                                   PriceNum].
  assert (Ht : ∀ v, TrimSpace (default "" (as_string v))
                    = match as_string v with
                      | Some s => TrimSpace s
                      | None => ""
                      end).
  { intros v. by destruct (as_string v). }
  rewrite !Ht. by destruct (as_bool (m !! "edition")).
Qed.

Lemma omap_option_map {A B C} (f : A → option B) (g : B → C) (l : list A) :
  omap (λ x, option_map g (f x)) l = map g (omap f l).
Proof.
  induction l as [|x l IH]; [done|].
  change (omap ?h (x :: l))
    with (match h x with Some y => y :: omap h l | None => omap h l end).
  cbn beta. destruct (f x); cbn [option_map map]; by rewrite IH.
Qed.

Lemma omap_pointwise {A B} (f g : A → option B) (l : list A) :
  (∀ x, f x = g x) → omap f l = omap g l.
Proof.
  intros H. induction l as [|x l IH]; [done|].
  change (omap ?h (x :: l))
    with (match h x with Some y => y :: omap h l | None => omap h l end).
  by rewrite H, IH.
Qed.

Lemma getInfosPatient_map p :
  match getInfos p with
  | Ok res => getInfosPatient p = Ok (map unlabelled res)
  | Err _ => ∃ e, getInfosPatient p = Err e
  end.
Proof.
  unfold getInfos, getInfosPatient.
  destruct (waitBody p); [by eexists|].
  destruct (articleRowCount p) as [n|]; [|by eexists].
  destruct (n =? 0)%nat; [done|]. f_equal.
  rewrite <- omap_option_map. apply omap_pointwise. intros i.
  apply rowOfferPatient_unlabelled.
Qed.

Lemma findTheCard_unlabelled res q l e :
  findTheCard (map unlabelled res) q l e
  = option_map unlabelled (findTheCard res q l e).
Proof.
  induction res as [|o res IH]; [done|]. cbn [map findTheCard].
  change (matches (unlabelled o) q l e) with (matches o q l e).
  by destruct (matches o q l e).
Qed.

(** X23. On a page that answers alike (the wait for the body, the row
    count, the object read for each row), the patient extractor of the
    later revision differs from [getInfos] by the labels only: when
    [getInfos] succeeds [getInfosPatient] returns the same offers in the
    same order without their rarity and set, and when one fails so does
    the other. Hence [launchLoopPatient] selects the offer [launchLoop]
    selects, without its labels. *)
Theorem patient_extractor_unlabelled (p : Page) (s : Session) (n : nat)
  (quality langue : string) (edition load : bool) :
  match getInfos p with
  | Ok res => getInfosPatient p = Ok (map unlabelled res)
  | Err _ => ∃ e, getInfosPatient p = Err e
  end
  ∧ launchLoopPatient s n quality langue edition load
    = option_map unlabelled (launchLoop s n quality langue edition load).
Proof.
  split; [apply getInfosPatient_map|].
  unfold launchLoopPatient, launchLoop. cbn zeta.
  destruct (navigation (visits s n load)); [done|].
  pose proof (getInfosPatient_map (reached (visits s n load))) as H.
  destruct (getInfos (reached (visits s n load))) as [res|e].
  - rewrite H. apply findTheCard_unlabelled.
  - by destruct H as [e' ->].
Qed.

Lemma extractNumericPrice_ge0 priceText :
  (0 <= extractNumericPrice priceText)%Q.
Proof.
  unfold extractNumericPrice.
  destruct (FindStringSubmatch priceText) as [|? [|m1 ?]]; try done.
  destruct (Strconv.ParseFloat _) as [v|] eqn:E; [|done].
  by eapply ParseFloat_nonneg.
Qed.

Lemma rowOffer_price r o :
  rowOffer r = Some o → PriceNum o = extractNumericPrice (Price o).
Proof.
  destruct r as [e| |m]; [done|done|]. unfold rowOffer.
  destruct (as_bool (m !! "success")) as [[|]|]; [|done|done].
  by intros [= <-].
Qed.

Lemma getInfos_price p res o :
  getInfos p = Ok res → o ∈ res →
  PriceNum o = extractNumericPrice (Price o).
Proof.
  intros H Ho. destruct (getInfos_elem p res o H Ho) as (n & i & _ & _ & Hr).
  by apply rowOffer_price in Hr.
Qed.

Lemma launchLoop_Some s n q l e load o :
  launchLoop s n q l e load = Some o →
  navigation (visits s n load) = None
  ∧ on_page getInfos (reached (visits s n load)) o
  ∧ triple_eq o q l e
  ∧ PriceNum o = extractNumericPrice (Price o).
Proof.
  unfold launchLoop. cbn zeta.
  destruct (navigation (visits s n load)); [done|].
  destruct (getInfos (reached (visits s n load))) as [res|] eqn:E; [|done].
  intros [Hin Ht]%findTheCard_Some. split; [done|].
  split; [by exists res|]. split; [done|]. by eapply getInfos_price.
Qed.

Lemma launchLoopPatient_Some s n q l e load o :
  launchLoopPatient s n q l e load = Some o →
  navigation (visits s n load) = None
  ∧ on_page getInfosPatient (reached (visits s n load)) o
  ∧ triple_eq o q l e
  ∧ PriceNum o = extractNumericPrice (Price o).
Proof.
  unfold launchLoopPatient. cbn zeta.
  destruct (navigation (visits s n load)); [done|].
  pose proof (getInfosPatient_map (reached (visits s n load))) as Hm.
  destruct (getInfosPatient (reached (visits s n load))) as [res|] eqn:E;
    [|done].
  intros [Hin Ht]%findTheCard_Some. split; [done|].
  split; [by exists res|]. split; [done|].
  destruct (getInfos (reached (visits s n load))) as [res0|] eqn:E0.
  - injection Hm as ->.
    apply list_elem_of_fmap in Hin as (o0 & -> & Hin0).
    exact (getInfos_price _ _ o0 E0 Hin0).
  - by destruct Hm.
Qed.

Lemma twoDepths_Some m s req o trace :
  twoDepths m s req = (Some o, trace) →
  ∃ a, last trace = Some a ∧ att_hit a = true ∧ att_mode a = m
       ∧ (att_index a, att_load a) ∈ [(0%nat, false); (1%nat, true)]
       ∧ launch_app s req a = Some o
       ∧ (att_load a = true →
          launchLoop s 0 (req_Quality req) (req_Language req)
            (req_Edition req) false = None).
Proof.
  unfold twoDepths, launch_app.
  destruct (launchLoop s 0 _ _ _ false) as [o0|] eqn:E0.
  - intros [= <- <-]. eexists. split; [reflexivity|]. cbn.
    split; [done|]. split; [done|]. split; [set_solver|done].
  - destruct (launchLoop s 1 _ _ _ true) as [o1|] eqn:E1; [|done].
    intros [= <- <-]. eexists. split; [reflexivity|]. cbn.
    split; [done|]. split; [done|]. split; [set_solver|done].
Qed.

(** X24. When app.go's [scrapeCardInfo] succeeds, the price it returns is
    the price of an offer read from an article row of the page it visited
    last, an offer with exactly the wanted quality, language and edition:
    the page of the shallow visit, or that of the expanded visit when the
    shallow one gave no such offer. The numeric price is
    [extractNumericPrice] of the price text and is not negative. *)
Theorem app_scrape_price_of_matching_row (s : Session)
  (req : AddCardRequest) (info : ScrapedCardInfo)
  (result : option CardOffer) (trace : list Attempt) :
  AppGo.scrapeCardInfo s req = (Ok info, result, trace) →
  ∃ a o,
    last trace = Some a
    ∧ (att_index a, att_load a) ∈ [(0%nat, false); (1%nat, true)]
    ∧ navigation (visits s (att_index a) (att_load a)) = None
    ∧ on_page getInfos (reached (visits s (att_index a) (att_load a))) o
    ∧ triple_eq o (req_Quality req) (req_Language req) (req_Edition req)
    ∧ info_Price info = Price o
    ∧ info_PriceNum info = extractNumericPrice (info_Price info)
    ∧ (0 <= info_PriceNum info)%Q
    ∧ (att_load a = true →
       launchLoop s 0 (req_Quality req) (req_Language req)
         (req_Edition req) false = None).
Proof.
  intros H.
  destruct (twoDepths secure s req) as [[o|] tr] eqn:E.
  2:{ unfold AppGo.scrapeCardInfo in H. by rewrite E in H. }
  destruct (app_scrapeCardInfo_spec s req o tr E)
    as (info' & result' & H' & _ & _ & _ & _ & _ & Hp & Hn).
  rewrite H' in H. injection H as <- <- <-.
  destruct (twoDepths_Some _ _ _ _ _ E) as (a & Hl & _ & _ & Hk & Ha & H0).
  apply launchLoop_Some in Ha as (Hnav & Hpage & Ht & Hnum).
  exists a, o. split; [done|]. split; [done|]. split; [done|].
  split; [done|]. split; [done|]. split; [done|].
  split; [by rewrite Hn, Hp|]. split; [|done].
  rewrite Hn, Hnum. apply extractNumericPrice_ge0.
Qed.

Lemma app_scrape_price_of_matching_row_witness :
  ∃ a o,
    last [mkAttempt secure 0 false true] = Some a
    ∧ on_page getInfos
        (reached (visits labelled_session (att_index a) (att_load a))) o
    ∧ triple_eq o "NM" "English" false.
Proof.
  destruct (app_scrape_price_of_matching_row labelled_session nm_english
              _ _ _ eq_refl)
    as (a & o & H1 & _ & _ & H2 & H3 & _).
  exists a, o. split; [exact H1|]. split; [exact H2|exact H3].
Defined.

Lemma retryLoop_Some m s req todo : ∀ i o trace,
  retryLoop m s req i todo = (Some o, trace) →
  ∃ a, last trace = Some a ∧ att_hit a = true ∧ att_mode a = m
       ∧ launchLoopPatient s (att_index a) (req_Quality req)
           (req_Language req) (req_Edition req) (att_load a) = Some o.
Proof.
  induction todo as [|[[d loadMore] name] rest IH]; intros i o trace;
    [done|].
  cbn [retryLoop].
  destruct (launchLoopPatient s i _ _ _ loadMore) as [r|] eqn:E.
  - intros [= <- <-]. eexists. split; [reflexivity|]. by cbn.
  - destruct (retryLoop m s req (S i) rest) as [r tr] eqn:R.
    intros [= -> <-]. destruct (IH _ _ _ R) as (a & Hl & Ha).
    exists a. split; [|done].
    destruct tr as [|x tr]; [done|]. by rewrite last_cons, Hl.
Qed.

Lemma attemptScrapeWithMode_Ok b req m info trace :
  attemptScrapeWithMode b req m = (Ok info, trace) →
  ∃ a o,
    last trace = Some a ∧ att_hit a = true ∧ att_mode a = m
    ∧ connection b m = None
    ∧ launchLoopPatient (session b m) (att_index a) (req_Quality req)
        (req_Language req) (req_Edition req) (att_load a) = Some o
    ∧ info_Price info = Price o ∧ info_PriceNum info = PriceNum o.
Proof.
  unfold attemptScrapeWithMode, testBrowserConnectionForMode.
  destruct (connection b m) as [e|] eqn:C; [done|].
  destruct (scrapeWithRetries m (session b m) req) as [[o|] tr] eqn:R;
    [|done].
  destruct (extractCardDetails_spec (session b m) o emptyInfo)
    as (info' & o' & -> & _ & _ & _ & _ & _ & Hp & Hn).
  cbn [fst]. intros [= <- <-].
  destruct (retryLoop_Some _ _ _ _ _ _ _ R) as (a & Hl & Hh & Hm & Ha).
  exists a, o. by rewrite Hm.
Qed.

Lemma modeLoop_Ok b req todo : ∀ info trace,
  modeLoop b req todo = (Ok info, trace) →
  ∃ a o,
    last trace = Some a ∧ att_hit a = true
    ∧ connection b (att_mode a) = None
    ∧ launchLoopPatient (session b (att_mode a)) (att_index a)
        (req_Quality req) (req_Language req) (req_Edition req) (att_load a)
      = Some o
    ∧ info_Price info = Price o ∧ info_PriceNum info = PriceNum o.
Proof.
  induction todo as [|m rest IH]; intros info trace; [done|].
  cbn [modeLoop].
  destruct (attemptScrapeWithMode b req m) as [[i|e] t] eqn:A.
  - intros [= <- <-].
    destruct (attemptScrapeWithMode_Ok _ _ _ _ _ A)
      as (a & o & Hl & Hh & <- & Hc & Ha & Hp).
    by exists a, o.
  - destruct (modeLoop b req rest) as [r t'] eqn:M. intros [= -> <-].
    destruct (IH _ _ eq_refl) as (a & o & Hl & Hrest).
    exists a, o. split; [|done]. by rewrite last_app, Hl.
Qed.

(** X25. When the later revision's [scrapeCardInfo] succeeds, on Windows
    or elsewhere, the last attempt it made is a hit, made under a browser
    configuration that connected, and the price returned is the price of
    the offer found there: an offer read from an article row of that
    visit's page, with exactly the wanted quality, language and edition.
    The numeric price is [extractNumericPrice] of the price text and is
    not negative. *)
Theorem scrape_price_of_matching_row (b : Browser) (req : AddCardRequest)
  (info : ScrapedCardInfo) (trace : list Attempt) :
  Engine.scrapeCardInfo b req = (Ok info, trace) →
  ∃ a o,
    last trace = Some a ∧ att_hit a = true
    ∧ connection b (att_mode a) = None
    ∧ launch b req a = Some o
    ∧ navigation (visits (session b (att_mode a)) (att_index a) (att_load a))
      = None
    ∧ on_page (if windows b then getInfosPatient else getInfos)
        (reached (visits (session b (att_mode a)) (att_index a)
                    (att_load a))) o
    ∧ triple_eq o (req_Quality req) (req_Language req) (req_Edition req)
    ∧ info_Price info = Price o
    ∧ info_PriceNum info = extractNumericPrice (info_Price info)
    ∧ (0 <= info_PriceNum info)%Q.
Proof.
  unfold Engine.scrapeCardInfo, launch. destruct (windows b) eqn:W.
  - unfold scrapeWithMultipleModes. intros H.
    destruct (modeLoop_Ok _ _ _ _ _ H) as (a & o & Hl & Hh & Hc & Ha & Hp & Hn).
    pose proof Ha as Ha'.
    apply launchLoopPatient_Some in Ha' as (Hnav & Hpage & Ht & Hnum).
    exists a, o. repeat (split; [done|]).
    split; [by rewrite Hn, Hp|].
    rewrite Hn, Hnum. apply extractNumericPrice_ge0.
  - unfold scrapeWithStandardMode, testBrowserConnectionPatient,
      testBrowserConnection. rewrite W.
    destruct (connection b secure) as [e|] eqn:C; [done|].
    destruct (twoDepths secure (session b secure) req) as [[o|] tr] eqn:E;
      [|done].
    destruct (extractCardDetails_spec (session b secure) o emptyInfo)
      as (info' & o' & -> & _ & _ & _ & _ & _ & Hp & Hn).
    cbn [fst]. intros [= <- <-].
    destruct (twoDepths_Some _ _ _ _ _ E) as (a & Hl & Hh & Hm & _ & Ha & _).
    unfold launch_app in Ha. pose proof Ha as Ha'.
    apply launchLoop_Some in Ha' as (Hnav & Hpage & Ht & Hnum).
    exists a, o. rewrite Hm. repeat (split; [done|]).
    split; [by rewrite Hn, Hp|].
    rewrite Hn, Hnum. apply extractNumericPrice_ge0.
Qed.

Lemma scrape_price_of_matching_row_witness :
  ∃ a o,
    last (Engine.scrapeCardInfo lp_only_windows lp_english).2 = Some a
    ∧ att_hit a = true
    ∧ launch lp_only_windows lp_english a = Some o
    ∧ triple_eq o "LP" "English" false.
Proof.
  destruct (scrape_price_of_matching_row lp_only_windows lp_english
              _ _ eq_refl)
    as (a & o & H1 & H2 & _ & H3 & _ & _ & H4 & _).
  exists a, o. split; [exact H1|]. split; [exact H2|].
  split; [exact H3|exact H4].
Defined.

Lemma absent_url_find db url :
  (∀ c, c ∈ rows db → card_CardURL c ≠ url) →
  getCardByURL db url = Err "sql: no rows in result set".
Proof.
  intros H. unfold getCardByURL.
  destruct (List.find _ (rows db)) as [c|] eqn:E; [|done].
  apply find_some in E as [Hin Heq]. apply String.eqb_eq in Heq.
  apply list_elem_of_In in Hin. by destruct (H c Hin).
Qed.

Lemma scrapeFailure_app_no_match req :
  scrapeFailure_app req (no_match_error req) = not_found_text req.
Proof. reflexivity. Qed.

(** X26. app.go, from the page to the user: when the URL is not in the
    store and neither the shallow nor the expanded visit shows an offer
    with the wanted criteria, [AddCard] scrapes once, stores nothing, and
    answers "carte non trouvée avec les critères spécifiés (qualité: ...,
    langue: ..., édition: ...). Aucune carte similaire disponible" with
    the request's own criteria. *)
Theorem AddCard_reports_criteria (s : Session) (now ts : string) (db : DB)
  (req : AddCardRequest) :
  (∀ c, c ∈ rows db → card_CardURL c ≠ req_URL req) →
  launchLoop s 0 (req_Quality req) (req_Language req) (req_Edition req)
    false = None →
  launchLoop s 1 (req_Quality req) (req_Language req) (req_Edition req)
    true = None →
  AddCard (λ r, (AppGo.scrapeCardInfo s r).1.1) scrapeFailure_app now ts
    db req
  = (Err (not_found_text req), db, [req_URL req]).
Proof.
  intros Hurl H0 H1. unfold AddCard.
  rewrite (absent_url_find _ _ Hurl).
  unfold AppGo.scrapeCardInfo, twoDepths. rewrite H0, H1. cbn [fst].
  by rewrite scrapeFailure_app_no_match.
Qed.

Lemma AddCard_reports_criteria_witness :
  AddCard (λ r, (AppGo.scrapeCardInfo labelled_session r).1.1)
    scrapeFailure_app "2024-03-01 09:00:00" "2024-03-01 08:00:00"
    empty_store lp_english
  = (Err (not_found_text lp_english), empty_store, [pikachu_url]).
Proof.
  apply (AddCard_reports_criteria labelled_session "2024-03-01 09:00:00"
           "2024-03-01 08:00:00" empty_store lp_english).
  - intros c Hc. by apply elem_of_nil in Hc.
  - reflexivity.
  - reflexivity.
Defined.

Lemma scrapeWithMultipleModes_Err b req e trace :
  scrapeWithMultipleModes b req = (Err e, trace) → e = all_modes_failed.
Proof. apply modeLoop_failure_text. Qed.

(** X27. The later revision, from the page to the user. On Windows every
    failure of the scrape, whatever its cause (no offer with the wanted
    criteria included), makes [AddCard] answer that the browser cannot be
    reached. On other hosts, when the browser connects and neither visit
    shows an offer with the wanted criteria, [AddCard] answers the "carte
    non trouvée" text with the request's criteria, provided the criteria
    do not themselves spell the browser error, which is looked for first
    in the error text. In both cases nothing is stored. *)
Theorem AddCard_failure_text (b : Browser) (now ts : string) (db : DB)
  (req : AddCardRequest) :
  (∀ c, c ∈ rows db → card_CardURL c ≠ req_URL req) →
  (windows b = true →
   (∃ e, (Engine.scrapeCardInfo b req).1 = Err e) →
   AddCard (λ r, (Engine.scrapeCardInfo b r).1) (scrapeFailure (windows b))
     now ts db req
   = (Err browser_unreachable_windows, db, [req_URL req]))
  ∧ (windows b = false → connection b secure = None →
     ContainsStr (no_match_error req)
       "impossible de se connecter au navigateur" = false →
     launchLoop (session b secure) 0 (req_Quality req) (req_Language req)
       (req_Edition req) false = None →
     launchLoop (session b secure) 1 (req_Quality req) (req_Language req)
       (req_Edition req) true = None →
     AddCard (λ r, (Engine.scrapeCardInfo b r).1)
       (scrapeFailure (windows b)) now ts db req
     = (Err (not_found_text req), db, [req_URL req])).
Proof.
  intros Hurl. split.
  - intros W [e He]. unfold AddCard. rewrite (absent_url_find _ _ Hurl).
    rewrite He. unfold Engine.scrapeCardInfo in He. rewrite W in He.
    destruct (scrapeWithMultipleModes b req) as [r t] eqn:M.
    cbn [fst] in He. subst r.
    apply scrapeWithMultipleModes_Err in M as ->. by rewrite W.
  - intros W C Hq H0 H1. unfold AddCard. rewrite (absent_url_find _ _ Hurl).
    unfold Engine.scrapeCardInfo, scrapeWithStandardMode,
      testBrowserConnectionPatient, testBrowserConnection, twoDepths.
    rewrite W, C, H0, H1. cbn [fst]. unfold scrapeFailure. rewrite Hq.
    reflexivity.
Qed.

Lemma AddCard_failure_text_witness :
  AddCard (λ r, (Engine.scrapeCardInfo lp_only_windows r).1)
    (scrapeFailure (windows lp_only_windows))
    "2024-03-01 09:00:00" "2024-03-01 08:00:00" empty_store nm_english
  = (Err browser_unreachable_windows, empty_store, [req_URL nm_english]).
Proof.
  destruct (AddCard_failure_text lp_only_windows "2024-03-01 09:00:00"
              "2024-03-01 08:00:00" empty_store nm_english
              ltac:(intros c Hc; by apply elem_of_nil in Hc)) as [H _].
  apply H; [reflexivity|]. eexists. reflexivity.
Defined.

End EngineMore.

(** ** The WebView revision *)

Section WebViewMore.
Import GoStrings Engine WebViewScraper Props MoreProps.

Lemma firstKeyword_found order context :
  (firstKeyword order context = ""
   ∧ ∀ k v, (k, v) ∈ order → ContainsStr context k = false)
  ∨ ∃ k, (k, firstKeyword order context) ∈ order
         ∧ ContainsStr context k = true.
Proof.
  induction order as [|[k v] rest IH]; cbn [firstKeyword].
  - left. split; [done|]. intros k v H. by apply elem_of_nil in H.
  - destruct (ContainsStr context k) eqn:E.
    + right. exists k. split; [left|done].
    + destruct IH as [[H0 Hall]|(k' & Hin & Hc)].
      * left. split; [done|]. intros k' v' [[= -> ->]|H]%elem_of_cons;
          [done|by eapply Hall].
      * right. exists k'. split; [by right|done].
Qed.

Lemma firstKeyword_results (m : list (string * string)) context q :
  (∃ order, order ≡ₚ m ∧ firstKeyword order context = q)
  ↔ (q = "" ∧ ∀ k v, (k, v) ∈ m → ContainsStr context k = false)
    ∨ (∃ k, (k, q) ∈ m ∧ ContainsStr context k = true).
Proof.
  split.
  - intros (order & Hp & <-).
    destruct (firstKeyword_found order context) as [[H0 Hall]|(k & Hin & Hc)].
    + left. split; [done|]. intros k v Hin. apply (Hall k v).
      by rewrite Hp.
    + right. exists k. split; [by rewrite <- Hp|done].
  - intros [[-> Hall]|(k & Hin & Hc)].
    + exists m. split; [done|].
      destruct (firstKeyword_found m context) as [[H0 _]|(k & Hin & Hc)];
        [done|]. by rewrite (Hall _ _ Hin) in Hc.
    + apply elem_of_Permutation in Hin as [rest Hp].
      exists ((k, q) :: rest). split; [done|].
      cbn [firstKeyword]. by rewrite Hc.
Qed.

(** X28. The quality and the language read from a context depend on the
    order in which Go ranges over the keyword map. Over all orders, the
    possible results of [extractQualityFromContext] (and likewise of
    [extractLanguageFromContext]) are exactly the values of the keywords
    that occur in the lower-cased context; the result is the empty text
    only when no keyword occurs. A context holding keywords of two values
    can thus give either. *)
Theorem keyword_results (ToLower : string → string) (context q : string) :
  ((∃ order, order ≡ₚ qualityMap
             ∧ extractQualityFromContext ToLower order context = q)
   ↔ (q = "" ∧ ∀ k v, (k, v) ∈ qualityMap →
                      ContainsStr (ToLower context) k = false)
     ∨ (∃ k, (k, q) ∈ qualityMap ∧ ContainsStr (ToLower context) k = true))
  ∧ ((∃ order, order ≡ₚ languageMap
               ∧ extractLanguageFromContext ToLower order context = q)
     ↔ (q = "" ∧ ∀ k v, (k, v) ∈ languageMap →
                        ContainsStr (ToLower context) k = false)
       ∨ (∃ k, (k, q) ∈ languageMap
               ∧ ContainsStr (ToLower context) k = true)).
Proof.
  split; apply firstKeyword_results.
Qed.

Lemma tableLoop_spec w q l e sels :
  (tableLoop w q l e sels [] = []
   ∧ ∀ s, s ∈ sels → wv_tableExists w s = Ok true →
          wv_parseTableRows w s q l e = [])
  ∨ ∃ pre sel post,
      sels = pre ++ sel :: post
      ∧ wv_tableExists w sel = Ok true
      ∧ wv_parseTableRows w sel q l e ≠ []
      ∧ (∀ s, s ∈ pre → wv_tableExists w s = Ok true →
              wv_parseTableRows w s q l e = [])
      ∧ tableLoop w q l e sels [] = wv_parseTableRows w sel q l e.
Proof.
  induction sels as [|sel rest IH]; cbn [tableLoop].
  - left. split; [done|]. intros s H. by apply elem_of_nil in H.
  - assert (Hskip :
      (wv_tableExists w sel = Ok true → wv_parseTableRows w sel q l e = []) →
      tableLoop w q l e rest [] = tableLoop w q l e rest [] →
      (tableLoop w q l e rest [] = []
       ∧ ∀ s, s ∈ sel :: rest → wv_tableExists w s = Ok true →
              wv_parseTableRows w s q l e = [])
      ∨ ∃ pre sel' post,
          sel :: rest = pre ++ sel' :: post
          ∧ wv_tableExists w sel' = Ok true
          ∧ wv_parseTableRows w sel' q l e ≠ []
          ∧ (∀ s, s ∈ pre → wv_tableExists w s = Ok true →
                  wv_parseTableRows w s q l e = [])
          ∧ tableLoop w q l e rest [] = wv_parseTableRows w sel' q l e).
    { intros Hsel _.
      destruct IH as [[H0 Hall]|(pre & sel' & post & -> & He & Hn & Hp & Hr)].
      - left. split; [done|]. intros s [->|Hs]%elem_of_cons; [done|].
        by apply Hall.
      - right. exists (sel :: pre), sel', post. split; [done|].
        split; [done|]. split; [done|]. split; [|done].
        intros s [->|Hs]%elem_of_cons; [done|]. by apply Hp. }
    destruct (wv_tableExists w sel) as [[|]|err] eqn:E.
    + cbn [app]. destruct (wv_parseTableRows w sel q l e) as [|o os] eqn:P.
      * cbn [length Nat.ltb Nat.leb]. by apply Hskip.
      * cbn [length Nat.ltb Nat.leb]. right. exists [], sel, rest.
        split; [done|]. split; [done|]. rewrite P. split; [done|].
        split; [|done]. intros s H. by apply elem_of_nil in H.
    + by apply Hskip.
    + by apply Hskip.
Qed.

(** X29. [extractOffersFromWebView] returns the offers of one strategy
    only, the first that finds any: the rows of the first table selector
    (in the list's order) that finds an element and gives at least one
    offer; if no selector does, the directly extracted prices; if those are
    empty too, all visible prices. A later strategy is used exactly when
    every earlier one gave no offer, and offers are never merged. *)
Theorem extractOffersFromWebView_cascade (w : WebView)
  (quality language : string) (edition : bool) :
  (∃ pre sel post,
     tableSelectors = pre ++ sel :: post
     ∧ wv_tableExists w sel = Ok true
     ∧ wv_parseTableRows w sel quality language edition ≠ []
     ∧ (∀ s, s ∈ pre → wv_tableExists w s = Ok true →
             wv_parseTableRows w s quality language edition = [])
     ∧ extractOffersFromWebView w quality language edition
       = wv_parseTableRows w sel quality language edition)
  ∨ ((∀ s, s ∈ tableSelectors → wv_tableExists w s = Ok true →
           wv_parseTableRows w s quality language edition = [])
     ∧ ((wv_extractPricesDirectly w quality language edition ≠ []
         ∧ extractOffersFromWebView w quality language edition
           = wv_extractPricesDirectly w quality language edition)
        ∨ (wv_extractPricesDirectly w quality language edition = []
           ∧ extractOffersFromWebView w quality language edition
             = wv_extractAllVisiblePrices w quality language edition))).
Proof.
  unfold extractOffersFromWebView.
  destruct (tableLoop_spec w quality language edition tableSelectors)
    as [[H0 Hall]|(pre & sel & post & Hs & He & Hn & Hp & Hr)].
  - right. split; [done|]. rewrite H0. cbn [length Nat.eqb].
    destruct (wv_extractPricesDirectly w quality language edition)
      as [|o os]; [by right|by left].
  - left. exists pre, sel, post. repeat (split; [done|]). rewrite Hr.
    by destruct (wv_parseTableRows w sel quality language edition).
Qed.

Lemma cheapest_first offers : ∀ best r,
  cheapest (Some best) offers = Some r →
  (r = best ∧ ∀ o, o ∈ offers → (PriceNum best <= PriceNum o)%Q)
  ∨ ∃ i, offers !! i = Some r
         ∧ (PriceNum r < PriceNum best)%Q
         ∧ (∀ o, o ∈ offers → (PriceNum r <= PriceNum o)%Q)
         ∧ (∀ j o, (j < i)%nat → offers !! j = Some o →
                   (PriceNum r < PriceNum o)%Q).
Proof.
  induction offers as [|x rest IH]; intros best r; cbn [cheapest].
  - intros [= <-]. left. split; [done|].
    intros o H. by apply elem_of_nil in H.
  - destruct (Qle_bool (PriceNum best) (PriceNum x)) eqn:E; cbn [negb].
    + apply Qle_bool_iff in E. intros H.
      destruct (IH _ _ H) as [[-> Hall]|(i & Hi & Hlt & Hall & Hbefore)].
      * left. split; [done|].
        intros o [->|Ho]%elem_of_cons; [done|by apply Hall].
      * right. exists (S i). split; [done|]. split; [done|].
        assert (PriceNum r < PriceNum x)%Q as Hx
          by (eapply Qlt_le_trans; [exact Hlt|exact E]).
        split.
        -- intros o [->|Ho]%elem_of_cons; [by apply Qlt_le_weak|].
           by apply Hall.
        -- intros [|j] o Hj Ho; [by injection Ho as <-|].
           apply (Hbefore j); [lia|done].
    + assert (PriceNum x < PriceNum best)%Q as Hx.
      { apply Qnot_le_lt. intros Hle. apply Qle_bool_iff in Hle. congruence. }
      intros H. right.
      destruct (IH _ _ H) as [[-> Hall]|(i & Hi & Hlt & Hall & Hbefore)].
      * exists 0%nat. split; [done|]. split; [done|]. split.
        -- intros o [->|Ho]%elem_of_cons; [apply Qle_refl|by apply Hall].
        -- intros j o Hj. lia.
      * exists (S i). split; [done|].
        split; [eapply Qlt_trans; [exact Hlt|exact Hx]|]. split.
        -- intros o [->|Ho]%elem_of_cons; [by apply Qlt_le_weak|].
           by apply Hall.
        -- intros [|j] o Hj Ho; [by injection Ho as <-|].
           apply (Hbefore j); [lia|done].
Qed.

Lemma cheapest_total offers : ∀ best, ∃ r, cheapest (Some best) offers = Some r.
Proof.
  induction offers as [|y rest IH]; intros best; cbn [cheapest].
  - by eexists.
  - destruct (negb _); apply IH.
Qed.

Lemma cheapest_nonempty x rest :
  ∃ r i, cheapest None (x :: rest) = Some r
         ∧ (x :: rest) !! i = Some r
         ∧ (∀ o, o ∈ x :: rest → (PriceNum r <= PriceNum o)%Q)
         ∧ (∀ j o, (j < i)%nat → (x :: rest) !! j = Some o →
                   (PriceNum r < PriceNum o)%Q).
Proof.
  cbn [cheapest]. destruct (cheapest_total rest x) as [r Hr].
  exists r.
  destruct (cheapest_first _ _ _ Hr)
    as [[-> Hall]|(i & Hi & Hlt & Hall & Hbefore)].
  - exists 0%nat. split; [done|]. split; [done|]. split.
    + intros o [->|Ho]%elem_of_cons; [apply Qle_refl|by apply Hall].
    + intros j o Hj. lia.
  - exists (S i). split; [done|]. split; [done|]. split.
    + intros o [->|Ho]%elem_of_cons; [by apply Qlt_le_weak|by apply Hall].
    + intros [|j] o Hj Ho; [by injection Ho as <-|].
      apply (Hbefore j); [lia|done].
Qed.

(** X30. [scrapeWithWailsWebView] fails with the navigation's error, or
    with the no-match text when [extractOffersFromWebView] gives no offer
    for the request. In every other case it succeeds: it returns all the
    offers [extractOffersFromWebView] gave, the fixed labels "Extension
    CardMarket" and "Rareté CardMarket", and as price the price of the
    first of these offers whose numeric price is the lowest. *)
Theorem scrapeWithWailsWebView_cheapest (w : WebView) (req : AddCardRequest) :
  match scrapeWithWailsWebView w req with
  | Ok info =>
      wv_navigation w = None
      ∧ info_Offers info
        = extractOffersFromWebView w (req_Quality req) (req_Language req)
            (req_Edition req)
      ∧ (∃ i o,
           info_Offers info !! i = Some o
           ∧ info_Price info = Price o
           ∧ info_PriceNum info = PriceNum o
           ∧ (∀ o', o' ∈ info_Offers info → (PriceNum o <= PriceNum o')%Q)
           ∧ (∀ j o', (j < i)%nat → info_Offers info !! j = Some o' →
                      (PriceNum o < PriceNum o')%Q))
      ∧ info_Set info = "Extension CardMarket"
      ∧ info_Rarity info = "Rareté CardMarket"
  | Err e =>
      (∃ err, wv_navigation w = Some err
              ∧ e = "erreur navigation WebView: " +:+ err)
      ∨ (wv_navigation w = None
         ∧ extractOffersFromWebView w (req_Quality req) (req_Language req)
             (req_Edition req) = []
         ∧ e = no_match_error req)
  end.
Proof.
  unfold scrapeWithWailsWebView, findBestOfferWebView. cbn zeta.
  destruct (wv_navigation w) as [err|]; [left; by exists err|].
  destruct (extractOffersFromWebView w _ _ _) as [|x rest] eqn:E.
  - cbn [length Nat.eqb]. by right.
  - cbn [length Nat.eqb].
    destruct (cheapest_nonempty x rest) as (r & i & -> & Hi & Hall & Hfirst).
    cbn [info_Offers info_Price info_PriceNum info_Set info_Rarity].
    split; [done|]. split; [done|]. split; [|done].
    by exists i, r.
Qed.

End WebViewMore.
